(** * Roku integration: identity reconciliation and power-state interpretation

    A shallow embedding of the reconciliation core of
    [src/server/RokuClient.js] (the extension module that follows the ECP
    client class in that file): [interpretPowerState], [findExistingRoku],
    [handleDiscoveredCandidate], [syncDevicesToRegistry] and
    [recoverDevicesFromEntityStates], together with the [DeviceStore]
    wrapper they use.

    Conventions of the embedding.
    - A JavaScript string is a [string]; [toLowerCase]/[toUpperCase] act on
      the ASCII letters (power modes, MAC addresses, slugs and device ids
      are ASCII).  JavaScript's case mappings and its line terminators go
      beyond ASCII (the upper case of U+FB00 is [FF]; U+2028 ends a line):
      a statement that depends on them is made for ASCII strings, see
      [is_ascii].
    - A value that may be [undefined] or [null] is an [option]; [None]
      stands for both.
    - [async] functions are sequential computations in the monad [M] over
      the state [World]; a rejected promise or a thrown exception is
      [Throw]. *)

From Stdlib Require Import String Ascii List Bool Arith Lia.
From stdpp Require Import base option gmap strings list fin_maps.
Import ListNotations.

Open Scope string_scope.

(** ** JavaScript string primitives *)

Module Js.

(** [c.toLowerCase()] on one ASCII character. *)
Definition lower_ascii (c : ascii) : ascii :=
  let n := nat_of_ascii c in
  if (65 <=? n)%nat && (n <=? 90)%nat then ascii_of_nat (n + 32) else c.

(** [c.toUpperCase()] on one ASCII character. *)
Definition upper_ascii (c : ascii) : ascii :=
  let n := nat_of_ascii c in
  if (97 <=? n)%nat && (n <=? 122)%nat then ascii_of_nat (n - 32) else c.

Fixpoint map_string (f : ascii -> ascii) (s : string) : string :=
  match s with
  | EmptyString => EmptyString
  | String c s' => String (f c) (map_string f s')
  end.

(** [s.toLowerCase()] and [s.toUpperCase()] on ASCII strings.  Characters
    beyond ASCII are left as they are, where JavaScript maps some of them,
    a few even to ASCII letters (the upper case of U+FB00 is [FF], the
    lower case of U+212A is [k]). *)
Definition toLowerCase : string -> string := map_string lower_ascii.
Definition toUpperCase : string -> string := map_string upper_ascii.

(** [s.startsWith(p)]. *)
Fixpoint startsWith (p s : string) : bool :=
  match p, s with
  | EmptyString, _ => true
  | String a p', String b s' => if Ascii.eqb a b then startsWith p' s' else false
  | String _ _, EmptyString => false
  end.

(** [s.includes(needle)]. *)
Fixpoint includes (needle s : string) : bool :=
  startsWith needle s ||
  match s with
  | EmptyString => false
  | String _ s' => includes needle s'
  end.

(** Truthiness of an optional string: [undefined], [null] and the empty
    string are falsy. *)
Definition truthy (o : option string) : bool :=
  match o with
  | Some s => negb (String.eqb s "")
  | None => false
  end.

(** [a || b] on optional strings. *)
Definition or_else (a b : option string) : option string :=
  if truthy a then a else b.

(** [a || 'literal']. *)
Definition or_default (a : option string) (d : string) : string :=
  match or_else a (Some d) with Some s => s | None => d end.

(** Text of a value inside a template literal. *)
Definition template (o : option string) : string :=
  match o with Some s => s | None => "undefined" end.

(** [a === b] on optional strings. *)
Definition strict_eq (a b : option string) : bool :=
  match a, b with
  | Some x, Some y => String.eqb x y
  | None, None => true
  | _, _ => false
  end.

End Js.

(** ** Power-state interpreter *)

(** The foreground-app descriptor returned by [getActiveApp]. *)
Record ActiveApp := mkActiveApp {
  app_id : option string;
  app_name : option string;
  app_type : option string;
  app_version : option string
}.

(** [activeApp?.type === 'screensaver']. *)
Definition is_screensaver (activeApp : option ActiveApp) : bool :=
  match activeApp with
  | Some a => Js.strict_eq (app_type a) (Some "screensaver")
  | None => false
  end.

Definition interpretPowerState (rawPowerMode : option string)
    (activeApp : option ActiveApp) : string :=
  let mode := Js.toLowerCase (Js.or_default rawPowerMode "") in
  if String.eqb mode "standby" || String.eqb mode "displayoff"
     || String.eqb mode "display off" || String.eqb mode "ready"
  then "standby"
  else if String.eqb mode "headless" then
    if is_screensaver activeApp then "standby" else "on"
  else if String.eqb mode "poweron" || String.eqb mode "power on" then
    if is_screensaver activeApp then "standby" else "on"
  else if Js.includes "off" mode || Js.includes "standby" mode
          || Js.includes "ready" mode
  then "standby"
  else "on".

Definition app_of_type (t : string) : ActiveApp :=
  {| app_id := None; app_name := None; app_type := Some t; app_version := None |}.

(** ** Data model *)

(** A JSON value stored in a record's open [metadata] map. *)
Inductive JVal :=
  | JStr (s : string)
  | JBool (b : bool).

Abbreviation Metadata := (gmap string JVal).

(** [{ ...m, k: v }] where [v] may be [undefined]. *)
Definition set_opt (k : string) (v : option JVal) (m : Metadata) : Metadata :=
  match v with
  | Some x => <[k:=x]> m
  | None => delete k m
  end.

Definition jstr (o : option string) : option JVal := JStr <$> o.

(** [{ ...metadata }] of a possibly-null metadata object. *)
Definition spread (m : option Metadata) : Metadata := default ∅ m.

(** The fields of a [roku_devices] row, as declared by
    [MODEL_SCHEMAS.devices]; [created_at] is assigned by the host and never
    read by this module. *)
Record DeviceRecord := mkDevice {
  device_id : string;
  ip_address : string;
  name : string;
  model : option string;
  serial_number : option string;
  software_version : option string;
  power_mode : option string;
  status : string;
  metadata : option Metadata;
  last_seen_at : option string
}.

(** A row read back from the table: the record with its primary key. *)
Record Row := mkRow {
  row_id : nat;
  row_data :> DeviceRecord
}.

(** The object passed to [model.update]: only the listed fields change. *)
Record Patch := mkPatch {
  p_ip_address : option string;
  p_status : option string;
  p_last_seen_at : option string;
  p_metadata : option Metadata
}.

Definition apply_patch (p : Patch) (d : DeviceRecord) : DeviceRecord :=
  {| device_id := device_id d;
     ip_address := default (ip_address d) (p_ip_address p);
     name := name d;
     model := model d;
     serial_number := serial_number d;
     software_version := software_version d;
     power_mode := power_mode d;
     status := default (status d) (p_status p);
     metadata := match p_metadata p with Some m => Some m | None => metadata d end;
     last_seen_at := match p_last_seen_at p with Some t => Some t | None => last_seen_at d end |}.

(** A discovery candidate, in either of its two field spellings. *)
Record Candidate := mkCandidate {
  c_ip : option string;
  c_ip_address : option string;
  c_mac : option string;
  c_mac_address : option string
}.

(** The fields of [RokuClient.getDeviceInfo()] this module reads. *)
Record DeviceInfo := mkInfo {
  serialNumber : option string;
  vendorName : option string;
  modelName : option string;
  modelNumber : option string;
  friendlyDeviceName : option string;
  softwareVersion : option string;
  powerMode : option string;
  isTv : bool;
  isStick : bool
}.

(** The descriptor handed to the host's [api.registerDevice]. *)
Record Descriptor := mkDescriptor {
  deviceId : string;
  d_name : string;
  d_type : string;
  extensionSource : string;
  ipAddress : string;
  macAddress : option string;
  d_model : option string;
  manufacturer : JVal;
  firmwareVersion : option string;
  capabilities : list string;
  d_metadata : Metadata
}.

(** A [device_registry] row, with the columns the routes of this module
    read from it; the [id] column is the key under which the row is held. *)
Record RegistryRow := mkRegistryRow {
  reg_name : option string;
  reg_friendly_name : option string;
  reg_device_type : string;
  reg_ip_address : option string;
  reg_model : option string;
  reg_manufacturer : option JVal;
  reg_firmware_version : option string;
  reg_capabilities : list string;
  reg_metadata : Metadata;
  reg_online : bool;
  reg_consecutive_failures : nat;
  reg_discovered_at : option string
}.

(** An [entity_states] row. *)
Record EntityRow := mkEntityRow {
  entity_id : option string;
  e_id : option string;
  e_device_id : option string;
  e_deviceId : option string;
  e_source_device_id : option string;
  e_name : option string;
  e_friendly_name : option string
}.

(** ** Effects *)

Inductive Result (A : Type) :=
  | Ok (a : A)
  | Throw (msg : string).
Arguments Ok {A} a.
Arguments Throw {A} msg.

Inductive Level := debug | warn.

(** One constructor per [api.log] call site, with the values interpolated
    into its message. *)
Inductive LogMsg :=
  | LogStoreNotInitialized
  | LogFoundLocal (n : nat)
  | LogRecovering
  | LogRecoveredCount (n : nat)
  | LogNothingToSync
  | LogLegacyId (serial : option string)
  | LogSyncIpChanged (name : string) (old : option string) (new : string)
  | LogSynced (name id : string)
  | LogSyncError (name msg : string)
  | LogNoEntityStates
  | LogFoundUnique (n : nat)
  | LogRegistryQueryFailed (msg : string)
  | LogNoIp (name : string)
  | LogRecoveredDevice (name ip : string)
  | LogUnreachable (ip msg : string)
  | LogRecoveryError (msg : string)
  | LogChecking (ip : option string)
  | LogDeviceInfo (ip : string) (serial vendor : option string)
  | LogNotRoku (ip : string)
  | LogConfirmed (ip : string) (serial : option string)
  | LogRokuIpChanged (name old new : string)
  | LogRegisteredNew (name ip : string)
  | LogVerifyFailed (ip : option string) (msg : string)
  | LogMatchedSerial (serial : option string)
  | LogMatchedMac (mac : option string)
  | LogMatchedIp (ip : string).

(** Events sent with [api.broadcast] and [api.globalEventBus.emit]. *)
Inductive Event :=
  | IpChanged (deviceId name oldIp newIp : string)
  | DeviceAdded (device : DeviceRecord).

(** The host's extension API, as far as this module calls it.  Queries
    return the matching rows or throw; [registerDevice] may change the host
    and may throw. *)
Class HostApi (H : Type) := {
  registry_where_id : H -> string -> Result (list RegistryRow);
  registry_where_type : H -> string -> Result (list RegistryRow);
  entity_states_like : H -> string -> Result (list EntityRow);
  registerDevice : H -> Descriptor -> Result unit * H
}.

(** The module state ([api], [deviceStore]) and everything the module can
    observably do to its surroundings. *)
Record World (H : Type) := mkWorld {
  deviceStore : option (list Row);
  host : H;
  logs : list (LogMsg * Level);
  broadcasts : list Event;
  bus_events : list Event;
  register_calls : list Descriptor;
  ticks : nat
}.
Arguments mkWorld {H}.
Arguments deviceStore {H}.
Arguments host {H}.
Arguments logs {H}.
Arguments broadcasts {H}.
Arguments bus_events {H}.
Arguments register_calls {H}.
Arguments ticks {H}.

(** The world with its log replaced. *)
Definition with_logs {H} (lg : list (LogMsg * Level)) (w : World H) : World H :=
  mkWorld (deviceStore w) (host w) lg (broadcasts w) (bus_events w)
          (register_calls w) (ticks w).

Definition M (H A : Type) : Type := World H -> Result A * World H.

Definition ret {H A} (a : A) : M H A := fun w => (Ok a, w).

Definition throw {H A} (msg : string) : M H A := fun w => (Throw msg, w).

Definition bind {H A B} (m : M H A) (k : A -> M H B) : M H B :=
  fun w =>
    match m w with
    | (Ok a, w') => k a w'
    | (Throw e, w') => (Throw e, w')
    end.

(** [try { m } catch (e) { handler e }]. *)
Definition try_catch {H A} (m : M H A) (handler : string -> M H A) : M H A :=
  fun w =>
    match m w with
    | (Ok a, w') => (Ok a, w')
    | (Throw e, w') => handler e w'
    end.

Definition lift {H A} (r : Result A) : M H A := fun w => (r, w).

Declare Scope js_scope.
Delimit Scope js_scope with js.
Notation "x <- m ;; k" := (bind m (fun x => k))
  (at level 100, m at next level, right associativity) : js_scope.
Notation "m ;;; k" := (bind m (fun _ => k))
  (at level 100, right associativity) : js_scope.
Open Scope js_scope.

(** [for (const x of l) { body x }]. *)
Fixpoint for_each {H X} (l : list X) (body : X -> M H unit) : M H unit :=
  match l with
  | [] => ret tt
  | x :: l' => body x ;;; for_each l' body
  end.

(** [l.find(p)] for a predicate that may throw. *)
Fixpoint find_throwing {X} (p : X -> Result bool) (l : list X) : Result (option X) :=
  match l with
  | [] => Ok None
  | x :: l' =>
      match p x with
      | Ok true => Ok (Some x)
      | Ok false => find_throwing p l'
      | Throw e => Throw e
      end
  end.

(** ** String helpers used by the reconciliation code *)

(** [s.replace(/[:-]/g, ':')]. *)
Definition colon_delimited : string -> string :=
  Js.map_string (fun c => if Ascii.eqb c "-" then ":"%char else c).

(** [mac.toUpperCase().replace(/[:-]/g, ':')]. *)
Definition normalizeMac (mac : string) : string :=
  colon_delimited (Js.toUpperCase mac).

(** [ip.replace(/\./g, '-')]. *)
Definition dots_to_dashes : string -> string :=
  Js.map_string (fun c => if Ascii.eqb c "." then "-"%char else c).

(** [s.split('.')]. *)
Fixpoint split_dot (s : string) : list string :=
  match s with
  | EmptyString => [""]
  | String c s' =>
      let r := split_dot s' in
      if Ascii.eqb c "." then "" :: r
      else match r with
           | h :: t => String c h :: t
           | [] => [String c ""]
           end
  end.

(** The line terminators among the ASCII characters, which [.] does not
    match; beyond ASCII JavaScript also counts U+2028 and U+2029. *)
Definition is_line_terminator (c : ascii) : bool :=
  Ascii.eqb c "010" || Ascii.eqb c "013".

Fixpoint no_line_terminator (s : string) : bool :=
  match s with
  | EmptyString => true
  | String c s' => negb (is_line_terminator c) && no_line_terminator s'
  end.

(** [id.match(/^roku[:\-](.+)$/i)?.[1]]. *)
Definition serial_of_device_id (id : string) : option string :=
  match id with
  | String r (String o (String k (String u (String sep rest)))) =>
      if String.eqb (Js.toLowerCase (String r (String o (String k (String u ""))))) "roku"
         && (Ascii.eqb sep ":" || Ascii.eqb sep "-")
         && negb (String.eqb rest "")
         && no_line_terminator rest
      then Some rest else None
  | _ => None
  end.

(** The character class [\w]. *)
Definition is_word_char (c : ascii) : bool :=
  let n := nat_of_ascii c in
  ((48 <=? n)%nat && (n <=? 57)%nat) || ((65 <=? n)%nat && (n <=? 90)%nat)
  || ((97 <=? n)%nat && (n <=? 122)%nat) || (n =? 95)%nat.

(** The character class [[a-z0-9]]. *)
Definition is_lower_alnum (c : ascii) : bool :=
  let n := nat_of_ascii c in
  ((48 <=? n)%nat && (n <=? 57)%nat) || ((97 <=? n)%nat && (n <=? 122)%nat).

(** [s.replace(/\b\w/g, c => c.toUpperCase())]; [prev_word] tells whether
    the character before [s] is a word character. *)
Fixpoint capitalize_words (prev_word : bool) (s : string) : string :=
  match s with
  | EmptyString => EmptyString
  | String c s' =>
      String (if is_word_char c && negb prev_word then Js.upper_ascii c else c)
             (capitalize_words (is_word_char c) s')
  end.

(** [slug.replace(/_/g, ' ').replace(/\b\w/g, c => c.toUpperCase())]. *)
Definition title_of_slug (slug : string) : string :=
  capitalize_words false
    (Js.map_string (fun c => if Ascii.eqb c "_" then " "%char else c) slug).

(** [s.replace(/[^a-z0-9]+/g, '_')]; [in_run] tells whether the character
    before [s] already belongs to a replaced run. *)
Fixpoint squash_non_alnum (in_run : bool) (s : string) : string :=
  match s with
  | EmptyString => EmptyString
  | String c s' =>
      if is_lower_alnum c then String c (squash_non_alnum false s')
      else if in_run then squash_non_alnum true s'
      else String "_" (squash_non_alnum true s')
  end.

(** Truthiness of a metadata value. *)
Definition jtruthy (v : option JVal) : bool :=
  match v with
  | Some (JStr s) => negb (String.eqb s "")
  | Some (JBool b) => b
  | None => false
  end.

(** [metadata?.key]. *)
Definition meta_get (m : option Metadata) (k : string) : option JVal :=
  m ≫= (fun m => m !! k).

(** [mac || existing.metadata?.mac_address]. *)
Definition mac_or (mac : option string) (m : option Metadata) : option JVal :=
  if Js.truthy mac then jstr mac else meta_get m "mac_address".

(** [device.metadata?.vendorName || 'Roku']. *)
Definition vendor_or_roku (m : option Metadata) : JVal :=
  if jtruthy (meta_get m "vendorName")
  then default (JStr "Roku") (meta_get m "vendorName")
  else JStr "Roku".

(** The predicate of the MAC tier's [find]: a stored MAC that is truthy but
    not a string has no [toUpperCase] method. *)
Definition mac_matches (normalizedMac : string) (d : Row) : Result bool :=
  match meta_get (metadata d) "mac_address" with
  | Some (JStr deviceMac) =>
      if String.eqb deviceMac "" then Ok false
      else Ok (String.eqb (normalizeMac deviceMac) normalizedMac)
  | Some (JBool true) => Throw "TypeError: deviceMac.toUpperCase is not a function"
  | Some (JBool false) | None => Ok false
  end.

Definition roku_capabilities : list string := ["power"; "apps"; "remote"; "volume"].

(** The return value of [handleDiscoveredCandidate]. *)
Record ClaimResult := mkClaim {
  claim : bool;
  cr_deviceId : option string;
  cr_name : option string;
  cr_serialNumber : option string
}.

Definition no_claim : ClaimResult :=
  {| claim := false; cr_deviceId := None; cr_name := None; cr_serialNumber := None |}.

(** An entry of recovery's [deviceMap]. *)
Record SlugInfo := mkSlugInfo {
  slug : string;
  si_device_id : option string;
  si_name : string
}.

(** [deviceMap.has(slug)] on the insertion-ordered map. *)
Definition has_slug (deviceMap : list (string * SlugInfo)) (s : string) : bool :=
  existsb (fun e => String.eqb (fst e) s) deviceMap.

(** One iteration of recovery's enumeration loop. *)
Definition collect_slug (deviceMap : list (string * SlugInfo)) (entity : EntityRow)
    : list (string * SlugInfo) :=
  match Js.or_else (entity_id entity) (e_id entity) with
  | None => deviceMap
  | Some entityId =>
      match split_dot entityId with
      | p0 :: deviceSlug :: _ =>
          if String.eqb p0 "roku" then
            if has_slug deviceMap deviceSlug then deviceMap
            else
              let deviceId :=
                Js.or_else (Js.or_else (e_device_id entity) (e_deviceId entity))
                           (e_source_device_id entity) in
              deviceMap ++
                [(deviceSlug,
                  {| slug := deviceSlug;
                     si_device_id := deviceId;
                     si_name := Js.or_default
                                  (Js.or_else (e_name entity) (e_friendly_name entity))
                                  (title_of_slug deviceSlug) |})]
          else deviceMap
      | _ => deviceMap
      end
  end.

Definition collect_slugs (entities : list EntityRow) : list (string * SlugInfo) :=
  fold_left collect_slug entities [].

(** Recovery's name similarity test between a slug and a registry row. *)
Definition fuzzy_name_match (normalizedSlug : string) (d : RegistryRow) : bool :=
  let deviceName :=
    squash_non_alnum false
      (Js.toLowerCase (Js.or_default (Js.or_else (reg_friendly_name d) (reg_name d)) "")) in
  Js.includes normalizedSlug deviceName || Js.includes deviceName normalizedSlug.

(** The registry descriptor built by [syncDevicesToRegistry] for a device. *)
Definition sync_serial (device : DeviceRecord) : option string :=
  Js.or_else (serial_of_device_id (device_id device)) (serial_number device).

Definition normalizedId (device : DeviceRecord) : string :=
  if Js.truthy (sync_serial device)
  then "roku:" ++ Js.template (sync_serial device)
  else device_id device.

Definition sync_descriptor (device : DeviceRecord) : Descriptor :=
  {| deviceId := normalizedId device;
     d_name := name device;
     d_type := "roku";
     extensionSource := "roku-integration";
     ipAddress := ip_address device;
     macAddress := None;
     d_model := Some (Js.or_default (model device) "Unknown");
     manufacturer := vendor_or_roku (metadata device);
     firmwareVersion := software_version device;
     capabilities := roku_capabilities;
     d_metadata :=
       set_opt "power_mode" (jstr (power_mode device))
         (set_opt "serial_number"
            (jstr (Js.or_else (serial_number device) (sync_serial device)))
            (spread (metadata device))) |}.

(** ** The extension module *)

Section Extension.

Context {H : Type} `{HostApi H}.

(** The network: what [new RokuClient(ip).getDeviceInfo()] answers. *)
Variable ecp : string -> Result DeviceInfo.

(** The value of [new Date().toISOString()] at the n-th reading. *)
Variable clock : nat -> string.

(** Whether the host provides [api.globalEventBus]. *)
Variable has_bus : bool.

Local Abbreviation M := (M H).

(** [api.log(message, level)]. *)
Definition log (msg : LogMsg) (lvl : Level) : M unit :=
  fun w => (Ok tt, mkWorld (deviceStore w) (host w) (logs w ++ [(msg, lvl)])
                     (broadcasts w) (bus_events w) (register_calls w) (ticks w)).

(** [api.broadcast(event, payload)]. *)
Definition broadcast (e : Event) : M unit :=
  fun w => (Ok tt, mkWorld (deviceStore w) (host w) (logs w)
                     (broadcasts w ++ [e]) (bus_events w) (register_calls w) (ticks w)).

(** [if (api.globalEventBus) api.globalEventBus.emit(event, payload)]. *)
Definition bus_emit (e : Event) : M unit :=
  fun w =>
    if has_bus
    then (Ok tt, mkWorld (deviceStore w) (host w) (logs w)
                   (broadcasts w) (bus_events w ++ [e]) (register_calls w) (ticks w))
    else (Ok tt, w).

(** [new Date().toISOString()]. *)
Definition now : M string :=
  fun w => (Ok (clock (ticks w)),
            mkWorld (deviceStore w) (host w) (logs w)
              (broadcasts w) (bus_events w) (register_calls w) (S (ticks w))).

(** [await api.registerDevice(descriptor)]; the attempt is recorded in
    [register_calls] whatever its outcome. *)
Definition api_registerDevice (d : Descriptor) : M unit :=
  fun w =>
    let '(r, h') := registerDevice (host w) d in
    (r, mkWorld (deviceStore w) h' (logs w)
          (broadcasts w) (bus_events w) (register_calls w ++ [d]) (ticks w)).

Definition query_registry_id (id : string) : M (list RegistryRow) :=
  fun w => (registry_where_id (host w) id, w).

Definition query_registry_type (ty : string) : M (list RegistryRow) :=
  fun w => (registry_where_type (host w) ty, w).

Definition query_entity_states (pattern : string) : M (list EntityRow) :=
  fun w => (entity_states_like (host w) pattern, w).

(** [await new RokuClient(ip).getDeviceInfo()]. *)
Definition getDeviceInfo (ip : string) : M DeviceInfo := lift (ecp ip).

(** *** DeviceStore *)

(** Modelled from the spec: the host's model API behind [deviceStore]
    ([api.model('roku_devices')]) is not part of this repository.  The table
    is a list of rows in insertion order, [findAll] filters it by field
    equality, [update] patches the rows with the given primary key, and
    [create] appends a row under a fresh key.

    Access to the table; dereferencing a [null] [deviceStore] throws. *)
Definition read_table : M (list Row) :=
  fun w =>
    match deviceStore w with
    | Some t => (Ok t, w)
    | None => (Throw "TypeError: deviceStore is null", w)
    end.

Definition write_table (t : list Row) : M unit :=
  fun w => (Ok tt, mkWorld (Some t) (host w) (logs w)
                     (broadcasts w) (bus_events w) (register_calls w) (ticks w)).

(** [model.findAll({ where })]. *)
Definition findAll_where (p : Row -> bool) : M (list Row) :=
  t <- read_table ;; ret (List.filter p t).

(** [model.update(id, data)]. *)
Definition update_rows (pk : nat) (data : Patch) (t : list Row) : list Row :=
  map (fun r => if Nat.eqb (row_id r) pk
                then mkRow (row_id r) (apply_patch data r) else r) t.

Definition model_update (pk : nat) (data : Patch) : M unit :=
  t <- read_table ;; write_table (update_rows pk data t).

(** The auto-incremented primary key of the next created row. *)
Definition fresh_pk (t : list Row) : nat := S (list_max (map row_id t)).

(** [model.create(data)]. *)
Definition model_create (data : DeviceRecord) : M nat :=
  t <- read_table ;;
  write_table (t ++ [mkRow (fresh_pk t) data]) ;;;
  ret (fresh_pk t).

Definition getAllDevices : M (list Row) := read_table.

Definition getDevice (deviceId : string) : M (option Row) :=
  results <- findAll_where (fun r => String.eqb (device_id r) deviceId) ;;
  ret (head results).

Definition getDeviceByIp (ipAddress : string) : M (option Row) :=
  results <- findAll_where (fun r => String.eqb (ip_address r) ipAddress) ;;
  ret (head results).

Definition createDevice (data : DeviceRecord) : M Row :=
  id <- model_create data ;; ret (mkRow id data).

Definition updateDevice (deviceId : string) (data : Patch) : M unit :=
  existing <- getDevice deviceId ;;
  match existing with
  | Some e => model_update (row_id e) data
  | None => ret tt
  end.

Definition updateDeviceStatus (deviceId : string) (data : Patch) : M unit :=
  existing <- getDevice deviceId ;;
  match existing with
  | Some e =>
      let data' :=
        match p_metadata data, metadata e with
        | Some dm, Some em =>
            mkPatch (p_ip_address data) (p_status data) (p_last_seen_at data)
                    (Some (dm ∪ em))
        | _, _ => data
        end in
      model_update (row_id e) data'
  | None => ret tt
  end.

(** *** Identity resolver *)

Definition findExistingRoku (serialNumber mac : option string) (ip : string)
    : M (option Row) :=
  allDevices <- getAllDevices ;;
  match (if Js.truthy serialNumber
         then find (fun d : Row => Js.strict_eq (serial_number d) serialNumber) allDevices
         else None) with
  | Some serialMatch =>
      log (LogMatchedSerial serialNumber) debug ;;; ret (Some serialMatch)
  | None =>
      macMatch <- (if Js.truthy mac
                   then lift (find_throwing
                                (mac_matches (normalizeMac (Js.template mac)))
                                allDevices)
                   else ret None) ;;
      match macMatch with
      | Some d => log (LogMatchedMac mac) debug ;;; ret (Some d)
      | None =>
          ipMatch <- getDeviceByIp ip ;;
          match ipMatch with
          | Some d => log (LogMatchedIp ip) debug ;;; ret (Some d)
          | None => ret None
          end
      end
  end.

(** The record created for a candidate no known record matches. *)
Definition new_device (inf : DeviceInfo) (mac : option string) (ip seen : string)
    : DeviceRecord :=
  {| device_id :=
       "roku:" ++ Js.or_default (serialNumber inf) (dots_to_dashes ip);
     ip_address := ip;
     name := Js.or_default (friendlyDeviceName inf)
               ("Roku " ++ Js.template (modelName inf));
     model := modelName inf;
     serial_number := serialNumber inf;
     software_version := softwareVersion inf;
     power_mode := powerMode inf;
     status := "online";
     metadata :=
       Some (set_opt "mac_address" (jstr mac)
              (<["isStick" := JBool (isStick inf)]>
                (<["isTv" := JBool (isTv inf)]>
                  (set_opt "vendorName" (jstr (vendorName inf))
                    (set_opt "modelNumber" (jstr (modelNumber inf)) ∅)))));
     last_seen_at := Some seen |}.

(** The update written to the store when a known device shows up at a
    new address; [seen] and [changed] are the two clock readings. *)
Definition moved_patch (existing : Row) (mac : option string)
    (ip seen changed : string) : Patch :=
  {| p_ip_address := Some ip;
     p_status := Some "online";
     p_last_seen_at := Some seen;
     p_metadata :=
       Some (<["ip_changed_at" := JStr changed]>
              (<["previous_ip" := JStr (ip_address existing)]>
                (set_opt "mac_address" (mac_or mac (metadata existing))
                   (spread (metadata existing))))) |}.

(** The registry descriptor sent for a known device at a new address. *)
Definition moved_descriptor (existing : Row) (mac : option string) (ip : string)
    : Descriptor :=
  {| deviceId := device_id existing;
     d_name := name existing;
     d_type := "roku";
     extensionSource := "roku-integration";
     ipAddress := ip;
     macAddress := None;
     d_model := model existing;
     manufacturer := JStr "Roku";
     firmwareVersion := software_version existing;
     capabilities := roku_capabilities;
     d_metadata :=
       set_opt "mac_address" (mac_or mac (metadata existing))
         (spread (metadata existing)) |}.

(** The update written when a known device is seen at its known address. *)
Definition seen_patch (seen : string) : Patch :=
  {| p_ip_address := None;
     p_status := Some "online";
     p_last_seen_at := Some seen;
     p_metadata := None |}.

(** The [if (existing) { ... }] branch of [handleDiscoveredCandidate], up
    to its [return]. *)
Definition refresh_existing (existing : Row) (mac : option string) (ip : string)
    : M unit :=
  let oldIp := ip_address existing in
  let ipChanged := negb (String.eqb oldIp ip) in
  if ipChanged then
    log (LogRokuIpChanged (name existing) oldIp ip) debug ;;;
    seen <- now ;;
    changed <- now ;;
    updateDevice (device_id existing) (moved_patch existing mac ip seen changed) ;;;
    api_registerDevice (moved_descriptor existing mac ip) ;;;
    broadcast (IpChanged (device_id existing) (name existing) oldIp ip)
  else
    seen <- now ;;
    updateDeviceStatus (device_id existing) (seen_patch seen).

Definition claim_existing (existing : Row) : ClaimResult :=
  {| claim := true;
     cr_deviceId := Some (device_id existing);
     cr_name := Some (name existing);
     cr_serialNumber := serial_number existing |}.

(** The registry descriptor sent for a newly created device. *)
Definition new_descriptor (device : DeviceRecord) (mac : option string) (ip : string)
    : Descriptor :=
  {| deviceId := device_id device;
     d_name := name device;
     d_type := "roku";
     extensionSource := "roku-integration";
     ipAddress := ip;
     macAddress := mac;
     d_model := model device;
     manufacturer := JStr "Roku";
     firmwareVersion := software_version device;
     capabilities := roku_capabilities;
     d_metadata := spread (metadata device) |}.

(** The rest of [handleDiscoveredCandidate] when no known record matches. *)
Definition register_new (inf : DeviceInfo) (mac : option string) (ip : string)
    : M ClaimResult :=
  seen <- now ;;
  let device := new_device inf mac ip seen in
  createDevice device ;;;
  api_registerDevice (new_descriptor device mac ip) ;;;
  log (LogRegisteredNew (name device) ip) debug ;;;
  broadcast (DeviceAdded device) ;;;
  bus_emit (DeviceAdded device) ;;;
  ret {| claim := true;
         cr_deviceId := Some (device_id device);
         cr_name := Some (name device);
         cr_serialNumber := serialNumber inf |}.

Definition handleDiscoveredCandidate (candidate : Candidate) : M ClaimResult :=
  let ip := Js.or_else (c_ip candidate) (c_ip_address candidate) in
  let mac := Js.or_else (c_mac candidate) (c_mac_address candidate) in
  log (LogChecking ip) debug ;;;
  try_catch
    (match ip with
     | None => throw "fetch failed"
     | Some ip =>
         inf <- getDeviceInfo ip ;;
         log (LogDeviceInfo ip (serialNumber inf) (vendorName inf)) debug ;;;
         let isRoku := Js.truthy (serialNumber inf) || true in
         if negb isRoku then log (LogNotRoku ip) debug ;;; ret no_claim
         else
           log (LogConfirmed ip (serialNumber inf)) debug ;;;
           existing <- findExistingRoku (serialNumber inf) mac ip ;;
           match existing with
           | Some existing =>
               refresh_existing existing mac ip ;;;
               ret (claim_existing existing)
           | None => register_new inf mac ip
           end
     end)
    (fun e => log (LogVerifyFailed ip e) debug ;;; ret no_claim).

(** *** Recovery scanner *)

(** The record recovery builds from a live [getDeviceInfo] answer. *)
Definition recovered_device (deviceInfo : SlugInfo) (ipAddress : string)
    (inf : DeviceInfo) (seen : string) : DeviceRecord :=
  {| device_id := Js.or_default (si_device_id deviceInfo)
                    ("roku:" ++ Js.template (serialNumber inf));
     ip_address := ipAddress;
     name := Js.or_default (friendlyDeviceName inf) (si_name deviceInfo);
     model := modelName inf;
     serial_number := serialNumber inf;
     software_version := softwareVersion inf;
     power_mode := powerMode inf;
     status := "online";
     metadata :=
       Some (<["isStick" := JBool (isStick inf)]>
              (<["isTv" := JBool (isTv inf)]>
                (set_opt "vendorName" (jstr (vendorName inf))
                  (set_opt "modelNumber" (jstr (modelNumber inf)) ∅))));
     last_seen_at := Some seen |}.

(** The address recovery infers for a slug: the registry row with the
    associated device id, else the first [roku] registry row whose name
    resembles the slug.  A failing registry query leaves no address. *)
Definition recover_ip (deviceInfo : SlugInfo) : M (option string) :=
  try_catch
    (byId <- (if Js.truthy (si_device_id deviceInfo) then
                regResult <- query_registry_id (Js.template (si_device_id deviceInfo)) ;;
                ret (match regResult with
                     | foundDevice :: _ => reg_ip_address foundDevice
                     | [] => None
                     end)
              else ret None) ;;
     if negb (Js.truthy byId) then
       rokuDevices <- query_registry_type "roku" ;;
       let normalizedSlug := Js.toLowerCase (slug deviceInfo) in
       ret (match find (fuzzy_name_match normalizedSlug) rokuDevices with
            | Some d => reg_ip_address d
            | None => byId
            end)
     else ret byId)
    (fun e => log (LogRegistryQueryFailed e) debug ;;; ret None).

(** The body of recovery's loop over [deviceMap]; [recoveredDevices] is the
    array built so far. *)
Definition recover_one (recoveredDevices : list DeviceRecord)
    (deviceInfo : SlugInfo) : M (list DeviceRecord) :=
  ipAddress <- recover_ip deviceInfo ;;
  if negb (Js.truthy ipAddress) then
    log (LogNoIp (si_name deviceInfo)) debug ;;; ret recoveredDevices
  else
    let ipAddress := Js.template ipAddress in
    try_catch
      (inf <- getDeviceInfo ipAddress ;;
       seen <- now ;;
       let fullDevice := recovered_device deviceInfo ipAddress inf seen in
       createDevice fullDevice ;;;
       log (LogRecoveredDevice (name fullDevice) ipAddress) debug ;;;
       ret (recoveredDevices ++ [fullDevice])%list)
      (fun e => log (LogUnreachable ipAddress e) debug ;;; ret recoveredDevices).

Fixpoint recover_each (deviceMap : list (string * SlugInfo))
    (recoveredDevices : list DeviceRecord) : M (list DeviceRecord) :=
  match deviceMap with
  | [] => ret recoveredDevices
  | (_, deviceInfo) :: rest =>
      recoveredDevices' <- recover_one recoveredDevices deviceInfo ;;
      recover_each rest recoveredDevices'
  end.

Definition recoverDevicesFromEntityStates : M (list DeviceRecord) :=
  try_catch
    (entities <- query_entity_states "roku.%" ;;
     if (length entities =? 0)%nat then
       log LogNoEntityStates debug ;;; ret []
     else
       let deviceMap := collect_slugs entities in
       log (LogFoundUnique (length deviceMap)) debug ;;;
       recover_each deviceMap [])
    (fun e => log (LogRecoveryError e) warn ;;; ret []).

(** *** Registry synchronizer *)

(** The registry row already stored for a device, under the canonical id
    or the legacy dashed one; a failing query finds none. *)
Definition find_registered (serialNumber : option string) : M (option RegistryRow) :=
  try_catch
    (result1 <- query_registry_id ("roku:" ++ Js.template serialNumber) ;;
     match result1 with
     | existingDevice :: _ => ret (Some existingDevice)
     | [] =>
         result2 <- query_registry_id ("roku-" ++ Js.template serialNumber) ;;
         match result2 with
         | existingDevice :: _ =>
             log (LogLegacyId serialNumber) debug ;;; ret (Some existingDevice)
         | [] => ret None
         end
     end)
    (fun _ => ret None).

(** The body of the synchronizer's loop. *)
Definition sync_one (device : DeviceRecord) : M unit :=
  try_catch
    (existingDevice <- find_registered (sync_serial device) ;;
     (match existingDevice with
      | Some e =>
          if negb (Js.strict_eq (reg_ip_address e) (Some (ip_address device)))
          then log (LogSyncIpChanged (name device) (reg_ip_address e)
                      (ip_address device)) debug
          else ret tt
      | None => ret tt
      end) ;;;
     api_registerDevice (sync_descriptor device) ;;;
     log (LogSynced (name device) (normalizedId device)) debug)
    (fun e => log (LogSyncError (name device) e) warn).

Definition syncDevicesToRegistry : M unit :=
  fun w =>
    match deviceStore w with
    | None => log LogStoreNotInitialized warn w
    | Some _ =>
        (rows <- getAllDevices ;;
         log (LogFoundLocal (length rows)) debug ;;;
         localDevices <-
           (if (length rows =? 0)%nat then
              log LogRecovering debug ;;;
              recovered <- recoverDevicesFromEntityStates ;;
              (if (0 <? length recovered)%nat
               then log (LogRecoveredCount (length recovered)) debug
               else ret tt) ;;;
              ret recovered
            else ret (map row_data rows)) ;;
         if (length localDevices =? 0)%nat then log LogNothingToSync debug
         else for_each localDevices sync_one) w
    end.

End Extension.

(** ** A host with a keyed registry *)

Module KeyedHost.

(** Modelled from the spec: the host's stores are not part of this
    repository.  The registry holds one record per device id, and the
    entity-state store is a list of rows. *)
Record t := mk {
  registry : gmap string RegistryRow;
  entity_states : list EntityRow
}.

(** Modelled from the spec: the SQL [LIKE] operator of the host's query
    builder, with [%] for any run of characters and [_] for any single
    character. *)
Fixpoint like (pattern s : string) : bool :=
  match pattern with
  | EmptyString => String.eqb s ""
  | String c pattern' =>
      if Ascii.eqb c "%" then
        (fix any (s : string) : bool :=
           like pattern' s ||
           match s with
           | EmptyString => false
           | String _ s' => any s'
           end) s
      else
        match s with
        | EmptyString => false
        | String d s' => (Ascii.eqb c "_" || Ascii.eqb c d) && like pattern' s'
        end
  end.

(** Modelled from the spec: the registry record an upsert stores.  The
    descriptor's fields replace the stored ones; the fields the host owns
    ([friendly_name], [online], [consecutive_failures], [discovered_at])
    are kept from the record already stored under the id, if any. *)
Definition upsert_row (d : Descriptor) (old : option RegistryRow) : RegistryRow :=
  {| reg_name := Some (d_name d);
     reg_friendly_name := old ≫= reg_friendly_name;
     reg_device_type := d_type d;
     reg_ip_address := Some (ipAddress d);
     reg_model := d_model d;
     reg_manufacturer := Some (manufacturer d);
     reg_firmware_version := firmwareVersion d;
     reg_capabilities := capabilities d;
     reg_metadata := d_metadata d;
     reg_online := from_option reg_online false old;
     reg_consecutive_failures := from_option reg_consecutive_failures 0 old;
     reg_discovered_at := old ≫= reg_discovered_at |}.

(** Modelled from the spec: [api.registerDevice] upserts the registry
    record keyed by the descriptor's device id. *)
Definition upsert (h : t) (d : Descriptor) : t :=
  {| registry := <[deviceId d := upsert_row d (registry h !! deviceId d)]> (registry h);
     entity_states := entity_states h |}.

Definition rows_with_id (h : t) (id : string) : list RegistryRow :=
  option_list (registry h !! id).

Definition rows_with_type (h : t) (ty : string) : list RegistryRow :=
  List.filter (fun r => String.eqb (reg_device_type r) ty)
              (map snd (map_to_list (registry h))).

Definition entities_like (h : t) (pattern : string) : list EntityRow :=
  List.filter (fun e => match entity_id e with
                        | Some id => like pattern id
                        | None => false
                        end)
              (entity_states h).

#[global] Instance api : HostApi t := {
  registry_where_id h id := Ok (rows_with_id h id);
  registry_where_type h ty := Ok (rows_with_type h ty);
  entity_states_like h pattern := Ok (entities_like h pattern);
  registerDevice h d := (Ok tt, upsert h d)
}.

End KeyedHost.

(** ** Comparing MAC addresses, as the specification words it *)







Definition all_ascii : list ascii := map ascii_of_nat (seq 0 256).

(** ** The entity id the poll adapter synthesizes *)

Definition strip_leading_underscore (s : string) : string :=
  match s with
  | String c s' => if Ascii.eqb c "_" then s' else s
  | EmptyString => s
  end.

Fixpoint strip_trailing_underscore (s : string) : string :=
  match s with
  | EmptyString => EmptyString
  | String c EmptyString => if Ascii.eqb c "_" then EmptyString else s
  | String c s' => String c (strip_trailing_underscore s')
  end.

(** [deviceName.toLowerCase().replace(/[^a-z0-9]+/g, '_').replace(/^_|_$/g, '')]. *)
Definition entity_slug (deviceName : string) : string :=
  strip_trailing_underscore
    (strip_leading_underscore (squash_non_alnum false (Js.toLowerCase deviceName))).

(** The [entityId] of the entity [pollDevice] returns. *)
Definition poll_entity_id (deviceName : string) : string :=
  "media_player." ++ entity_slug deviceName.

(** ** A host whose registry is unavailable for a while *)

Module OutageHost.

(** A host with an empty registry that rejects the next [failures_left]
    upserts and accepts the following ones; it serves as an example of a
    failing host. *)
Record t := mk { failures_left : nat }.

#[global] Instance api : HostApi t := {
  registry_where_id h id := Ok [];
  registry_where_type h ty := Ok [];
  entity_states_like h pattern := Ok [];
  registerDevice h d :=
    match failures_left h with
    | O => (Ok tt, h)
    | S n => (Throw "registry unavailable", mk n)
    end
}.

End OutageHost.

(** ** Vocabulary of the properties *)


(** The predicate of the serial tier's [find]. *)
Definition has_serial (s : string) (d : Row) : bool :=
  Js.strict_eq (serial_number d) (Some s).

(** [updated] is [existing] after a move to [ip]: new address, refreshed
    status and [last_seen_at], the old address and the time of the change
    noted in the metadata, everything else as before. *)
Definition moved_record (existing : DeviceRecord) (ip seen changed : string)
    (updated : DeviceRecord) : Prop :=
  ip_address updated = ip
  /\ status updated = "online"
  /\ last_seen_at updated = Some seen
  /\ meta_get (metadata updated) "previous_ip" = Some (JStr (ip_address existing))
  /\ meta_get (metadata updated) "ip_changed_at" = Some (JStr changed)
  /\ (forall k, k <> "mac_address" -> k <> "previous_ip" -> k <> "ip_changed_at" ->
        meta_get (metadata updated) k = meta_get (metadata existing) k)
  /\ device_id updated = device_id existing
  /\ name updated = name existing
  /\ model updated = model existing
  /\ serial_number updated = serial_number existing
  /\ software_version updated = software_version existing
  /\ power_mode updated = power_mode existing.

(** [updated] is [existing] with only [status] and [last_seen_at]
    refreshed. *)
Definition refreshed_record (existing : DeviceRecord) (seen : string)
    (updated : DeviceRecord) : Prop :=
  status updated = "online"
  /\ last_seen_at updated = Some seen
  /\ ip_address updated = ip_address existing
  /\ metadata updated = metadata existing
  /\ device_id updated = device_id existing
  /\ name updated = name existing
  /\ model updated = model existing
  /\ serial_number updated = serial_number existing
  /\ software_version updated = software_version existing
  /\ power_mode updated = power_mode existing.

(** A record backed by a live answer of the device at its address. *)
Definition live_verified (ecp : string -> Result DeviceInfo) (d : DeviceRecord) : Prop :=
  exists inf,
    ecp (ip_address d) = Ok inf
    /\ serial_number d = serialNumber inf
    /\ model d = modelName inf
    /\ software_version d = softwareVersion inf.

(** The per-device outcome a log entry reports, if any: the device's name,
    and whether it was synced. *)
Definition report_of (entry : LogMsg * Level) : option (string * bool) :=
  match entry with
  | (LogSynced name _, _) => Some (name, true)
  | (LogSyncError name _, _) => Some (name, false)
  | _ => None
  end.

(** The per-device outcomes a log reports, in order. *)
Definition sync_reports (lg : list (LogMsg * Level)) : list (string * bool) :=
  omap report_of lg.

Section Vocabulary.

Context {H : Type} `{HostApi H}.
Variable ecp : string -> Result DeviceInfo.
Variable clock : nat -> string.

(** What one iteration of recovery's loop does: it returns the array,
    possibly extended by one record, creates exactly the rows it adds to the
    array, and leaves the host alone. *)
Definition recovery_step (w w' : World H) (added : list DeviceRecord) : Prop :=
  exists new_rows,
    map row_data new_rows = added
    /\ deviceStore w' = (fun tbl => tbl ++ new_rows)%list <$> deviceStore w
    /\ host w' = host w
    /\ broadcasts w' = broadcasts w
    /\ register_calls w' = register_calls w
    /\ Forall (live_verified ecp) added.

(** How many records an iteration adds, given the inferred address and
    the store. *)
Definition recover_count (ipAddress : Result (option string))
    (st : option (list Row)) : nat :=
  match ipAddress, st with
  | Ok (Some ip), Some _ =>
      if Js.truthy (Some ip) then match ecp ip with Ok _ => 1 | Throw _ => 0 end else 0
  | _, _ => 0
  end.

(** Two worlds offer recovery the same setting when they have the same
    host and agree on whether the store is initialised. *)
Definition same_setting (w w' : World H) : Prop :=
  host w = host w' /\ (deviceStore w = None <-> deviceStore w' = None).

(** The host after the upserts of a list of devices, whatever their
    outcomes. *)
Definition host_after_sync (devices : list DeviceRecord) (h : H) : H :=
  fold_left (fun h device => snd (registerDevice h (sync_descriptor device))) devices h.

(** The number of devices recovery finds in a setting. *)
Definition recovered_count (w : World H) (n : nat) : Prop :=
  exists w0 r w1,
    same_setting w0 w
    /\ recoverDevicesFromEntityStates ecp clock w0 = (Ok r, w1)
    /\ length r = n.

End Vocabulary.

(** The descriptor of the last upsert of [ds] under the id [k]. *)
Fixpoint last_upsert (k : string) (ds : list Descriptor) : option Descriptor :=
  match ds with
  | [] => None
  | d :: ds' =>
      match last_upsert k ds' with
      | Some d' => Some d'
      | None => if String.eqb (deviceId d) k then Some d else None
      end
  end.

(** The specification's reading of a silent second run: it changes
    neither the registry nor the list of upserts issued nor the events
    broadcast. *)
Definition resync_is_silent (ecp : string -> Result DeviceInfo) (clock : nat -> string)
    (w : World KeyedHost.t) : Prop :=
  let w1 := snd (syncDevicesToRegistry ecp clock w) in
  let w2 := snd (syncDevicesToRegistry ecp clock w1) in
  host w2 = host w1
  /\ register_calls w2 = register_calls w1
  /\ broadcasts w2 = broadcasts w1.

(** The specification's reading of a move of [existing] to [ip]: in the
    table of [w'] the row of the matched record is at the new address, and
    the state [w'] has one broadcast more than [w], the IP-changed event. *)
Definition moved_as_claimed {H : Type} (w w' : World H) (existing : Row)
    (ip : string) : Prop :=
  (exists tbl' updated,
      deviceStore w' = Some tbl'
      /\ In (mkRow (row_id existing) updated) tbl'
      /\ ip_address updated = ip)
  /\ broadcasts w'
     = (broadcasts w ++ [IpChanged (device_id existing) (name existing)
                          (ip_address existing) ip])%list.

(** ** More of the extension module *)

(** *** The main state of the polled entity *)

(** [activeApp?.name]. *)
Definition active_app_name (activeApp : option ActiveApp) : option string :=
  activeApp ≫= app_name.

(** The [mainState] computed by [pollDevice]. *)
Definition main_state (powerState : string) (activeApp : option ActiveApp) : string :=
  if String.eqb powerState "off" || String.eqb powerState "standby" then "off"
  else if is_screensaver activeApp then "idle"
  else if Js.truthy (active_app_name activeApp)
          && negb (Js.strict_eq (active_app_name activeApp) (Some "Home"))
  then "playing"
  else "on".

(** The device object the polling manager hands to the poll adapter. *)
Record PollTarget := mkPollTarget {
  pt_id : option string;
  pt_ip_address : option string;
  pt_friendly_name : option string;
  pt_name : option string
}.

(** The entity state [pollDevice] returns, with its attributes. *)
Record EntityState := mkEntityState {
  es_entityId : string;
  es_state : string;
  at_power_mode : option string;
  at_power_state : string;
  at_active_app : string;
  at_active_app_id : option string;
  at_app_type : option string;
  at_app_version : option string;
  at_is_screensaver : bool;
  at_screensaver_name : option string;
  at_device_type : string;
  at_friendly_name : option string
}.

(** [value || null] for an optional string: a falsy value becomes [null]. *)
Definition or_null (o : option string) : option string :=
  if Js.truthy o then o else None.

(** The entity built from the two answers of a poll. *)
Definition poll_entity (device : PollTarget) (inf : DeviceInfo)
    (activeApp : option ActiveApp) : EntityState :=
  let powerState := interpretPowerState (powerMode inf) activeApp in
  let deviceName :=
    Js.or_default (Js.or_else (pt_friendly_name device) (pt_name device))
                  (Js.template (pt_id device)) in
  {| es_entityId := "media_player." ++ entity_slug deviceName;
     es_state := main_state powerState activeApp;
     at_power_mode := powerMode inf;
     at_power_state := powerState;
     at_active_app := Js.or_default (active_app_name activeApp) "Home";
     at_active_app_id := or_null (activeApp ≫= app_id);
     at_app_type := or_null (activeApp ≫= app_type);
     at_app_version := or_null (activeApp ≫= app_version);
     at_is_screensaver := is_screensaver activeApp;
     at_screensaver_name :=
       if is_screensaver activeApp then active_app_name activeApp else None;
     at_device_type := "roku";
     at_friendly_name := pt_friendly_name device |}.

(** *** Looking a device up in the registry *)

(** A [device_registry] row as [findDevice] reads it. *)
Record RegistryHit := mkRegistryHit {
  hit_id : option string;
  hit_device_id : option string;
  hit_ip_address : option string;
  hit_friendly_name : option string;
  hit_name : option string
}.

(** The host's query builder on [device_registry], filtering one column
    by equality. *)
Class RegistrySearch (H : Type) := {
  registry_where : H -> string -> string -> Result (list RegistryHit)
}.

(** What [findDevice] returns: the local row, or the view it builds of a
    registry row. *)
Inductive FoundDevice :=
  | FoundLocal (device : Row)
  | FoundInRegistry (id : option string) (ip : option string) (label : string).

(** [{ device_id: d.id || d.device_id, ip_address: d.ip_address,
      name: d.friendly_name || d.name || 'Unknown Roku' }]. *)
Definition registry_view (d : RegistryHit) : FoundDevice :=
  FoundInRegistry (Js.or_else (hit_id d) (hit_device_id d)) (hit_ip_address d)
    (Js.or_default (Js.or_else (hit_friendly_name d) (hit_name d)) "Unknown Roku").

(** [deviceId.match(/^roku:(.+)$/i)?.[1]]. *)
Definition serial_of_canonical_id (id : string) : option string :=
  match id with
  | String r (String o (String k (String u (String sep rest)))) =>
      if String.eqb (Js.toLowerCase (String r (String o (String k (String u ""))))) "roku"
         && Ascii.eqb sep ":"
         && negb (String.eqb rest "")
         && no_line_terminator rest
      then Some rest else None
  | _ => None
  end.

(** The result object of a route handler. *)
Record RouteResult := mkRouteResult {
  success : bool;
  r_error : option string;
  r_status : option nat;
  r_device : option Row
}.

Definition route_failure (message : string) (code : nat) : RouteResult :=
  {| success := false; r_error := Some message; r_status := Some code;
     r_device := None |}.

(** [!info.vendorName?.toLowerCase().includes('roku')], negated. *)
Definition vendor_is_roku (inf : DeviceInfo) : bool :=
  match vendorName inf with
  | Some v => Js.includes "roku" (Js.toLowerCase v)
  | None => false
  end.

Section ExtensionRoutes.

Context {H : Type} `{HostApi H} `{RegistrySearch H}.
Variable ecp : string -> Result DeviceInfo.

(** The network: what [new RokuClient(ip).getActiveApp()] answers. *)
Variable ecp_active_app : string -> Result (option ActiveApp).
Variable clock : nat -> string.
Variable has_bus : bool.

(** [model.delete(id)]: see [read_table] for the model of the table. *)
Definition delete_rows (pk : nat) (t : list Row) : list Row :=
  List.filter (fun r => negb (Nat.eqb (row_id r) pk)) t.

Definition model_delete (pk : nat) : M H unit :=
  t <- read_table ;; write_table (delete_rows pk t).

Definition deleteDevice (deviceId : string) : M H unit :=
  existing <- getDevice deviceId ;;
  match existing with
  | Some e => model_delete (row_id e)
  | None => ret tt
  end.

(** [await api.queryBuilder('device_registry').where(column, '=', value).get()]. *)
Definition query_registry (column value : string) : M H (list RegistryHit) :=
  fun w => (registry_where (host w) column value, w).

Definition findDevice (deviceId : string) : M H (option FoundDevice) :=
  device <- getDevice deviceId ;;
  match device with
  | Some d => ret (Some (FoundLocal d))
  | None =>
      try_catch
        (result <- query_registry "id" deviceId ;;
         match result with
         | d :: _ => ret (Some (registry_view d))
         | [] =>
             result <- query_registry "device_id" deviceId ;;
             match result with
             | d :: _ => ret (Some (registry_view d))
             | [] =>
                 match serial_of_canonical_id deviceId with
                 | Some serial =>
                     result <- query_registry "serial_number" serial ;;
                     match result with
                     | d :: _ => ret (Some (registry_view d))
                     | [] => ret None
                     end
                 | None => ret None
                 end
             end
         end)
        (fun _ => ret None)
  end.

(** The poll adapter's [pollDevice(device, client)]; [client] is the
    address of the client passed in, if one is. *)
Definition pollDevice (device : option PollTarget) (client : option string)
    : M H (list EntityState) :=
  match device with
  | None => throw "Invalid device object - missing id"
  | Some device =>
      if negb (Js.truthy (pt_id device))
      then throw "Invalid device object - missing id"
      else if negb (Js.truthy (pt_ip_address device))
      then throw ("Device " ++ Js.template (pt_id device) ++ " missing ip_address")
      else
        let deviceIp := Js.template (pt_ip_address device) in
        let client := default deviceIp client in
        inf <- getDeviceInfo ecp client ;;
        activeApp <- lift (ecp_active_app client) ;;
        ret [poll_entity device inf activeApp]
  end.

(** The handler of [POST /devices/add]; [ip_address] is [body.ip_address].
    The route sends a device-info request of its own before it hands the
    address to [handleDiscoveredCandidate], which sends another: [probe] is
    what the network answers to the route's request, [ecp] what it answers
    to the handler's. *)
Definition route_add_device (probe : string -> Result DeviceInfo)
    (ip_address : option string) : M H RouteResult :=
  if negb (Js.truthy ip_address) then ret (route_failure "IP address required" 400)
  else
    let ip_address := Js.template ip_address in
    existing <- getDeviceByIp ip_address ;;
    match existing with
    | Some _ => ret (route_failure "Device already registered" 409)
    | None =>
        try_catch
          (inf <- getDeviceInfo probe ip_address ;;
           if negb (vendor_is_roku inf)
           then ret (route_failure "Device is not a Roku" 400)
           else
             handleDiscoveredCandidate ecp clock has_bus
               {| c_ip := None; c_ip_address := Some ip_address;
                  c_mac := None; c_mac_address := None |} ;;;
             device <- getDeviceByIp ip_address ;;
             ret {| success := true; r_error := None; r_status := None;
                    r_device := device |})
          (fun e => ret (route_failure ("Cannot reach device: " ++ e) 400))
    end.

End ExtensionRoutes.

(** *** The ECP client *)

Module Client.

(** A computation of one [RokuClient]: it may throw, and it records the
    paths of the POST requests it sends. *)
Definition C (A : Type) : Type := list string -> Result A * list string.

(** The [reason] reported when the apps query is refused with a 403. *)
Definition restricted_reason : string :=
  "Mobile control restricted - enable " ++ String "034" "Permissive"
  ++ String "034" " mode in Roku settings".

(** The mobile-control access report of [checkMobileControlAccess]. *)
Record Access := mkAccess {
  level : string;
  canControl : bool;
  canQueryApps : bool;
  reason : option string
}.

Section Device.

(** The device behind the client: its answers to [GET /query/device-info]
    and [GET /query/apps], and to a POST of a given path. *)
Variable device_info : Result DeviceInfo.
Variable apps : Result (list ActiveApp).
Variable accepts : string -> Result unit.

(** [await this._post(path)]. *)
Definition post (path : string) : C unit :=
  fun sent => (accepts path, (sent ++ [path])%list).

(** [keypress(key)]; the value is the [key] of the returned object. *)
Definition keypress (key : string) : C string :=
  fun sent =>
    match post ("/keypress/" ++ key) sent with
    | (Ok _, sent') => (Ok key, sent')
    | (Throw e, sent') => (Throw e, sent')
    end.

(** [powerOn()]: [PowerOn], and [Home] if that is refused. *)
Definition powerOn : C bool :=
  fun sent =>
    match keypress "PowerOn" sent with
    | (Ok _, sent') => (Ok true, sent')
    | (Throw _, sent') =>
        match keypress "Home" sent' with
        | (Ok _, sent'') => (Ok true, sent'')
        | (Throw e, sent'') => (Throw e, sent'')
        end
    end.

Definition powerOff : C bool :=
  fun sent =>
    match keypress "PowerOff" sent with
    | (Ok _, sent') => (Ok true, sent')
    | (Throw e, sent') => (Throw e, sent')
    end.

(** [isReachable()]. *)
Definition isReachable : C bool :=
  fun sent =>
    match device_info with
    | Ok _ => (Ok true, sent)
    | Throw _ => (Ok false, sent)
    end.

Definition checkMobileControlAccess : C Access :=
  fun sent =>
    match device_info with
    | Ok _ =>
        match apps with
        | Ok _ =>
            (Ok {| level := "full"; canControl := true; canQueryApps := true;
                   reason := None |}, sent)
        | Throw appsErr =>
            if Js.includes "403" appsErr
            then (Ok {| level := "limited"; canControl := false;
                        canQueryApps := false;
                        reason := Some restricted_reason |},
                  sent)
            else (Ok {| level := "limited"; canControl := false;
                        canQueryApps := false; reason := None |}, sent)
        end
    | Throw _ =>
        (Ok {| level := "disabled"; canControl := false; canQueryApps := false;
               reason := Some "Device not responding to ECP" |}, sent)
    end.

End Device.

End Client.

(** *** Vocabulary of the further properties *)

(** The raw power mode is one of the modes in which the display is on:
    [headless], [poweron] or [power on], in any case. *)
Definition awake_mode (rawPowerMode : option string) : bool :=
  let mode := Js.toLowerCase (Js.or_default rawPowerMode "") in
  String.eqb mode "headless" || String.eqb mode "poweron"
  || String.eqb mode "power on".

(** Every character of [s] satisfies [p]. *)
Fixpoint all_chars (p : ascii -> bool) (s : string) : bool :=
  match s with
  | EmptyString => true
  | String c s' => p c && all_chars p s'
  end.

(** [s.endsWith('_')]. *)
Fixpoint ends_with_underscore (s : string) : bool :=
  match s with
  | EmptyString => false
  | String c EmptyString => Ascii.eqb c "_"
  | String _ s' => ends_with_underscore s'
  end.

(** A slug: lowercase letters, digits and underscores only, with no
    underscore at either end and no two underscores in a row. *)
Definition is_slug (s : string) : bool :=
  all_chars (fun c => is_lower_alnum c || Ascii.eqb c "_") s
  && negb (Js.startsWith "_" s)
  && negb (ends_with_underscore s)
  && negb (Js.includes "__" s).

(** The output of [squash_non_alnum]: slug characters with no two
    underscores in a row; [after_underscore] tells whether the character
    before [s] is an underscore. *)
Fixpoint well_squashed (after_underscore : bool) (s : string) : bool :=
  match s with
  | EmptyString => true
  | String c s' =>
      if Ascii.eqb c "_" then negb after_underscore && well_squashed true s'
      else is_lower_alnum c && well_squashed false s'
  end.

(** A serial number a device id can carry: not empty and on one line. *)
Definition is_serial (s : string) : bool :=
  negb (String.eqb s "") && no_line_terminator s.

(** An ASCII string: JavaScript's case mappings and line terminators are
    those of the embedding on such strings. *)
Definition is_ascii_char (c : ascii) : bool := (nat_of_ascii c <? 128)%nat.

Definition is_ascii (s : string) : bool := all_chars is_ascii_char s.

(** The record [d] under another device id. *)
Definition with_device_id (id : string) (d : DeviceRecord) : DeviceRecord :=
  {| device_id := id; ip_address := ip_address d; name := name d;
     model := model d; serial_number := serial_number d;
     software_version := software_version d; power_mode := power_mode d;
     status := status d; metadata := metadata d;
     last_seen_at := last_seen_at d |}.

(** ** Sample devices and worlds *)

Module Samples.

Definition clock (n : nat) : string :=
  if (n =? 0)%nat then "2024-05-01T10:00:00.000Z" else "2024-05-01T10:00:00.001Z".

Definition den_info : DeviceInfo :=
  {| serialNumber := Some "X1"; vendorName := Some "Roku"; modelName := Some "Ultra";
     modelNumber := Some "4800X"; friendlyDeviceName := Some "Den";
     softwareVersion := Some "12.5.0"; powerMode := Some "PowerOn";
     isTv := false; isStick := false |}.

(** The network in which only the device at 192.168.1.77 answers. *)
Definition ecp (ip : string) : Result DeviceInfo :=
  if String.eqb ip "192.168.1.77" then Ok den_info else Throw "Request timeout".

Definition den : DeviceRecord :=
  {| device_id := "roku:X1"; ip_address := "192.168.1.50"; name := "Den";
     model := Some "Ultra"; serial_number := Some "X1";
     software_version := Some "12.5.0"; power_mode := Some "PowerOn";
     status := "online";
     metadata := Some {[ "mac_address" := JStr "AA:BB:CC:00:11:22" ]};
     last_seen_at := None |}.

Definition loft : DeviceRecord :=
  {| device_id := "roku:Y2"; ip_address := "192.168.1.77"; name := "Loft";
     model := Some "Express"; serial_number := Some "Y2";
     software_version := Some "12.5.0"; power_mode := Some "Ready";
     status := "online";
     metadata := Some {[ "mac_address" := JStr "10:20:30:40:50:60" ]};
     last_seen_at := None |}.

Definition table : list Row := [mkRow 1 loft; mkRow 2 den].

Definition empty_host : KeyedHost.t := KeyedHost.mk ∅ [].

Definition world : World KeyedHost.t :=
  mkWorld (Some table) empty_host [] [] [] [] 0.

(** The Den device (serial X1, recorded at 192.168.1.50) shows up at
    192.168.1.77. *)
Definition moved_candidate : Candidate :=
  {| c_ip := Some "192.168.1.77"; c_ip_address := None;
     c_mac := None; c_mac_address := None |}.

Definition den_table : list Row := [mkRow 1 den].

Definition den_world : World KeyedHost.t :=
  mkWorld (Some den_table) empty_host [] [] [] [] 0.

(** A registry that still holds the Den device under the legacy dashed
    id, and a local table that knows it under that id too. *)
Definition legacy_den : DeviceRecord :=
  {| device_id := "roku-X1"; ip_address := "192.168.1.50"; name := "Den";
     model := Some "Ultra"; serial_number := Some "X1";
     software_version := Some "12.5.0"; power_mode := Some "PowerOn";
     status := "online"; metadata := None; last_seen_at := None |}.



(** An entity-state row as the poll adapter writes it for the Den device,
    and the same row under the older [roku.<slug>.<signal>] naming. *)
Definition den_entity (key : string) : EntityRow :=
  {| entity_id := Some key; e_id := None; e_device_id := Some "roku:X1";
     e_deviceId := None; e_source_device_id := None;
     e_name := None; e_friendly_name := None |}.

Definition den_registry : gmap string RegistryRow :=
  {[ "roku:X1" := KeyedHost.upsert_row
                    (sync_descriptor (mkDevice "roku:X1" "192.168.1.77" "Den" None
                                        (Some "X1") None None "online" None None))
                    None ]}.

(** The local table is empty; the registry and the entity states remember
    the Den device. *)
Definition wiped_world (key : string) : World KeyedHost.t :=
  mkWorld (Some []) (KeyedHost.mk den_registry [den_entity key]) [] [] [] [] 0.

Definition den_slug : SlugInfo :=
  {| slug := "den"; si_device_id := Some "roku:X1"; si_name := "Den" |}.

(** The registry remembers the Den device at an address that no longer
    answers. *)
Definition stale_world : World KeyedHost.t :=
  mkWorld (Some [])
    (KeyedHost.mk
       {[ "roku:X1" := KeyedHost.upsert_row (sync_descriptor den) None ]}
       [den_entity "roku.den.power"])
    [] [] [] [] 0.

(** A world over a host whose registry fails the next [n] upserts. *)
Definition outage_world (n : nat) : World OutageHost.t :=
  mkWorld (Some table) (OutageHost.mk n) [] [] [] [] 0.

(** An empty table over a host whose registry fails the next [n]
    upserts. *)
Definition empty_outage_world (n : nat) : World OutageHost.t :=
  mkWorld (Some []) (OutageHost.mk n) [] [] [] [] 0.



Definition netflix : ActiveApp :=
  {| app_id := Some "12"; app_name := Some "Netflix"; app_type := Some "appl";
     app_version := Some "5.1.0" |}.

(** The device at 192.168.1.77 shows Netflix. *)
Definition active_app (ip : string) : Result (option ActiveApp) :=
  if String.eqb ip "192.168.1.77" then Ok (Some netflix) else Throw "Request timeout".

(** The Den device as the polling manager knows it. *)
Definition den_target : PollTarget :=
  {| pt_id := Some "roku:X1"; pt_ip_address := Some "192.168.1.77";
     pt_friendly_name := Some "Den"; pt_name := None |}.

(** A patch that sets one metadata key. *)
Definition room_patch : Patch :=
  {| p_ip_address := None; p_status := None; p_last_seen_at := None;
     p_metadata := Some {[ "room" := JStr "den" ]} |}.

(** A candidate at an address that does not answer. *)
Definition silent_candidate : Candidate :=
  {| c_ip := Some "192.168.1.50"; c_ip_address := None;
     c_mac := None; c_mac_address := None |}.

(** A network on which nothing answers. *)
Definition offline (ip : string) : Result DeviceInfo := Throw "Request timeout".

(** The Den table over a host whose registry fails the next [n] upserts. *)
Definition den_outage_world (n : nat) : World OutageHost.t :=
  mkWorld (Some den_table) (OutageHost.mk n) [] [] [] [] 0.

(** A second row under Den's device id, without a serial number, stored
    before Den's own row. *)
Definition twin : DeviceRecord :=
  {| device_id := "roku:X1"; ip_address := "192.168.1.60"; name := "Den (old)";
     model := None; serial_number := None; software_version := None;
     power_mode := None; status := "offline"; metadata := None;
     last_seen_at := None |}.

Definition twin_world : World KeyedHost.t :=
  mkWorld (Some [mkRow 1 twin; mkRow 2 den]) empty_host [] [] [] [] 0.

(** A registry that cannot be searched: every query fails. *)
#[global] Instance registry_offline : RegistrySearch KeyedHost.t := {
  registry_where h column value := Throw "registry unavailable"
}.

End Samples.

(** * Properties *)

Ltac world_simpl :=
  cbn [deviceStore host logs broadcasts bus_events register_calls ticks fst snd].

(** ** Power-state interpreter *)

(** C2: the interpreter maps Ready to standby, PowerOn with a screensaver
    to standby, PowerOn with an app to on, Headless with no app to on, and
    an unrecognised mode to on. *)
Theorem interpretPowerState_test_vector :
  interpretPowerState (Some "Ready") None = "standby"
  /\ interpretPowerState (Some "PowerOn") (Some (app_of_type "screensaver")) = "standby"
  /\ interpretPowerState (Some "PowerOn") (Some (app_of_type "app")) = "on"
  /\ interpretPowerState (Some "Headless") None = "on"
  /\ interpretPowerState (Some "garbage") None = "on".
Proof. repeat split; reflexivity. Qed.

(** C10: whatever the raw power mode (absent and empty included) and the
    active app, the interpreter answers on or standby, never off or
    unknown. *)
Theorem interpretPowerState_on_or_standby :
  forall (rawPowerMode : option string) (activeApp : option ActiveApp),
    (interpretPowerState rawPowerMode activeApp = "on"
     \/ interpretPowerState rawPowerMode activeApp = "standby")
    /\ interpretPowerState rawPowerMode activeApp <> "off"
    /\ interpretPowerState rawPowerMode activeApp <> "unknown".
Proof.
  intros rawPowerMode activeApp.
  assert (Hcases : interpretPowerState rawPowerMode activeApp = "on"
                   \/ interpretPowerState rawPowerMode activeApp = "standby").
  { unfold interpretPowerState.
    repeat match goal with
           | |- context [if ?b then _ else _] => destruct b
           end; auto. }
  split; [exact Hcases |].
  destruct Hcases as [-> | ->]; split; discriminate.
Qed.

Example interpret_displayoff :
  interpretPowerState (Some "DisplayOff") None = "standby".
Proof. reflexivity. Qed.

Example interpret_contains_ready :
  interpretPowerState (Some "not-ready-yet") (Some (app_of_type "app")) = "standby".
Proof. reflexivity. Qed.

Example interpret_absent_mode :
  interpretPowerState None None = "on".
Proof. reflexivity. Qed.

(** ** List search *)

Lemma find_first {X} (p : X -> bool) (l : list X) (x : X) :
  find p l = Some x ->
  exists pre post, l = (pre ++ x :: post)%list /\ p x = true
                   /\ Forall (fun y => p y = false) pre.
Proof.
  induction l as [| y l IH]; simpl; [discriminate |].
  destruct (p y) eqn:Hy.
  - intros [= ->]. exists [], l. repeat split; auto.
  - intros Hfind. destruct (IH Hfind) as (pre & post & -> & Hx & Hpre).
    exists (y :: pre), post. repeat split; auto.
Qed.

Lemma find_exists {X} (p : X -> bool) (l : list X) (x : X) :
  In x l -> p x = true -> exists y, find p l = Some y.
Proof.
  intros Hin Hp. destruct (find p l) as [y |] eqn:Hfind; [eauto |].
  pose proof (find_none p l Hfind x Hin) as Hnone. congruence.
Qed.


Lemma head_filter_find {X} (p : X -> bool) (l : list X) :
  head (List.filter p l) = find p l.
Proof.
  induction l as [| x l IH]; simpl; [reflexivity |].
  destruct (p x); [reflexivity | exact IH].
Qed.

(** ** MAC normalisation agrees with the specification's comparison *)

Lemma all_ascii_complete (c : ascii) : In c all_ascii.
Proof.
  unfold all_ascii. rewrite <- (ascii_nat_embedding c).
  apply in_map, in_seq. pose proof (nat_ascii_bounded c). lia.
Qed.






(** ** Identity resolver *)

Lemma strict_eq_true (a b : option string) : Js.strict_eq a b = true <-> a = b.
Proof.
  destruct a as [x |], b as [y |]; simpl; try (split; congruence).
  rewrite String.eqb_eq. split; congruence.
Qed.

Lemma truthy_some (s : string) : s <> "" -> Js.truthy (Some s) = true.
Proof. intros Hs. simpl. now destruct (String.eqb_spec s ""). Qed.

Section Resolver.

Context {H : Type}.
Implicit Types (w : World H) (tbl : list Row) (r : Row).

Lemma serial_tier_hit w tbl s mac ip r :
  deviceStore w = Some tbl -> s <> "" ->
  find (has_serial s) tbl = Some r ->
  findExistingRoku (Some s) mac ip w
  = (Ok (Some r), snd (log (LogMatchedSerial (Some s)) debug w)).
Proof.
  intros Hstore Hs Hfind.
  unfold findExistingRoku, getAllDevices, read_table, bind.
  rewrite Hstore, (truthy_some s Hs).
  unfold has_serial in Hfind. rewrite Hfind. reflexivity.
Qed.



(** C1: a candidate whose (provided) serial number is the serial number of
    a known record resolves to a record with that serial number - the
    first one in the table, hence that very record when it is the only
    one - whatever the candidate's MAC and IP address are. *)
Theorem findExistingRoku_serial_priority w tbl s mac ip r :
  deviceStore w = Some tbl ->
  s <> "" ->
  In r tbl ->
  serial_number r = Some s ->
  exists r' pre post,
    fst (findExistingRoku (Some s) mac ip w) = Ok (Some r')
    /\ serial_number r' = Some s
    /\ tbl = (pre ++ r' :: post)%list
    /\ Forall (fun d : Row => serial_number d <> Some s) pre
    /\ ((forall d : Row, In d tbl -> serial_number d = Some s -> d = r) -> r' = r).
Proof.
  intros Hstore Hs Hin Hserial.
  destruct (find_exists (has_serial s) tbl r Hin) as [r' Hfind].
  { now apply strict_eq_true. }
  destruct (find_first _ _ _ Hfind) as (pre & post & Htbl & Hr' & Hpre).
  apply strict_eq_true in Hr'.
  exists r', pre, post.
  rewrite (serial_tier_hit w tbl s mac ip r' Hstore Hs Hfind).
  repeat split; auto.
  - eapply List.Forall_impl; [| exact Hpre].
    intros d Hd Heq. apply strict_eq_true in Heq.
    unfold has_serial in Hd. congruence.
  - intros Huniq. apply Huniq; [| exact Hr'].
    rewrite Htbl. apply in_elt.
Qed.


End Resolver.

(** ** Store updates *)

Lemma find_unique_key {K} (key : Row -> K) (eqb : K -> K -> bool)
    (pre post : list Row) (x : Row) :
  (forall a b, eqb a b = true <-> a = b) ->
  NoDup (map key (pre ++ x :: post)) ->
  find (fun r => eqb (key r) (key x)) (pre ++ x :: post) = Some x.
Proof.
  intros Heqb. induction pre as [| y pre IH]; simpl; intros Hnd.
  - assert (Hx : eqb (key x) (key x) = true) by now apply Heqb.
    now rewrite Hx.
  - apply NoDup_cons in Hnd as [Hy Hnd].
    destruct (eqb (key y) (key x)) eqn:Hyx; [| now apply IH].
    apply Heqb in Hyx. exfalso. apply Hy. rewrite Hyx.
    apply list_elem_of_In, in_map, in_elt.
Qed.

Lemma update_rows_unique (pk : nat) (data : Patch) (pre post : list Row) (x : Row) :
  row_id x = pk ->
  NoDup (map row_id (pre ++ x :: post)) ->
  update_rows pk data (pre ++ x :: post)
  = (pre ++ mkRow pk (apply_patch data x) :: post)%list.
Proof.
  intros Hpk Hnd. unfold update_rows.
  assert (Hother : forall l : list Row, ~ In pk (map row_id l) ->
            map (fun r => if Nat.eqb (row_id r) pk
                          then mkRow (row_id r) (apply_patch data r) else r) l = l).
  { induction l as [| y l IH]; simpl; [reflexivity |].
    intros Hnot. destruct (Nat.eqb_spec (row_id y) pk) as [Heq | Hne].
    - exfalso. apply Hnot. now left.
    - f_equal. apply IH. tauto. }
  rewrite map_app in Hnd. simpl in Hnd.
  apply NoDup_app in Hnd as (Hpre & Hdisj & Hpost).
  apply NoDup_cons in Hpost as [Hxpost _].
  rewrite map_app. simpl. rewrite Hpk, Nat.eqb_refl.
  rewrite !Hother; [reflexivity | |].
  - rewrite <- Hpk. intros Hin. apply Hxpost. now apply list_elem_of_In.
  - rewrite <- Hpk. intros Hin. apply (Hdisj (row_id x)).
    + now apply list_elem_of_In.
    + left.
Qed.

Lemma find_throwing_In {X} (p : X -> Result bool) (l : list X) (x : X) :
  find_throwing p l = Ok (Some x) -> In x l.
Proof.
  induction l as [| y l IH]; simpl; [discriminate |].
  destruct (p y) as [[] |]; try discriminate.
  - intros [= ->]. now left.
  - intros Hfind. right. now apply IH.
Qed.

Section ResolverFrame.

Context {H : Type}.
Implicit Types (w : World H).

Lemma findExistingRoku_effect serial mac ip w :
  exists msgs,
    snd (findExistingRoku serial mac ip w) = with_logs (logs w ++ msgs) w.
Proof.
  destruct w as [st h lg bc be rc tk].
  unfold findExistingRoku, getAllDevices, getDeviceByIp, findAll_where, read_table,
    lift, log, bind, ret, with_logs.
  cbn [deviceStore host logs broadcasts bus_events register_calls ticks].
  destruct st as [tbl |]; [| exists []; cbn; now rewrite app_nil_r].
  destruct (if Js.truthy serial then _ else _);
    [eexists; cbn; reflexivity |].
  destruct (Js.truthy mac).
  - destruct (find_throwing _ tbl) as [[d |] |];
      cbn [deviceStore host logs broadcasts bus_events register_calls ticks];
      [eexists; cbn; reflexivity | | exists []; cbn; now rewrite app_nil_r].
    destruct (head _); [eexists; cbn; reflexivity |].
    exists []; cbn; now rewrite app_nil_r.
  - cbn [deviceStore host logs broadcasts bus_events register_calls ticks].
    destruct (head _); [eexists; cbn; reflexivity |].
    exists []; cbn; now rewrite app_nil_r.
Qed.

Lemma findExistingRoku_result serial mac ip w lg :
  fst (findExistingRoku serial mac ip (with_logs lg w))
  = fst (findExistingRoku serial mac ip w).
Proof.
  destruct w as [st h lg0 bc be rc tk].
  unfold findExistingRoku, getAllDevices, getDeviceByIp, findAll_where, read_table,
    lift, log, bind, ret, with_logs.
  cbn [deviceStore host logs broadcasts bus_events register_calls ticks].
  destruct st as [tbl |]; [| reflexivity].
  destruct (if Js.truthy serial then _ else _); [reflexivity |].
  destruct (Js.truthy mac).
  - destruct (find_throwing _ tbl) as [[d |] |]; try reflexivity.
    cbn [deviceStore]. destruct (head _); reflexivity.
  - cbn [deviceStore]. destruct (head _); reflexivity.
Qed.

Lemma findExistingRoku_In serial mac ip w tbl r :
  deviceStore w = Some tbl ->
  fst (findExistingRoku serial mac ip w) = Ok (Some r) ->
  In r tbl.
Proof.
  intros Hstore.
  unfold findExistingRoku, getAllDevices, getDeviceByIp, findAll_where, read_table,
    lift, log, bind, ret.
  rewrite Hstore.
  destruct (if Js.truthy serial then _ else _) as [d |] eqn:Hserial.
  - cbn. intros [= ->]. destruct (Js.truthy serial); [| discriminate].
    now apply find_some in Hserial.
  - destruct (Js.truthy mac).
    + destruct (find_throwing _ tbl) as [[d |] |] eqn:Hmac; cbn.
      * intros [= ->]. now apply find_throwing_In in Hmac.
      * rewrite Hstore, head_filter_find.
        destruct (find (fun r : Row => String.eqb (ip_address r) ip) tbl)
          as [d |] eqn:Hip; cbn; intros Heq; [| discriminate].
        assert (d = r) as -> by congruence.
        now apply find_some in Hip.
      * discriminate.
    + cbn. rewrite Hstore, head_filter_find.
      destruct (find (fun r : Row => String.eqb (ip_address r) ip) tbl)
        as [d |] eqn:Hip; cbn; intros Heq; [| discriminate].
      assert (d = r) as -> by congruence.
      now apply find_some in Hip.
Qed.

End ResolverFrame.

Section Discovery.

Context {H : Type} `{HostApi H}.
Variable ecp : string -> Result DeviceInfo.
Variable clock : nat -> string.
Variable has_bus : bool.
Implicit Types (w : World H) (existing : Row).

Lemma getDevice_unique w pre post existing :
  deviceStore w = Some (pre ++ existing :: post)%list ->
  NoDup (map (fun r : Row => device_id r) (pre ++ existing :: post)) ->
  getDevice (device_id existing) w = (Ok (Some existing), w).
Proof.
  intros Hstore Hnd. unfold getDevice, findAll_where, read_table, bind, ret.
  rewrite Hstore, head_filter_find.
  rewrite (find_unique_key (fun r : Row => device_id r) String.eqb); auto.
  apply String.eqb_eq.
Qed.

Lemma refresh_existing_moved w pre post existing mac ip h' :
  deviceStore w = Some (pre ++ existing :: post)%list ->
  NoDup (map row_id (pre ++ existing :: post)) ->
  NoDup (map (fun r : Row => device_id r) (pre ++ existing :: post)) ->
  ip_address existing <> ip ->
  registerDevice (host w) (moved_descriptor existing mac ip) = (Ok tt, h') ->
  exists w',
    refresh_existing clock existing mac ip w = (Ok tt, w')
    /\ deviceStore w'
       = Some (pre ++ mkRow (row_id existing)
                        (apply_patch (moved_patch existing mac ip (clock (ticks w))
                                        (clock (S (ticks w)))) existing) :: post)%list
    /\ broadcasts w'
       = (broadcasts w ++ [IpChanged (device_id existing) (name existing)
                            (ip_address existing) ip])%list
    /\ host w' = h'
    /\ register_calls w' = (register_calls w ++ [moved_descriptor existing mac ip])%list.
Proof.
  intros Hstore Hpk Hid Hip Hreg.
  pose proof (getDevice_unique w pre post existing Hstore Hid) as Hget.
  destruct w as [st h lg bc be rc tk]. cbn [deviceStore host ticks broadcasts register_calls] in *.
  subst st.
  unfold refresh_existing.
  destruct (String.eqb_spec (ip_address existing) ip) as [| _]; [contradiction |].
  cbn [negb]. unfold updateDevice, getDevice, findAll_where, model_update, read_table, write_table, api_registerDevice, broadcast, now, log, bind, ret in *.
  cbn [deviceStore host logs broadcasts bus_events register_calls ticks] in *.
  injection Hget as ->.
  cbn [deviceStore host logs broadcasts bus_events register_calls ticks].
  rewrite Hreg.
  eexists. split; [reflexivity |].
  cbn [deviceStore host logs broadcasts bus_events register_calls ticks].
  rewrite update_rows_unique by auto. auto.
Qed.

Lemma refresh_existing_same w pre post existing mac :
  deviceStore w = Some (pre ++ existing :: post)%list ->
  NoDup (map row_id (pre ++ existing :: post)) ->
  NoDup (map (fun r : Row => device_id r) (pre ++ existing :: post)) ->
  exists w',
    refresh_existing clock existing mac (ip_address existing) w = (Ok tt, w')
    /\ deviceStore w'
       = Some (pre ++ mkRow (row_id existing)
                        (apply_patch (seen_patch (clock (ticks w))) existing) :: post)%list
    /\ broadcasts w' = broadcasts w
    /\ host w' = host w
    /\ register_calls w' = register_calls w.
Proof.
  intros Hstore Hpk Hid.
  pose proof (getDevice_unique w pre post existing Hstore Hid) as Hget.
  destruct w as [st h lg bc be rc tk].
  cbn [deviceStore host ticks broadcasts register_calls] in *. subst st.
  unfold refresh_existing. rewrite String.eqb_refl. cbn [negb].
  unfold updateDeviceStatus, getDevice, findAll_where, model_update, read_table,
    write_table, now, bind, ret in *.
  cbn [deviceStore host logs broadcasts bus_events register_calls ticks] in *.
  injection Hget as ->.
  cbn [deviceStore host logs broadcasts bus_events register_calls ticks seen_patch p_metadata].
  eexists. split; [reflexivity |].
  cbn [deviceStore host logs broadcasts bus_events register_calls ticks].
  rewrite update_rows_unique by auto. auto.
Qed.

Lemma moved_patch_record existing mac ip seen changed :
  moved_record existing ip seen changed
    (apply_patch (moved_patch existing mac ip seen changed) existing).
Proof.
  unfold moved_record, apply_patch, moved_patch, meta_get, set_opt. cbn.
  repeat split; try reflexivity.
  - rewrite lookup_insert_ne by discriminate. now rewrite lookup_insert_eq.
  - now rewrite lookup_insert_eq.
  - intros k Hmac Hprev Hchanged.
    rewrite !lookup_insert_ne by congruence.
    destruct (mac_or mac (metadata existing)).
    + rewrite lookup_insert_ne by congruence.
      unfold spread. destruct (metadata existing); [reflexivity | apply lookup_empty].
    + rewrite lookup_delete_ne by congruence.
      unfold spread. destruct (metadata existing); [reflexivity | apply lookup_empty].
Qed.

Lemma seen_patch_record existing seen :
  refreshed_record existing seen (apply_patch (seen_patch seen) existing).
Proof. unfold refreshed_record. cbn. repeat split; reflexivity. Qed.

Lemma handle_known_run (candidate : Candidate) w ip inf existing :
  Js.or_else (c_ip candidate) (c_ip_address candidate) = Some ip ->
  ecp ip = Ok inf ->
  fst (findExistingRoku (serialNumber inf)
         (Js.or_else (c_mac candidate) (c_mac_address candidate)) ip w)
  = Ok (Some existing) ->
  exists lg,
    handleDiscoveredCandidate ecp clock has_bus candidate w
    = try_catch
        (refresh_existing clock existing
           (Js.or_else (c_mac candidate) (c_mac_address candidate)) ip ;;;
         ret (claim_existing existing))
        (fun e => log (LogVerifyFailed (Some ip) e) debug ;;; ret no_claim)
        (with_logs lg w).
Proof.
  intros Hip Hecp Hfind.
  unfold handleDiscoveredCandidate. rewrite Hip.
  unfold bind at 1. unfold log at 1.
  unfold try_catch at 1. unfold bind at 1. unfold getDeviceInfo, lift. rewrite Hecp.
  rewrite orb_true_r. cbn [negb].
  unfold bind at 1. unfold log at 1. unfold bind at 1. unfold log at 1.
  unfold bind at 1.
  match goal with
  | |- context [findExistingRoku ?s ?m ?i ?w1] =>
      change w1 with (with_logs (logs w1) w);
      pose proof (findExistingRoku_effect s m i (with_logs (logs w1) w)) as [msgs Heff];
      pose proof (findExistingRoku_result s m i w (logs w1)) as Hres;
      destruct (findExistingRoku s m i (with_logs (logs w1) w)) as [res w2]
  end.
  cbn [fst snd] in *. rewrite Hfind in Hres. subst res w2.
  eexists. unfold try_catch, bind at 1. reflexivity.
Qed.

(** C4: when identity resolution matches a known record in a table whose
    device ids are pairwise distinct, the candidate handler updates that
    record in place.  If the stored address differs from the candidate's
    and the registry accepts the upsert of the moved device, the record gets
    the new address, a refreshed [last_seen_at], [metadata.previous_ip] set
    to the old address and [metadata.ip_changed_at] set to the current
    time, and exactly one IP-changed broadcast is emitted; if the address is
    unchanged, only [status] and [last_seen_at] are refreshed and nothing is
    broadcast. *)
Theorem handleDiscoveredCandidate_known_device (candidate : Candidate)
    w tbl ip inf existing :
  let mac := Js.or_else (c_mac candidate) (c_mac_address candidate) in
  deviceStore w = Some tbl ->
  NoDup (map row_id tbl) ->
  NoDup (map (fun r : Row => device_id r) tbl) ->
  Js.or_else (c_ip candidate) (c_ip_address candidate) = Some ip ->
  ecp ip = Ok inf ->
  fst (findExistingRoku (serialNumber inf) mac ip w) = Ok (Some existing) ->
  (ip_address existing <> ip ->
   fst (registerDevice (host w) (moved_descriptor existing mac ip)) = Ok tt) ->
  exists pre post updated w',
    tbl = (pre ++ existing :: post)%list
    /\ handleDiscoveredCandidate ecp clock has_bus candidate w
       = (Ok (claim_existing existing), w')
    /\ deviceStore w' = Some (pre ++ mkRow (row_id existing) updated :: post)%list
    /\ (ip_address existing <> ip ->
        moved_record existing ip (clock (ticks w)) (clock (S (ticks w))) updated
        /\ broadcasts w'
           = (broadcasts w ++ [IpChanged (device_id existing) (name existing)
                                (ip_address existing) ip])%list)
    /\ (ip_address existing = ip ->
        refreshed_record existing (clock (ticks w)) updated
        /\ broadcasts w' = broadcasts w).
Proof.
  intros mac Hstore Hpk Hid Hip Hecp Hfind Hreg.
  pose proof (findExistingRoku_In _ _ _ _ _ _ Hstore Hfind) as Hin.
  apply in_split in Hin as (pre & post & ->).
  destruct (handle_known_run candidate w ip inf existing Hip Hecp Hfind) as [lg ->].
  fold mac. exists pre, post.
  destruct (String.eqb_spec (ip_address existing) ip) as [Hsame | Hmoved].
  - subst ip.
    destruct (refresh_existing_same (with_logs lg w) pre post existing mac)
      as (w' & Hrun & Hst & Hbc & _); auto.
    exists (apply_patch (seen_patch (clock (ticks w))) existing), w'.
    unfold try_catch, bind. rewrite Hrun.
    split; [reflexivity |]. split; [reflexivity |]. split; [exact Hst |].
    split; intros Hcase; [contradiction |].
    split; [apply seen_patch_record | exact Hbc].
  - specialize (Hreg Hmoved).
    destruct (registerDevice (host w) (moved_descriptor existing mac ip))
      as [res h'] eqn:Hcall.
    cbn [fst] in Hreg. subst res.
    destruct (refresh_existing_moved (with_logs lg w) pre post existing mac ip h')
      as (w' & Hrun & Hst & Hbc & _); auto.
    exists (apply_patch (moved_patch existing mac ip (clock (ticks w))
                           (clock (S (ticks w)))) existing), w'.
    unfold try_catch, bind. rewrite Hrun.
    split; [reflexivity |]. split; [reflexivity |]. split; [exact Hst |].
    split; intros Hcase; [| contradiction].
    split; [apply moved_patch_record | exact Hbc].
Qed.

End Discovery.

(** ** Recovery scanner *)

Section Recovery.

Context {H : Type} `{HostApi H}.
Variable ecp : string -> Result DeviceInfo.
Variable clock : nat -> string.
Implicit Types (w : World H) (deviceInfo : SlugInfo).

Lemma recover_ip_run deviceInfo w :
  exists ipAddress lg, recover_ip deviceInfo w = (Ok ipAddress, with_logs lg w).
Proof.
  destruct w as [st h lg bc be rc tk].
  unfold recover_ip, try_catch, query_registry_id, query_registry_type, log, bind,
    ret, with_logs.
  world_simpl.
  destruct (Js.truthy (si_device_id deviceInfo)); world_simpl.
  - destruct (registry_where_id h _) as [regResult | e]; world_simpl;
      [| eexists _, _; reflexivity].
    destruct (negb _); world_simpl.
    + destruct (registry_where_type h _); world_simpl; eexists _, _; reflexivity.
    + eexists _, _; reflexivity.
  - cbn [Js.truthy negb]. world_simpl.
    destruct (registry_where_type h _); world_simpl; eexists _, _; reflexivity.
Qed.

Lemma recover_ip_host deviceInfo w w' :
  host w = host w' ->
  fst (recover_ip deviceInfo w) = fst (recover_ip deviceInfo w').
Proof.
  destruct w as [st h lg bc be rc tk], w' as [st' h' lg' bc' be' rc' tk'].
  world_simpl. intros <-.
  unfold recover_ip, try_catch, query_registry_id, query_registry_type, log, bind, ret.
  world_simpl.
  destruct (Js.truthy (si_device_id deviceInfo)); world_simpl.
  - destruct (registry_where_id h _) as [regResult | e]; world_simpl; [| reflexivity].
    destruct (negb _); world_simpl; [| reflexivity].
    destruct (registry_where_type h _); reflexivity.
  - cbn [Js.truthy negb]. world_simpl.
    destruct (registry_where_type h _); reflexivity.
Qed.

Lemma recovery_step_refl w w' :
  deviceStore w' = deviceStore w -> host w' = host w ->
  broadcasts w' = broadcasts w -> register_calls w' = register_calls w ->
  recovery_step ecp w w' [].
Proof.
  intros Hst Hh Hbc Hrc. exists []. repeat split; auto.
  rewrite Hst. destruct (deviceStore w); cbn; [now rewrite app_nil_r | reflexivity].
Qed.

Lemma recovery_step_trans w1 w2 w3 a b :
  recovery_step ecp w1 w2 a -> recovery_step ecp w2 w3 b -> recovery_step ecp w1 w3 (a ++ b).
Proof.
  intros (ra & Ha & Hst1 & Hh1 & Hbc1 & Hrc1 & Hv1)
         (rb & Hb & Hst2 & Hh2 & Hbc2 & Hrc2 & Hv2).
  exists (ra ++ rb)%list. repeat split; try congruence.
  - rewrite map_app. congruence.
  - rewrite Hst2, Hst1. destruct (deviceStore w1); cbn; [now rewrite app_assoc | reflexivity].
  - apply Forall_app. now split.
Qed.

Lemma recover_one_spec acc deviceInfo w :
  exists added w',
    recover_one ecp clock acc deviceInfo w = (Ok (acc ++ added)%list, w')
    /\ recovery_step ecp w w' added
    /\ (forall ip msg, fst (recover_ip deviceInfo w) = Ok (Some ip) ->
                       ecp ip = Throw msg -> added = [])
    /\ length added = recover_count ecp (fst (recover_ip deviceInfo w)) (deviceStore w).
Proof.
  destruct (recover_ip_run deviceInfo w) as (ipAddress & lg & Hrun).
  unfold recover_one. unfold bind at 1. rewrite Hrun. cbn [fst].
  destruct w as [st h lg0 bc be rc tk]. unfold with_logs. world_simpl.
  destruct (Js.truthy ipAddress) eqn:Htruthy; cbn [negb].
  2:{ exists [], (snd (log (LogNoIp (si_name deviceInfo)) debug
                       (mkWorld st h lg bc be rc tk))).
      rewrite app_nil_r. split; [reflexivity |].
      split; [now apply recovery_step_refl |]. split; [reflexivity |].
      unfold recover_count. destruct ipAddress as [ip |]; [| reflexivity].
      rewrite Htruthy. now destruct st. }
  destruct ipAddress as [ip |]; [| discriminate]. cbn [Js.template].
  unfold try_catch, bind at 1, getDeviceInfo, lift.
  unfold recover_count. rewrite Htruthy.
  destruct (ecp ip) as [inf | e] eqn:Hecp.
  2:{ exists [], (snd (log (LogUnreachable ip e) debug (mkWorld st h lg bc be rc tk))).
      rewrite app_nil_r. split; [reflexivity |].
      split; [now apply recovery_step_refl |]. split; [reflexivity |].
      now destruct st. }
  unfold createDevice, model_create, read_table, write_table, now, log, bind, ret.
  world_simpl.
  destruct st as [tbl |]; world_simpl.
  - eexists [_], _. split; [reflexivity |]. split; [| split].
    + eexists [_]. repeat split; world_simpl; try reflexivity.
      constructor; [| constructor].
      exists inf. cbn. auto.
    + intros ip' msg [= <-]. congruence.
    + reflexivity.
  - eexists [], _. rewrite app_nil_r. split; [reflexivity |]. split; [| split].
    + now apply recovery_step_refl.
    + reflexivity.
    + reflexivity.
Qed.

Lemma recover_each_spec deviceMap acc w :
  exists added w',
    recover_each ecp clock deviceMap acc w = (Ok (acc ++ added)%list, w')
    /\ recovery_step ecp w w' added.
Proof.
  revert acc w. induction deviceMap as [| [key deviceInfo] rest IH]; intros acc w.
  - exists [], w. rewrite app_nil_r. split; [reflexivity |].
    now apply recovery_step_refl.
  - destruct (recover_one_spec acc deviceInfo w) as (a & w1 & Hone & Hstep1 & _ & _).
    destruct (IH (acc ++ a)%list w1) as (b & w2 & Hrest & Hstep2).
    exists (a ++ b)%list, w2. split.
    + cbn [recover_each]. unfold bind. rewrite Hone, Hrest. now rewrite app_assoc.
    + eapply recovery_step_trans; eauto.
Qed.

Lemma recoverDevices_spec w :
  exists recovered w',
    recoverDevicesFromEntityStates ecp clock w = (Ok recovered, w')
    /\ recovery_step ecp w w' recovered.
Proof.
  unfold recoverDevicesFromEntityStates, try_catch, bind at 1, query_entity_states.
  destruct (entity_states_like (host w) "roku.%") as [entities | e].
  - destruct (length entities =? 0)%nat.
    + eexists [], _. split; [reflexivity |].
      destruct w; now apply recovery_step_refl.
    + unfold bind at 1.
      destruct (recover_each_spec (collect_slugs entities) []
                  (snd (log (LogFoundUnique (length (collect_slugs entities))) debug w)))
        as (added & w' & Hrun & Hstep).
      cbn [log snd fst] in *. rewrite Hrun.
      exists added, w'. split; [reflexivity |].
      eapply (recovery_step_trans w _ w' []); [| exact Hstep].
      destruct w; now apply recovery_step_refl.
  - eexists [], _. split; [reflexivity |].
    destruct w; now apply recovery_step_refl.
Qed.

(** C6: recovery creates a device record only after a live device-info
    fetch from the recovered address succeeded.  Every record it returns
    is one it created in the table, sits at an address that answered, and
    carries the serial number, model and software version of that answer;
    and a slug whose inferred address does not answer adds no record. *)
Theorem recovery_only_adds_verified_devices :
  (forall w,
     exists recovered new_rows w',
       recoverDevicesFromEntityStates ecp clock w = (Ok recovered, w')
       /\ map row_data new_rows = recovered
       /\ deviceStore w' = (fun tbl => tbl ++ new_rows)%list <$> deviceStore w
       /\ Forall (live_verified ecp) recovered)
  /\ (forall acc deviceInfo w ip msg,
        fst (recover_ip deviceInfo w) = Ok (Some ip) ->
        ecp ip = Throw msg ->
        exists w',
          recover_one ecp clock acc deviceInfo w = (Ok acc, w')
          /\ deviceStore w' = deviceStore w).
Proof.
  split.
  - intros w.
    destruct (recoverDevices_spec w)
      as (recovered & w' & Hrun & new_rows & Hrows & Hst & _ & _ & _ & Hlive).
    exists recovered, new_rows, w'. auto.
  - intros acc deviceInfo w ip msg Hip Hecp.
    destruct (recover_one_spec acc deviceInfo w)
      as (added & w' & Hrun & (new_rows & Hrows & Hst & _) & Hnone & _).
    rewrite (Hnone ip msg Hip Hecp) in *.
    apply map_eq_nil in Hrows. subst new_rows.
    exists w'. rewrite app_nil_r in Hrun. split; [exact Hrun |].
    rewrite Hst. destruct (deviceStore w); cbn; [now rewrite app_nil_r | reflexivity].
Qed.

Lemma recover_count_setting deviceInfo w w' :
  same_setting w w' ->
  recover_count ecp (fst (recover_ip deviceInfo w)) (deviceStore w)
  = recover_count ecp (fst (recover_ip deviceInfo w')) (deviceStore w').
Proof.
  intros [Hhost Hstore]. rewrite (recover_ip_host deviceInfo w w' Hhost).
  unfold recover_count.
  destruct (fst (recover_ip deviceInfo w')) as [[ip |] |]; try reflexivity.
  destruct (deviceStore w), (deviceStore w'); try reflexivity.
  - destruct Hstore as [_ Hstore]. now specialize (Hstore eq_refl).
  - destruct Hstore as [Hstore _]. now specialize (Hstore eq_refl).
Qed.

Lemma recovery_step_setting w w1 w' w1' a a' :
  same_setting w w' ->
  recovery_step ecp w w1 a -> recovery_step ecp w' w1' a' ->
  same_setting w1 w1'.
Proof.
  intros [Hhost Hstore] (r & _ & Hst & Hh & _) (r' & _ & Hst' & Hh' & _).
  split; [congruence |].
  rewrite Hst, Hst'.
  destruct (deviceStore w), (deviceStore w'); cbn in *; intuition congruence.
Qed.

Lemma recover_each_length deviceMap acc acc' w w' :
  same_setting w w' -> length acc = length acc' ->
  exists r r' w1 w1',
    recover_each ecp clock deviceMap acc w = (Ok r, w1)
    /\ recover_each ecp clock deviceMap acc' w' = (Ok r', w1')
    /\ length r = length r'.
Proof.
  revert acc acc' w w'.
  induction deviceMap as [| [key deviceInfo] rest IH]; intros acc acc' w w' Hset Hlen.
  - exists acc, acc', w, w'. auto.
  - destruct (recover_one_spec acc deviceInfo w) as (a & w1 & Hone & Hstep & _ & Hcount).
    destruct (recover_one_spec acc' deviceInfo w') as (a' & w1' & Hone' & Hstep' & _ & Hcount').
    rewrite (recover_count_setting deviceInfo w w' Hset), <- Hcount' in Hcount.
    destruct (IH (acc ++ a)%list (acc' ++ a')%list w1 w1') as (r & r' & w2 & w2' & Hr & Hr' & Hrr).
    + eapply recovery_step_setting; eauto.
    + rewrite !length_app. congruence.
    + exists r, r', w2, w2'. cbn [recover_each]. unfold bind.
      rewrite Hone, Hone'. auto.
Qed.

Lemma recoverDevices_length w w' :
  same_setting w w' ->
  exists r r' w1 w1',
    recoverDevicesFromEntityStates ecp clock w = (Ok r, w1)
    /\ recoverDevicesFromEntityStates ecp clock w' = (Ok r', w1')
    /\ length r = length r'.
Proof.
  intros Hset. pose proof Hset as [Hhost _].
  unfold recoverDevicesFromEntityStates, try_catch, bind, query_entity_states.
  rewrite <- Hhost.
  destruct (entity_states_like (host w) "roku.%") as [entities | e].
  - destruct (length entities =? 0)%nat.
    + eexists [], [], _, _. repeat split; reflexivity.
    + assert (Hset' : same_setting
                (snd (log (LogFoundUnique (length (collect_slugs entities))) debug w))
                (snd (log (LogFoundUnique (length (collect_slugs entities))) debug w')))
        by exact Hset.
      destruct (recover_each_length (collect_slugs entities) [] [] _ _ Hset' eq_refl)
        as (r & r' & w1 & w1' & Hr & Hr' & Hlen).
      cbn [log snd fst] in *. rewrite Hr, Hr'.
      exists r, r', w1, w1'. auto.
  - eexists [], [], _, _. repeat split; reflexivity.
Qed.

End Recovery.

(** ** Registry synchronizer *)

Section Synchronizer.

Context {H : Type} `{HostApi H}.
Implicit Types (w : World H) (device : DeviceRecord).

Lemma find_registered_run serialNumber w :
  exists existingDevice lg,
    find_registered serialNumber w = (Ok existingDevice, with_logs (logs w ++ lg) w)
    /\ sync_reports lg = [].
Proof.
  destruct w as [st h lg0 bc be rc tk].
  unfold find_registered, try_catch, query_registry_id, log, bind, ret, with_logs.
  world_simpl.
  destruct (registry_where_id h ("roku:" ++ _)) as [[| e1 ?] | ?]; world_simpl.
  - destruct (registry_where_id h ("roku-" ++ _)) as [[| e2 ?] | ?]; world_simpl.
    + exists None, []. now rewrite app_nil_r.
    + eexists _, [_]. split; reflexivity.
    + exists None, []. now rewrite app_nil_r.
  - eexists _, []. now rewrite app_nil_r.
  - exists None, []. now rewrite app_nil_r.
Qed.

Lemma sync_one_spec device w :
  exists w' lg ok,
    sync_one device w = (Ok tt, w')
    /\ register_calls w' = (register_calls w ++ [sync_descriptor device])%list
    /\ host w' = snd (registerDevice (host w) (sync_descriptor device))
    /\ deviceStore w' = deviceStore w
    /\ broadcasts w' = broadcasts w
    /\ logs w' = (logs w ++ lg)%list
    /\ sync_reports lg = [(name device, ok)]
    /\ (forall msg, fst (registerDevice (host w) (sync_descriptor device)) = Throw msg ->
          last lg = Some (LogSyncError (name device) msg, warn)).
Proof.
  destruct (find_registered_run (sync_serial device) w)
    as (existingDevice & lg1 & Hfind & Hquiet).
  unfold sync_one, try_catch. unfold bind at 1. rewrite Hfind.
  destruct w as [st h lg0 bc be rc tk]. unfold with_logs. world_simpl.
  set (note := match existingDevice with
               | Some e =>
                   if negb (Js.strict_eq (reg_ip_address e) (Some (ip_address device)))
                   then [(LogSyncIpChanged (name device) (reg_ip_address e)
                            (ip_address device), debug)]
                   else []
               | None => []
               end).
  assert (Hnote : forall w0 : World H,
            (match existingDevice with
             | Some e =>
                 if negb (Js.strict_eq (reg_ip_address e) (Some (ip_address device)))
                 then log (LogSyncIpChanged (name device) (reg_ip_address e)
                             (ip_address device)) debug
                 else ret tt
             | None => ret tt
             end) w0 = (Ok tt, with_logs (logs w0 ++ note) w0)).
  { intros [st0 h0 l0 bc0 be0 rc0 tk0]. unfold note, with_logs, log, ret. world_simpl.
    destruct existingDevice as [e |]; [destruct (negb _) |];
      world_simpl; rewrite ?app_nil_r; reflexivity. }
  assert (Hnote_quiet : sync_reports note = []).
  { unfold note. destruct existingDevice as [e |]; [destruct (negb _) |]; reflexivity. }
  unfold bind at 1. unfold bind at 1. rewrite Hnote.
  unfold with_logs, api_registerDevice, log, bind. world_simpl.
  destruct (registerDevice h (sync_descriptor device)) as [[[] | msg] h'] eqn:Hreg;
    world_simpl.
  - eexists _, (lg1 ++ note ++ [_])%list, true. split; [reflexivity |]. world_simpl.
    repeat split; try reflexivity.
    + now rewrite !app_assoc.
    + unfold sync_reports in *. rewrite !omap_app, Hquiet, Hnote_quiet. reflexivity.
    + discriminate.
  - eexists _, (lg1 ++ note ++ [_])%list, false. split; [reflexivity |]. world_simpl.
    repeat split; try reflexivity.
    + now rewrite !app_assoc.
    + unfold sync_reports in *. rewrite !omap_app, Hquiet, Hnote_quiet. reflexivity.
    + intros msg' [= <-]. now rewrite !app_assoc, last_snoc.
Qed.

End Synchronizer.

Section SynchronizerRun.

Context {H : Type} `{HostApi H}.
Variable ecp : string -> Result DeviceInfo.
Variable clock : nat -> string.
Implicit Types (w : World H) (device : DeviceRecord).

Lemma sync_each_spec devices w :
  exists w',
    for_each devices sync_one w = (Ok tt, w')
    /\ register_calls w' = (register_calls w ++ map sync_descriptor devices)%list
    /\ host w' = host_after_sync devices (host w)
    /\ deviceStore w' = deviceStore w
    /\ broadcasts w' = broadcasts w
    /\ map fst (sync_reports (logs w'))
       = (map fst (sync_reports (logs w)) ++ map name devices)%list.
Proof.
  revert w. induction devices as [| device rest IH]; intros w.
  - exists w. rewrite !app_nil_r. repeat split; reflexivity.
  - destruct (sync_one_spec device w)
      as (w1 & lg & ok & Hone & Hrc & Hh & Hst & Hbc & Hlg & Hrep & _).
    destruct (IH w1) as (w2 & Hrest & Hrc2 & Hh2 & Hst2 & Hbc2 & Hrep2).
    exists w2. cbn [for_each]. unfold bind. rewrite Hone.
    split; [exact Hrest |].
    repeat split; try congruence.
    + rewrite Hrc2, Hrc. cbn [map]. now rewrite <- app_assoc.
    + rewrite Hh2, Hh. reflexivity.
    + rewrite Hrep2, Hlg. unfold sync_reports in *.
      rewrite omap_app, map_app, Hrep. cbn [map fst]. now rewrite <- app_assoc.
Qed.

(** C9: whatever the host answers, the synchronizer's loop never aborts:
    it attempts the registry upsert of every device of the list, in order,
    and reports on each device; an upsert that throws is logged as a
    warning for that device. *)
Theorem sync_failure_does_not_stop_the_loop :
  (forall devices w,
     exists w',
       for_each devices sync_one w = (Ok tt, w')
       /\ register_calls w' = (register_calls w ++ map sync_descriptor devices)%list
       /\ map fst (sync_reports (logs w'))
          = (map fst (sync_reports (logs w)) ++ map name devices)%list)
  /\ (forall device w msg,
        fst (registerDevice (host w) (sync_descriptor device)) = Throw msg ->
        exists w',
          sync_one device w = (Ok tt, w')
          /\ last (logs w') = Some (LogSyncError (name device) msg, warn)).
Proof.
  split.
  - intros devices w.
    destruct (sync_each_spec devices w) as (w' & Hrun & Hrc & _ & _ & _ & Hrep).
    exists w'. auto.
  - intros device w msg Hthrow.
    destruct (sync_one_spec device w)
      as (w' & lg & ok & Hone & _ & _ & _ & _ & Hlg & _ & Hlast).
    exists w'. split; [exact Hone |].
    specialize (Hlast msg Hthrow). rewrite Hlg.
    destruct lg as [| entry lg] using rev_ind; [discriminate |].
    rewrite app_assoc, last_snoc. now rewrite last_snoc in Hlast.
Qed.

Lemma recovered_count_unique w w' n n' :
  same_setting w w' -> recovered_count ecp clock w n -> recovered_count ecp clock w' n' -> n = n'.
Proof.
  intros Hset (w0 & r & w1 & Hset0 & Hrun & <-) (w0' & r' & w1' & Hset0' & Hrun' & <-).
  assert (Hboth : same_setting w0 w0').
  { destruct Hset as [Hh Hs], Hset0 as [Hh0 Hs0], Hset0' as [Hh0' Hs0'].
    split; [congruence | tauto]. }
  destruct (recoverDevices_length ecp clock w0 w0' Hboth)
    as (x & x' & y & y' & Hx & Hx' & Hlen).
  congruence.
Qed.

Lemma syncDevicesToRegistry_spec w :
  exists w',
    syncDevicesToRegistry ecp clock w = (Ok tt, w')
    /\ register_calls w'
       = (register_calls w
          ++ map sync_descriptor (map row_data (default [] (deviceStore w'))))%list
    /\ host w' = host_after_sync (map row_data (default [] (deviceStore w'))) (host w)
    /\ broadcasts w' = broadcasts w
    /\ (deviceStore w <> Some [] -> deviceStore w' = deviceStore w)
    /\ (deviceStore w = Some [] ->
        recovered_count ecp clock w (length (default [] (deviceStore w')))).
Proof.
  unfold syncDevicesToRegistry.
  destruct (deviceStore w) as [tbl |] eqn:Hstore.
  2:{ eexists. split; [reflexivity |]. cbn. rewrite Hstore, app_nil_r.
      repeat split; auto. discriminate. }
  unfold getAllDevices, read_table. unfold bind at 1. rewrite Hstore.
  unfold bind at 1. cbn [log].
  set (w1 := mkWorld _ _ _ _ _ _ _).
  destruct tbl as [| row tbl]; cbn [length Nat.eqb].
  - unfold bind at 1. unfold bind at 1. unfold bind at 1. cbn [log].
    set (w2 := mkWorld _ _ _ _ _ _ _).
    destruct (recoverDevices_spec ecp clock w2)
      as (recovered & w3 & Hrun & new_rows & Hrows & Hst & Hh & Hbc & Hrc & _).
    rewrite Hrun. unfold bind at 1.
    assert (Hst3 : deviceStore w3 = Some new_rows).
    { rewrite Hst. subst w2 w1. cbn. now rewrite Hstore. }
    set (note := if (0 <? length recovered)%nat
                 then log (LogRecoveredCount (length recovered)) debug else ret tt).
    assert (Hnote : exists lg, note w3 = (Ok tt, with_logs lg w3)).
    { unfold note. destruct (0 <? length recovered)%nat; [eexists; reflexivity |].
      exists (logs w3). destruct w3; reflexivity. }
    destruct Hnote as [lg Hnote]. rewrite Hnote. unfold ret at 1.
    assert (Hcount : recovered_count ecp clock w (length new_rows)).
    { exists w2, recovered, w3. split; [| split; [exact Hrun |]].
      - subst w2 w1. split; cbn; [reflexivity | now rewrite Hstore].
      - rewrite <- Hrows. apply length_map. }
    destruct recovered as [| d recovered]; cbn [length Nat.eqb].
    + apply map_eq_nil in Hrows. subst new_rows.
      eexists. split; [reflexivity |]. cbn. rewrite Hst3. cbn.
      rewrite app_nil_r, Hh, Hbc, Hrc. subst w2 w1. cbn.
      repeat split; auto; congruence.
    + destruct (sync_each_spec (d :: recovered) (with_logs lg w3))
        as (w4 & Hloop & Hrc4 & Hh4 & Hst4 & Hbc4 & _).
      rewrite Hloop. exists w4. split; [reflexivity |].
      rewrite Hst4. cbn [with_logs deviceStore]. rewrite Hst3. cbn [from_option id].
      rewrite Hrows, Hrc4, Hh4, Hbc4. cbn [with_logs register_calls host broadcasts].
      rewrite Hrc, Hh, Hbc. subst w2 w1. cbn.
      repeat split; auto; congruence.
  - unfold bind at 1, ret at 1. cbn [map length Nat.eqb].
    destruct (sync_each_spec (row_data row :: map row_data tbl) w1)
      as (w4 & Hloop & Hrc4 & Hh4 & Hst4 & Hbc4 & _).
    cbn [map] in Hloop. rewrite Hloop. exists w4. split; [reflexivity |].
    rewrite Hst4, Hrc4, Hh4, Hbc4. subst w1. cbn. rewrite Hstore. cbn.
    repeat split; auto; try discriminate.
Qed.

End SynchronizerRun.

(** ** Synchronizing into a keyed registry *)

Section KeyedRegistry.

Import KeyedHost.

Implicit Types (h : KeyedHost.t) (d : Descriptor) (w : World KeyedHost.t).

Lemma upsert_row_again d d' old :
  upsert_row d (Some (upsert_row d' old)) = upsert_row d old.
Proof. destruct old; reflexivity. Qed.

Lemma upserts_entity_states ds h :
  entity_states (fold_left upsert ds h) = entity_states h.
Proof. revert h. induction ds as [| d ds IH]; intros h; [reflexivity |]. cbn. now rewrite IH. Qed.

Lemma upserts_lookup ds h k :
  registry (fold_left upsert ds h) !! k
  = match last_upsert k ds with
    | Some d => Some (upsert_row d (registry h !! k))
    | None => registry h !! k
    end.
Proof.
  revert h. induction ds as [| d ds IH]; intros h; [reflexivity |].
  cbn [fold_left last_upsert]. rewrite IH. unfold upsert at 1 2. cbn [registry].
  destruct (String.eqb_spec (deviceId d) k) as [-> | Hne].
  - rewrite lookup_insert_eq.
    destruct (last_upsert _ ds); [| reflexivity].
    now rewrite upsert_row_again.
  - rewrite lookup_insert_ne by exact Hne.
    now destruct (last_upsert k ds).
Qed.

Lemma upserts_idempotent ds h :
  fold_left upsert ds (fold_left upsert ds h) = fold_left upsert ds h.
Proof.
  assert (Hreg : registry (fold_left upsert ds (fold_left upsert ds h))
                 = registry (fold_left upsert ds h)).
  { apply map_eq. intros k. rewrite (upserts_lookup ds (fold_left upsert ds h)).
    rewrite (upserts_lookup ds h).
    destruct (last_upsert k ds); [| reflexivity].
    now rewrite upsert_row_again. }
  pose proof (upserts_entity_states ds (fold_left upsert ds h)) as Hent.
  destruct (fold_left upsert ds (fold_left upsert ds h)) as [r e].
  destruct (fold_left upsert ds h) as [r' e'].
  cbn in *. congruence.
Qed.

Lemma host_after_sync_upserts devices h :
  host_after_sync devices h = fold_left upsert (map sync_descriptor devices) h.
Proof.
  unfold host_after_sync. revert h.
  induction devices as [| device rest IH]; intros h; [reflexivity |].
  cbn. apply IH.
Qed.

Lemma host_after_sync_idempotent devices h :
  host_after_sync devices (host_after_sync devices h) = host_after_sync devices h.
Proof. rewrite !host_after_sync_upserts. apply upserts_idempotent. Qed.

Lemma store_empty_or_not (st : option (list Row)) : st = Some [] \/ st <> Some [].
Proof. destruct st as [[| r t] |]; [now left | right; discriminate | right; discriminate]. Qed.

Lemma same_setting_after_empty_sync w w1 :
  deviceStore w = Some [] -> deviceStore w1 = Some [] -> host w1 = host w ->
  same_setting w w1.
Proof. intros Hst Hst1 Hh. split; [congruence |]. rewrite Hst, Hst1. tauto. Qed.

(** The synchronizer never removes a registry row: it only upserts. *)
Lemma sync_never_removes_registry_rows
    (ecp : string -> Result DeviceInfo) (clock : nat -> string) w k :
  registry (host w) !! k <> None ->
  registry (host (snd (syncDevicesToRegistry ecp clock w))) !! k <> None.
Proof.
  intros Hk.
  destruct (syncDevicesToRegistry_spec ecp clock w) as (w' & Hrun & _ & Hh & _).
  rewrite Hrun. cbn [snd]. rewrite Hh, host_after_sync_upserts, upserts_lookup.
  destruct (last_upsert k _); [discriminate | exact Hk].
Qed.

(** C7: running the synchronizer a second time, with nothing changed in
    between, leaves the registry exactly as the first run left it - no row
    is added or altered - and broadcasts nothing; but the second run does
    write again: it re-issues one registry upsert for every device of the
    local table. *)
Theorem resync_keeps_registry_but_writes_again
    (ecp : string -> Result DeviceInfo) (clock : nat -> string) w :
  let w1 := snd (syncDevicesToRegistry ecp clock w) in
  let w2 := snd (syncDevicesToRegistry ecp clock w1) in
  fst (syncDevicesToRegistry ecp clock w) = Ok tt
  /\ fst (syncDevicesToRegistry ecp clock w1) = Ok tt
  /\ host w2 = host w1
  /\ broadcasts w2 = broadcasts w
  /\ register_calls w2
     = (register_calls w1
        ++ map sync_descriptor (map row_data (default [] (deviceStore w1))))%list.
Proof.
  destruct (syncDevicesToRegistry_spec ecp clock w)
    as (w1 & Hrun1 & Hrc1 & Hh1 & Hbc1 & Hsame1 & Hrec1).
  rewrite Hrun1. cbn [fst snd].
  destruct (syncDevicesToRegistry_spec ecp clock w1)
    as (w2 & Hrun2 & Hrc2 & Hh2 & Hbc2 & Hsame2 & Hrec2).
  rewrite Hrun2. cbn [fst snd].
  assert (Hrows : default [] (deviceStore w2) = default [] (deviceStore w1)).
  { destruct (store_empty_or_not (deviceStore w1)) as [Hempty | Hfull].
    - rewrite Hempty in *. cbn in Hh1, Hrec1 |- *.
      destruct (store_empty_or_not (deviceStore w)) as [Hempty0 | Hfull0].
      + pose proof (recovered_count_unique ecp clock w w1 _ _
                      (same_setting_after_empty_sync w w1 Hempty0 Hempty Hh1)
                      (Hrec1 Hempty0) (Hrec2 eq_refl)) as Hlen.
        cbn in Hlen. symmetry in Hlen. now apply length_zero_iff_nil in Hlen.
      + rewrite (Hsame1 Hfull0) in Hfull0. contradiction.
    - now rewrite (Hsame2 Hfull). }
  rewrite Hrows in *.
  repeat split; try congruence.
  rewrite Hh2, Hh1. apply host_after_sync_idempotent.
Qed.

End KeyedRegistry.

Example poll_entity_id_den : poll_entity_id "The Den!" = "media_player.the_den".
Proof. reflexivity. Qed.

(** ** Worked examples *)

(** C7, as stated, fails: with one device in the local table, the second
    run issues a second registry upsert for it. *)
Lemma resync_is_not_silent :
  ~ resync_is_silent Samples.ecp Samples.clock Samples.den_world.
Proof.
  intros (_ & Hcalls & _).
  apply (f_equal (@length Descriptor)) in Hcalls.
  vm_compute in Hcalls. discriminate Hcalls.
Qed.


(** C8: recovery's enumeration never selects an entity-state row keyed the
    way the poll adapter keys it, [media_player.<slug>]: the [LIKE] filter
    rejects the key and the loop skips it.  With such a row alone recovery
    finds nothing, where the same row under the older
    [roku.<slug>.<signal>] key recovers the device. *)
Theorem recovery_ignores_poll_adapter_entities :
  (forall deviceName deviceMap i d1 d2 d3 n f,
     KeyedHost.like "roku.%" (poll_entity_id deviceName) = false
     /\ collect_slug deviceMap
          (mkEntityRow (Some (poll_entity_id deviceName)) i d1 d2 d3 n f)
        = deviceMap)
  /\ fst (recoverDevicesFromEntityStates Samples.ecp Samples.clock
            (Samples.wiped_world (poll_entity_id "Den"))) = Ok []
  /\ map fst (collect_slugs [Samples.den_entity "roku.den.power"]) = ["den"]
  /\ (exists d,
        fst (recoverDevicesFromEntityStates Samples.ecp Samples.clock
               (Samples.wiped_world "roku.den.power")) = Ok [d]
        /\ device_id d = "roku:X1").
Proof.
  split; [| split; [| split]].
  - intros deviceName deviceMap i d1 d2 d3 n f. split; [reflexivity |].
    unfold collect_slug, poll_entity_id. simpl.
    destruct (split_dot _) as [| part rest]; reflexivity.
  - vm_compute. reflexivity.
  - vm_compute. reflexivity.
  - eexists. split; vm_compute; reflexivity.
Qed.

(** The candidate carries Den's serial number but Loft's address and MAC
    address: it still resolves to Den. *)
Lemma findExistingRoku_serial_priority_witness :
  (deviceStore Samples.world = Some Samples.table
   /\ "X1" <> ""
   /\ In (mkRow 2 Samples.den) Samples.table
   /\ serial_number (mkRow 2 Samples.den) = Some "X1")
  /\ fst (findExistingRoku (Some "X1") (Some "10-20-30-40-50-60") "192.168.1.77"
            Samples.world)
     = Ok (Some (mkRow 2 Samples.den)).
Proof.
  assert (Hne : "X1" <> "") by discriminate.
  assert (Hin : In (mkRow 2 Samples.den) Samples.table) by (right; left; reflexivity).
  split; [repeat split; auto |].
  destruct (findExistingRoku_serial_priority Samples.world Samples.table "X1"
              (Some "10-20-30-40-50-60") "192.168.1.77" (mkRow 2 Samples.den)
              eq_refl Hne Hin eq_refl)
    as (r' & pre & post & Hres & _ & _ & _ & Huniq).
  rewrite Hres, Huniq; [reflexivity |].
  intros d [<- | [<- | []]]; [discriminate | reflexivity].
Defined.


(** Den, recorded at 192.168.1.50, is discovered at 192.168.1.77. *)
Lemma handleDiscoveredCandidate_known_device_witness :
  (deviceStore Samples.den_world = Some Samples.den_table
   /\ NoDup (map row_id Samples.den_table)
   /\ NoDup (map (fun r : Row => device_id r) Samples.den_table)
   /\ Js.or_else (c_ip Samples.moved_candidate) (c_ip_address Samples.moved_candidate)
      = Some "192.168.1.77"
   /\ Samples.ecp "192.168.1.77" = Ok Samples.den_info
   /\ fst (findExistingRoku (serialNumber Samples.den_info) None "192.168.1.77"
             Samples.den_world) = Ok (Some (mkRow 1 Samples.den)))
  /\ exists pre post updated w',
       Samples.den_table = (pre ++ mkRow 1 Samples.den :: post)%list
       /\ handleDiscoveredCandidate Samples.ecp Samples.clock true
            Samples.moved_candidate Samples.den_world
          = (Ok (claim_existing (mkRow 1 Samples.den)), w')
       /\ deviceStore w' = Some (pre ++ mkRow 1 updated :: post)%list
       /\ ("192.168.1.50" <> "192.168.1.77" ->
           moved_record Samples.den "192.168.1.77"
             (Samples.clock 0) (Samples.clock 1) updated
           /\ broadcasts w'
              = [IpChanged "roku:X1" "Den" "192.168.1.50" "192.168.1.77"])
       /\ ("192.168.1.50" = "192.168.1.77" ->
           refreshed_record Samples.den (Samples.clock 0) updated
           /\ broadcasts w' = []).
Proof.
  assert (Hpk : NoDup (map row_id Samples.den_table))
    by (repeat constructor; set_solver).
  assert (Hid : NoDup (map (fun r : Row => device_id r) Samples.den_table))
    by (repeat constructor; set_solver).
  assert (Hfind : fst (findExistingRoku (serialNumber Samples.den_info) None
                         "192.168.1.77" Samples.den_world)
                  = Ok (Some (mkRow 1 Samples.den)))
    by (vm_compute; reflexivity).
  split; [repeat split; auto |].
  apply (handleDiscoveredCandidate_known_device Samples.ecp Samples.clock true
           Samples.moved_candidate Samples.den_world Samples.den_table
           "192.168.1.77" Samples.den_info (mkRow 1 Samples.den)
           eq_refl Hpk Hid eq_refl eq_refl Hfind).
  intros _. reflexivity.
Defined.

(** C4, as stated, fails.  Den, recorded at 192.168.1.50, is discovered
    at 192.168.1.77.  When the registry refuses the upsert, Den's row is
    moved but no IP-changed event is broadcast; and when an older row has
    Den's device id, it is that row which is moved, not the matched one. *)
Lemma known_device_move_not_as_claimed :
  (fst (findExistingRoku (serialNumber Samples.den_info) None "192.168.1.77"
          (Samples.den_outage_world 1)) = Ok (Some (mkRow 1 Samples.den))
   /\ ip_address Samples.den <> "192.168.1.77"
   /\ ~ moved_as_claimed (Samples.den_outage_world 1)
         (snd (handleDiscoveredCandidate Samples.ecp Samples.clock true
                 Samples.moved_candidate (Samples.den_outage_world 1)))
         (mkRow 1 Samples.den) "192.168.1.77")
  /\ (fst (findExistingRoku (serialNumber Samples.den_info) None "192.168.1.77"
             Samples.twin_world) = Ok (Some (mkRow 2 Samples.den))
      /\ ip_address Samples.den <> "192.168.1.77"
      /\ ~ moved_as_claimed Samples.twin_world
            (snd (handleDiscoveredCandidate Samples.ecp Samples.clock true
                    Samples.moved_candidate Samples.twin_world))
            (mkRow 2 Samples.den) "192.168.1.77").
Proof.
  split; (split; [vm_compute; reflexivity |]); (split; [discriminate |]).
  - intros [_ Hbc]. vm_compute in Hbc. discriminate Hbc.
  - intros [(tbl' & updated & Hst & Hin & Hip) _].
    vm_compute in Hst. injection Hst as <-.
    destruct Hin as [Heq | [Heq | []]].
    + discriminate Heq.
    + injection Heq as <-. discriminate Hip.
Qed.

(** The registry remembers Den at an address that does not answer: the
    iteration for its slug adds nothing. *)
Lemma recovery_only_adds_verified_devices_witness :
  (fst (recover_ip Samples.den_slug Samples.stale_world) = Ok (Some "192.168.1.50")
   /\ Samples.ecp "192.168.1.50" = Throw "Request timeout")
  /\ exists w',
       recover_one Samples.ecp Samples.clock [] Samples.den_slug Samples.stale_world
       = (Ok [], w')
       /\ deviceStore w' = deviceStore Samples.stale_world.
Proof.
  assert (Hip : fst (recover_ip Samples.den_slug Samples.stale_world)
                = Ok (Some "192.168.1.50")) by (vm_compute; reflexivity).
  split; [split; [exact Hip | reflexivity] |].
  exact (proj2 (recovery_only_adds_verified_devices Samples.ecp Samples.clock)
           [] Samples.den_slug Samples.stale_world "192.168.1.50" "Request timeout"
           Hip eq_refl).
Defined.

(** The registry is unavailable for the first upsert: Loft's failure is
    logged as a warning. *)
Lemma sync_failure_does_not_stop_the_loop_witness :
  fst (registerDevice (host (Samples.outage_world 1)) (sync_descriptor Samples.loft))
  = Throw "registry unavailable"
  /\ exists w',
       sync_one Samples.loft (Samples.outage_world 1) = (Ok tt, w')
       /\ last (logs w') = Some (LogSyncError "Loft" "registry unavailable", warn).
Proof.
  split; [reflexivity |].
  exact (proj2 sync_failure_does_not_stop_the_loop
           Samples.loft (Samples.outage_world 1) "registry unavailable" eq_refl).
Defined.

(** With the registry unavailable for the first upsert, both devices are
    still attempted, and each is reported on. *)
Example sync_survives_an_outage :
  let w' := snd (for_each [Samples.loft; Samples.den] sync_one (Samples.outage_world 1)) in
  map deviceId (register_calls w') = ["roku:Y2"; "roku:X1"]
  /\ sync_reports (logs w') = [("Loft", false); ("Den", true)].
Proof. vm_compute. split; reflexivity. Qed.

(** * Further properties *)

(** ** Power state and main state *)

Lemma or_default_empty (s : string) : Js.or_default (Some s) "" = s.
Proof.
  unfold Js.or_default, Js.or_else, Js.truthy.
  destruct (String.eqb_spec s "") as [-> | _]; reflexivity.
Qed.

Lemma lower_upper_ascii (c : ascii) :
  Js.lower_ascii (Js.upper_ascii c) = Js.lower_ascii c.
Proof.
  assert (Hall : forallb (fun c => Ascii.eqb (Js.lower_ascii (Js.upper_ascii c))
                                    (Js.lower_ascii c)) all_ascii = true)
    by (vm_compute; reflexivity).
  rewrite forallb_forall in Hall.
  now apply Ascii.eqb_eq, Hall, all_ascii_complete.
Qed.

Lemma lower_lower_ascii (c : ascii) :
  Js.lower_ascii (Js.lower_ascii c) = Js.lower_ascii c.
Proof.
  assert (Hall : forallb (fun c => Ascii.eqb (Js.lower_ascii (Js.lower_ascii c))
                                    (Js.lower_ascii c)) all_ascii = true)
    by (vm_compute; reflexivity).
  rewrite forallb_forall in Hall.
  now apply Ascii.eqb_eq, Hall, all_ascii_complete.
Qed.

Lemma toLowerCase_toUpperCase (s : string) :
  Js.toLowerCase (Js.toUpperCase s) = Js.toLowerCase s.
Proof.
  induction s as [| c s IH]; [reflexivity |].
  cbn. f_equal; [apply lower_upper_ascii | exact IH].
Qed.

Lemma toLowerCase_idempotent (s : string) :
  Js.toLowerCase (Js.toLowerCase s) = Js.toLowerCase s.
Proof.
  induction s as [| c s IH]; [reflexivity |].
  cbn. f_equal; [apply lower_lower_ascii | exact IH].
Qed.

(** X1: the interpreter does not depend on the case of an ASCII raw
    power mode: such a mode in upper case or in lower case is interpreted
    like the mode itself.  (Beyond ASCII JavaScript's [toUpperCase] can
    create ASCII letters, so the statement is made for ASCII modes.) *)
Theorem interpretPowerState_ignores_case :
  forall (s : string) (activeApp : option ActiveApp),
    is_ascii s = true ->
    interpretPowerState (Some (Js.toUpperCase s)) activeApp
    = interpretPowerState (Some s) activeApp
    /\ interpretPowerState (Some (Js.toLowerCase s)) activeApp
       = interpretPowerState (Some s) activeApp.
Proof.
  intros s activeApp _. unfold interpretPowerState.
  rewrite !or_default_empty, toLowerCase_toUpperCase, toLowerCase_idempotent.
  split; reflexivity.
Qed.

Lemma interpretPowerState_cases (rawPowerMode : option string)
    (activeApp : option ActiveApp) :
  interpretPowerState rawPowerMode activeApp = "on"
  \/ interpretPowerState rawPowerMode activeApp = "standby".
Proof.
  unfold interpretPowerState.
  repeat match goal with
         | |- context [if ?b then _ else _] => destruct b
         end; auto.
Qed.

Lemma interpretPowerState_awake (rawPowerMode : option string)
    (activeApp : option ActiveApp) :
  interpretPowerState rawPowerMode activeApp
  = (if awake_mode rawPowerMode
     then if is_screensaver activeApp then "standby" else "on"
     else interpretPowerState rawPowerMode None).
Proof.
  unfold interpretPowerState, awake_mode.
  set (mode := Js.toLowerCase (Js.or_default rawPowerMode "")).
  destruct (String.eqb_spec mode "standby") as [-> | _]; [reflexivity |].
  destruct (String.eqb_spec mode "displayoff") as [-> | _]; [reflexivity |].
  destruct (String.eqb_spec mode "display off") as [-> | _]; [reflexivity |].
  destruct (String.eqb_spec mode "ready") as [-> | _]; [reflexivity |].
  destruct (String.eqb_spec mode "headless") as [-> | _]; [reflexivity |].
  destruct (String.eqb_spec mode "poweron") as [-> | _]; [reflexivity |].
  destruct (String.eqb_spec mode "power on") as [-> | _]; reflexivity.
Qed.

(** X2: the active app matters only in the modes in which the display is
    on (Headless, PowerOn): there the state is standby exactly when a
    screensaver runs.  In every other mode the answer is the same for all
    apps, and a missing or empty mode is on even under a screensaver. *)
Theorem interpretPowerState_active_app :
  forall (rawPowerMode : option string) (activeApp : option ActiveApp),
    interpretPowerState rawPowerMode activeApp
    = (if awake_mode rawPowerMode
       then if is_screensaver activeApp then "standby" else "on"
       else interpretPowerState rawPowerMode None)
    /\ interpretPowerState None activeApp = "on"
    /\ interpretPowerState (Some "") activeApp = "on".
Proof.
  intros rawPowerMode activeApp.
  split; [apply interpretPowerState_awake | split; reflexivity].
Qed.

(** X3: the main state of the polled entity is off exactly when the
    interpreted power state is standby; it is idle only under a screensaver
    in a mode the interpreter does not recognise (in Headless and PowerOn a
    screensaver gives off), and playing only for a named app other than
    Home. *)
Theorem main_state_of_poll :
  forall (rawPowerMode : option string) (activeApp : option ActiveApp),
    let powerState := interpretPowerState rawPowerMode activeApp in
    let state := main_state powerState activeApp in
    (state = "off" <-> powerState = "standby")
    /\ (state = "off" \/ state = "idle" \/ state = "playing" \/ state = "on")
    /\ (state = "idle" ->
        is_screensaver activeApp = true /\ awake_mode rawPowerMode = false)
    /\ (state = "playing" ->
        is_screensaver activeApp = false
        /\ exists n, active_app_name activeApp = Some n /\ n <> "" /\ n <> "Home").
Proof.
  intros rawPowerMode activeApp powerState state.
  pose proof (interpretPowerState_cases rawPowerMode activeApp) as Hps.
  pose proof (interpretPowerState_awake rawPowerMode activeApp) as Happ.
  fold powerState in Hps, Happ.
  subst state. unfold main_state.
  destruct Hps as [Hps | Hps]; rewrite Hps; cbn [String.eqb Ascii.eqb Bool.eqb orb].
  - destruct (is_screensaver activeApp) eqn:Hsaver.
    + repeat split; try discriminate; auto.
      destruct (awake_mode rawPowerMode); [| reflexivity].
      rewrite Happ in Hps. discriminate.
    + destruct (Js.truthy (active_app_name activeApp)) eqn:Hname; cbn [andb].
      * destruct (Js.strict_eq (active_app_name activeApp) (Some "Home")) eqn:Hhome;
          cbn [negb].
        -- repeat split; try discriminate; auto.
        -- repeat split; try discriminate; auto.
           destruct (active_app_name activeApp) as [n |]; [| discriminate].
           exists n. split; [reflexivity |]. split.
           ++ intros ->. discriminate.
           ++ intros ->. discriminate.
      * repeat split; try discriminate; auto.
  - repeat split; try discriminate; auto.
Qed.

(** ** The slug of an entity id *)

Lemma for_all_ascii (p : ascii -> bool) :
  forallb p all_ascii = true -> forall c, p c = true.
Proof.
  intros Hall c. rewrite forallb_forall in Hall.
  apply Hall, all_ascii_complete.
Qed.

Lemma lower_alnum_not_underscore (c : ascii) :
  is_lower_alnum c = true -> Ascii.eqb c "_" = false.
Proof.
  pose proof (for_all_ascii
                (fun c => implb (is_lower_alnum c) (negb (Ascii.eqb c "_")))
                ltac:(vm_compute; reflexivity) c) as Hc.
  cbv beta in Hc. intros Hal. rewrite Hal in Hc.
  now destruct (Ascii.eqb c "_").
Qed.

Lemma lower_ascii_slug_char (c : ascii) :
  is_lower_alnum c || Ascii.eqb c "_" = true -> Js.lower_ascii c = c.
Proof.
  pose proof (for_all_ascii
                (fun c => implb (is_lower_alnum c || Ascii.eqb c "_")
                                (Ascii.eqb (Js.lower_ascii c) c))
                ltac:(vm_compute; reflexivity) c) as Hc.
  cbv beta in Hc. intros Hal. rewrite Hal in Hc. now apply Ascii.eqb_eq.
Qed.

Lemma squash_well (b : bool) (s : string) :
  well_squashed b (squash_non_alnum b s) = true.
Proof.
  revert b. induction s as [| c s IH]; intros b; [reflexivity |].
  cbn [squash_non_alnum].
  destruct (is_lower_alnum c) eqn:Hc.
  - cbn [well_squashed]. rewrite (lower_alnum_not_underscore c Hc), Hc. apply IH.
  - destruct b; [apply IH |].
    cbn [well_squashed]. rewrite Ascii.eqb_refl. apply IH.
Qed.

Lemma well_squashed_weaken (b : bool) (s : string) :
  well_squashed true s = true -> well_squashed b s = true.
Proof.
  destruct s as [| c s]; [reflexivity |]. cbn [well_squashed].
  destruct (Ascii.eqb c "_"); [cbn [negb andb]; discriminate | auto].
Qed.

Lemma strip_leading_well (s : string) :
  well_squashed false s = true ->
  well_squashed true (strip_leading_underscore s) = true.
Proof.
  destruct s as [| c s]; [reflexivity |].
  cbn [strip_leading_underscore well_squashed].
  destruct (Ascii.eqb c "_") eqn:Hc; [auto |].
  intros Hs. cbn [well_squashed]. now rewrite Hc.
Qed.

Lemma well_squashed_no_leading (s : string) :
  well_squashed true s = true -> Js.startsWith "_" s = false.
Proof.
  destruct s as [| c s]; [reflexivity |].
  cbn [well_squashed Js.startsWith]. rewrite (Ascii.eqb_sym "_" c).
  destruct (Ascii.eqb c "_"); [cbn [negb andb]; discriminate | reflexivity].
Qed.

Lemma strip_trailing_cons (c d : ascii) (s : string) :
  strip_trailing_underscore (String c (String d s))
  = String c (strip_trailing_underscore (String d s)).
Proof. reflexivity. Qed.

Lemma strip_trailing_head (d : ascii) (s : string) :
  Ascii.eqb d "_" = false ->
  exists t, strip_trailing_underscore (String d s) = String d t.
Proof.
  intros Hd. destruct s as [| e s].
  - exists "". cbn. now rewrite Hd.
  - eexists. apply strip_trailing_cons.
Qed.

Lemma strip_trailing_well (b : bool) (s : string) :
  well_squashed b s = true ->
  well_squashed b (strip_trailing_underscore s) = true
  /\ ends_with_underscore (strip_trailing_underscore s) = false.
Proof.
  revert b. induction s as [| c s IH]; intros b Hs; [split; reflexivity |].
  destruct s as [| d s].
  - cbn [strip_trailing_underscore].
    destruct (Ascii.eqb c "_") eqn:Hc; [split; reflexivity |].
    split; [exact Hs | exact Hc].
  - rewrite strip_trailing_cons. cbn [well_squashed] in Hs |- *.
    destruct (Ascii.eqb c "_") eqn:Hc.
    + apply andb_true_iff in Hs as [Hb Hs].
      destruct (IH true Hs) as [Hw He]. rewrite Hb, Hw. split; [reflexivity |].
      assert (Hd : Ascii.eqb d "_" = false).
      { cbn [well_squashed] in Hs. now destruct (Ascii.eqb d "_"). }
      destruct (strip_trailing_head d s Hd) as [t Ht].
      rewrite Ht in He |- *. exact He.
    + apply andb_true_iff in Hs as [Hal Hs].
      destruct (IH false Hs) as [Hw He]. rewrite Hal, Hw. split; [reflexivity |].
      destruct (strip_trailing_underscore (String d s)) as [| e t] eqn:Ht.
      * cbn. exact Hc.
      * exact He.
Qed.

Lemma well_squashed_chars (b : bool) (s : string) :
  well_squashed b s = true ->
  all_chars (fun c => is_lower_alnum c || Ascii.eqb c "_") s = true.
Proof.
  revert b. induction s as [| c s IH]; intros b; [reflexivity |].
  cbn [well_squashed all_chars].
  destruct (Ascii.eqb c "_").
  - rewrite orb_true_r. intros Hs. apply andb_true_iff in Hs as [_ Hs]. eauto.
  - rewrite orb_false_r. intros Hs. apply andb_true_iff in Hs as [-> Hs]. eauto.
Qed.

Lemma well_squashed_no_double (b : bool) (s : string) :
  well_squashed b s = true -> Js.includes "__" s = false.
Proof.
  revert b. induction s as [| c s IH]; intros b; [reflexivity |].
  cbn [well_squashed Js.includes].
  destruct (Ascii.eqb c "_") eqn:Hc.
  - intros Hs. apply andb_true_iff in Hs as [_ Hs].
    rewrite (IH true Hs), orb_false_r.
    cbn [Js.startsWith]. rewrite (Ascii.eqb_sym "_" c), Hc.
    apply (well_squashed_no_leading s Hs).
  - intros Hs. apply andb_true_iff in Hs as [_ Hs].
    rewrite (IH false Hs), orb_false_r.
    cbn [Js.startsWith]. now rewrite (Ascii.eqb_sym "_" c), Hc.
Qed.

Lemma entity_slug_well (deviceName : string) :
  well_squashed true (entity_slug deviceName) = true
  /\ ends_with_underscore (entity_slug deviceName) = false.
Proof.
  unfold entity_slug. apply strip_trailing_well, strip_leading_well, squash_well.
Qed.

Lemma well_squashed_lower (b : bool) (s : string) :
  well_squashed b s = true -> Js.toLowerCase s = s.
Proof.
  intros Hs. apply well_squashed_chars in Hs.
  induction s as [| c s IH]; [reflexivity |].
  cbn [all_chars] in Hs. apply andb_true_iff in Hs as [Hc Hs].
  cbn. f_equal; [now apply lower_ascii_slug_char | auto].
Qed.

Lemma well_squashed_fixed (b : bool) (s : string) :
  well_squashed b s = true -> squash_non_alnum b s = s.
Proof.
  revert b. induction s as [| c s IH]; intros b; [reflexivity |].
  cbn [well_squashed squash_non_alnum].
  destruct (Ascii.eqb c "_") eqn:Hc.
  - apply Ascii.eqb_eq in Hc. subst c.
    intros Hs. apply andb_true_iff in Hs as [Hb Hs].
    destruct b; [discriminate |].
    change (is_lower_alnum "_") with false. cbn iota. f_equal. now apply IH.
  - intros Hs. apply andb_true_iff in Hs as [Hal Hs].
    rewrite Hal. f_equal. now apply IH.
Qed.

Lemma strip_trailing_fixed (s : string) :
  ends_with_underscore s = false -> strip_trailing_underscore s = s.
Proof.
  induction s as [| c s IH]; [reflexivity |].
  destruct s as [| d s].
  - cbn. now intros ->.
  - intros Hs. rewrite strip_trailing_cons. f_equal. now apply IH.
Qed.

Lemma strip_leading_fixed (s : string) :
  Js.startsWith "_" s = false -> strip_leading_underscore s = s.
Proof.
  destruct s as [| c s]; [reflexivity |].
  cbn [strip_leading_underscore Js.startsWith]. rewrite (Ascii.eqb_sym "_" c).
  now destruct (Ascii.eqb c "_").
Qed.

(** X4: the slug the poll adapter derives from any device name holds
    only lowercase letters, digits and underscores, neither begins nor ends
    with an underscore and has no two underscores in a row; and deriving
    the slug of a slug changes nothing. *)
Theorem entity_slug_is_slug :
  forall deviceName : string,
    is_slug (entity_slug deviceName) = true
    /\ entity_slug (entity_slug deviceName) = entity_slug deviceName.
Proof.
  intros deviceName.
  destruct (entity_slug_well deviceName) as [Hw He].
  split.
  - unfold is_slug.
    rewrite (well_squashed_chars _ _ Hw), (well_squashed_no_leading _ Hw), He,
      (well_squashed_no_double _ _ Hw).
    reflexivity.
  - set (s := entity_slug deviceName) in *. unfold entity_slug.
    rewrite (well_squashed_lower _ _ Hw).
    rewrite (well_squashed_fixed false s (well_squashed_weaken false s Hw)).
    rewrite (strip_leading_fixed s (well_squashed_no_leading s Hw)).
    now apply strip_trailing_fixed.
Qed.

Example entity_slug_samples :
  entity_slug "  Living Room TV (4K)  " = "living_room_tv_4k"
  /\ entity_slug "___" = "" /\ entity_slug "" = "".
Proof. repeat split; reflexivity. Qed.

(** ** Device ids and their serial numbers *)

Lemma append_cons (c : ascii) (p s : string) :
  String c p ++ s = String c (p ++ s).
Proof. reflexivity. Qed.

Lemma append_nil (s : string) : "" ++ s = s.
Proof. reflexivity. Qed.

Lemma toLowerCase_roku (p : string) :
  Js.toLowerCase p = "roku" ->
  exists r o k u, p = String r (String o (String k (String u ""))).
Proof.
  destruct p as [| r [| o [| k [| u [| x p]]]]]; try discriminate.
  intros _. now exists r, o, k, u.
Qed.

Lemma serial_of_device_id_match (id s : string) :
  serial_of_device_id id = Some s
  <-> exists (p : string) (sep : ascii),
        id = p ++ String sep s
        /\ Js.toLowerCase p = "roku"
        /\ (sep = ":"%char \/ sep = "-"%char)
        /\ is_serial s = true.
Proof.
  split.
  - destruct id as [| r [| o [| k [| u [| sep rest]]]]]; try discriminate.
    unfold serial_of_device_id.
    destruct (String.eqb_spec
                (Js.toLowerCase (String r (String o (String k (String u ""))))) "roku")
      as [Hp | _]; [| discriminate].
    destruct (Ascii.eqb sep ":" || Ascii.eqb sep "-") eqn:Hsep; [| discriminate].
    destruct (negb (String.eqb rest "")) eqn:Hrest; [| discriminate].
    destruct (no_line_terminator rest) eqn:Hline; [| discriminate].
    cbn [andb]. intros [= <-].
    exists (String r (String o (String k (String u "")))), sep.
    repeat split; auto.
    + apply orb_true_iff in Hsep as [Hsep | Hsep]; apply Ascii.eqb_eq in Hsep; auto.
    + unfold is_serial. now rewrite Hrest, Hline.
  - intros (p & sep & -> & Hp & Hsep & Hserial).
    destruct (toLowerCase_roku p Hp) as (r & o & k & u & ->).
    rewrite !append_cons, append_nil. unfold serial_of_device_id.
    rewrite Hp, String.eqb_refl.
    unfold is_serial in Hserial. apply andb_true_iff in Hserial as [-> ->].
    destruct Hsep as [-> | ->]; reflexivity.
Qed.

(** X5: an ASCII device id carries a serial number exactly when it reads
    [roku], in any case, then a colon or a hyphen, then a non-empty serial
    number on one line; the serial number is then what follows the
    delimiter.  (Beyond ASCII the [.] of the pattern also stops at U+2028
    and U+2029, so the statement is made for ASCII ids.) *)
Theorem serial_of_device_id_spec :
  forall id s : string,
    is_ascii id = true ->
    (serial_of_device_id id = Some s
     <-> exists (p : string) (sep : ascii),
           id = p ++ String sep s
           /\ Js.toLowerCase p = "roku"
           /\ (sep = ":"%char \/ sep = "-"%char)
           /\ is_serial s = true).
Proof. intros id s _. apply serial_of_device_id_match. Qed.

Lemma serial_of_canonical (s : string) :
  serial_of_device_id ("roku:" ++ s) = if is_serial s then Some s else None.
Proof.
  rewrite !append_cons, append_nil. unfold serial_of_device_id, is_serial.
  change (Js.toLowerCase "roku") with "roku". rewrite String.eqb_refl.
  cbn [Ascii.eqb Bool.eqb orb andb].
  destruct (negb (String.eqb s "")), (no_line_terminator s); reflexivity.
Qed.

Lemma serial_of_device_id_is_serial (id s : string) :
  serial_of_device_id id = Some s -> is_serial s = true.
Proof.
  destruct id as [| r [| o [| k [| u [| sep rest]]]]]; try discriminate.
  unfold serial_of_device_id, is_serial.
  destruct (String.eqb _ "roku"), (Ascii.eqb sep ":" || Ascii.eqb sep "-"),
    (negb (String.eqb rest "")) eqn:Hrest, (no_line_terminator rest) eqn:Hline;
    cbn [andb]; try discriminate.
  intros [= <-]. now rewrite Hrest, Hline.
Qed.

Lemma is_serial_truthy (s : string) : is_serial s = true -> Js.truthy (Some s) = true.
Proof. unfold is_serial. cbn. now destruct (negb (String.eqb s "")). Qed.

Lemma with_device_id_same (d : DeviceRecord) : with_device_id (device_id d) d = d.
Proof. now destruct d. Qed.

Lemma normalizedId_cases (d : DeviceRecord) :
  normalizedId d
  = match serial_of_device_id (device_id d) with
    | Some s => "roku:" ++ s
    | None =>
        match serial_number d with
        | Some s => if String.eqb s "" then device_id d else "roku:" ++ s
        | None => device_id d
        end
    end.
Proof.
  unfold normalizedId, sync_serial, Js.or_else.
  destruct (serial_of_device_id (device_id d)) as [s0 |] eqn:Hid.
  - pose proof (is_serial_truthy s0 (serial_of_device_id_is_serial _ _ Hid)) as Ht.
    repeat (rewrite Ht; cbn iota). reflexivity.
  - cbn [Js.truthy]. destruct (serial_number d) as [s |]; [| reflexivity].
    cbn [Js.truthy]. now destruct (String.eqb s "").
Qed.

(** X6: for a device whose id and serial number are ASCII, the
    normalized id is [roku:] followed by the serial number its id carries,
    else by its stored serial number, else the id it has; and a device
    renamed to its normalized id normalizes to the same id again. *)
Theorem normalizedId_canonical :
  forall d : DeviceRecord,
    is_ascii (device_id d) = true ->
    is_ascii (Js.or_default (serial_number d) "") = true ->
    (forall s, serial_of_device_id (device_id d) = Some s ->
               normalizedId d = "roku:" ++ s)
    /\ (serial_of_device_id (device_id d) = None ->
        forall s, serial_number d = Some s -> s <> "" ->
                  normalizedId d = "roku:" ++ s)
    /\ (serial_of_device_id (device_id d) = None ->
        Js.truthy (serial_number d) = false ->
        normalizedId d = device_id d)
    /\ normalizedId (with_device_id (normalizedId d) d) = normalizedId d.
Proof.
  intros d _ _. split; [| split; [| split]].
  - intros s Hs. now rewrite normalizedId_cases, Hs.
  - intros Hnone s Hs Hne. rewrite normalizedId_cases, Hnone, Hs.
    now destruct (String.eqb_spec s "").
  - intros Hnone Hfalsy. rewrite normalizedId_cases, Hnone.
    destruct (serial_number d) as [s |]; [| reflexivity].
    cbn [Js.truthy] in Hfalsy. now destruct (String.eqb s "").
  - rewrite (normalizedId_cases (with_device_id _ d)).
    cbn [device_id serial_number with_device_id].
    rewrite (normalizedId_cases d).
    destruct (serial_of_device_id (device_id d)) as [s0 |] eqn:Hid.
    + rewrite serial_of_canonical.
      now rewrite (serial_of_device_id_is_serial _ _ Hid).
    + destruct (serial_number d) as [s |] eqn:Hsn; [| now rewrite Hid].
      destruct (String.eqb s "") eqn:Hempty; [now rewrite Hid |].
      rewrite serial_of_canonical.
      destruct (is_serial s); reflexivity.
Qed.

(** ** The device store *)

Lemma fresh_pk_fresh (t : list Row) : ~ In (fresh_pk t) (map row_id t).
Proof.
  unfold fresh_pk. intros Hin.
  assert (Hle : Forall (fun k => k <= list_max (map row_id t)) (map row_id t))
    by now apply list_max_le.
  rewrite List.Forall_forall in Hle. apply Hle in Hin. lia.
Qed.

Lemma update_rows_ids (pk : nat) (data : Patch) (t : list Row) :
  map row_id (update_rows pk data t) = map row_id t
  /\ map (fun r : Row => device_id r) (update_rows pk data t)
     = map (fun r : Row => device_id r) t
  /\ length (update_rows pk data t) = length t.
Proof.
  unfold update_rows. induction t as [| r t (IH1 & IH2 & IH3)]; [auto |].
  cbn [map length]. rewrite IH1, IH2, IH3.
  destruct (Nat.eqb (row_id r) pk); auto.
Qed.

Lemma update_rows_other (pk : nat) (data : Patch) (t : list Row) (r : Row) :
  In r t -> row_id r <> pk -> In r (update_rows pk data t).
Proof.
  intros Hin Hne. unfold update_rows. apply in_map_iff. exists r.
  split; [| exact Hin].
  now destruct (Nat.eqb_spec (row_id r) pk).
Qed.

Lemma delete_rows_unique (pre post : list Row) (x : Row) :
  NoDup (map row_id (pre ++ x :: post)) ->
  delete_rows (row_id x) (pre ++ x :: post) = (pre ++ post)%list.
Proof.
  intros Hnd. unfold delete_rows.
  assert (Hother : forall l : list Row, ~ In (row_id x) (map row_id l) ->
            List.filter (fun r => negb (Nat.eqb (row_id r) (row_id x))) l = l).
  { induction l as [| y l IH]; [reflexivity |]. cbn [map List.filter].
    intros Hnot. destruct (Nat.eqb_spec (row_id y) (row_id x)) as [Heq | Hne].
    - exfalso. apply Hnot. now left.
    - cbn [negb]. f_equal. apply IH. intros Hin. apply Hnot. now right. }
  rewrite map_app in Hnd. cbn [map] in Hnd.
  apply NoDup_app in Hnd as (Hpre & Hdisj & Hpost).
  apply NoDup_cons in Hpost as [Hxpost _].
  rewrite List.filter_app. cbn [List.filter]. rewrite Nat.eqb_refl. cbn [negb].
  rewrite !Hother; [reflexivity | |].
  - intros Hin. apply Hxpost. now apply list_elem_of_In.
  - intros Hin. apply (Hdisj (row_id x)); [now apply list_elem_of_In | left].
Qed.

Lemma find_none_key (id : string) (t : list Row) :
  Forall (fun r : Row => device_id r <> id) t ->
  find (fun r : Row => String.eqb (device_id r) id) t = None.
Proof.
  induction 1 as [| r t Hr _ IH]; [reflexivity |]. cbn [find].
  now destruct (String.eqb_spec (device_id r) id).
Qed.

Lemma find_app_miss {X} (p : X -> bool) (l l' : list X) :
  find p l = None -> find p (l ++ l') = find p l'.
Proof.
  induction l as [| x l IH]; [reflexivity |]. cbn [find app].
  destruct (p x); [discriminate | exact IH].
Qed.

Section Store.

Context {H : Type}.
Implicit Types (w : World H) (tbl : list Row).

Lemma getDevice_run w tbl id :
  deviceStore w = Some tbl ->
  getDevice id w = (Ok (find (fun r : Row => String.eqb (device_id r) id) tbl), w).
Proof.
  intros Hstore. unfold getDevice, findAll_where, read_table, bind, ret.
  now rewrite Hstore, head_filter_find.
Qed.

Lemma getDeviceByIp_run w tbl ip :
  deviceStore w = Some tbl ->
  getDeviceByIp ip w = (Ok (find (fun r : Row => String.eqb (ip_address r) ip) tbl), w).
Proof.
  intros Hstore. unfold getDeviceByIp, findAll_where, read_table, bind, ret.
  now rewrite Hstore, head_filter_find.
Qed.

(** X7: a created device can be read back: when no row has its device
    id yet, [createDevice] appends one row under a primary key no other row
    has, and [getDevice] with the device id then returns exactly that
    row. *)
Theorem createDevice_then_getDevice w tbl (data : DeviceRecord) :
  deviceStore w = Some tbl ->
  Forall (fun r : Row => device_id r <> device_id data) tbl ->
  exists row w1,
    createDevice data w = (Ok row, w1)
    /\ row_data row = data
    /\ ~ In (row_id row) (map row_id tbl)
    /\ deviceStore w1 = Some (tbl ++ [row])%list
    /\ getDevice (device_id data) w1 = (Ok (Some row), w1).
Proof.
  intros Hstore Hfresh.
  exists (mkRow (fresh_pk tbl) data).
  unfold createDevice, model_create, read_table, write_table, bind, ret.
  rewrite Hstore. eexists. split; [reflexivity |].
  split; [reflexivity |]. split; [apply fresh_pk_fresh |]. split; [reflexivity |].
  erewrite getDevice_run by reflexivity. f_equal. f_equal.
  rewrite (find_app_miss _ _ _ (find_none_key _ _ Hfresh)). cbn [find row_data device_id].
  now rewrite String.eqb_refl.
Qed.

Lemma updateDevice_store w tbl id (data : Patch) :
  deviceStore w = Some tbl ->
  exists w',
    updateDevice id data w = (Ok tt, w')
    /\ deviceStore w'
       = Some (match find (fun r : Row => String.eqb (device_id r) id) tbl with
               | Some e => update_rows (row_id e) data tbl
               | None => tbl
               end)
    /\ host w' = host w /\ logs w' = logs w /\ broadcasts w' = broadcasts w
    /\ register_calls w' = register_calls w.
Proof.
  intros Hstore. unfold updateDevice, bind at 1.
  rewrite (getDevice_run w tbl id Hstore).
  destruct (find _ tbl) as [e |].
  - unfold model_update, read_table, write_table, bind. rewrite Hstore.
    eexists. split; [reflexivity |]. cbn. repeat split; reflexivity.
  - exists w. cbn. repeat split; auto.
Qed.

Lemma updateDeviceStatus_store w tbl id (data : Patch) :
  deviceStore w = Some tbl ->
  exists w',
    updateDeviceStatus id data w = (Ok tt, w')
    /\ deviceStore w'
       = Some (match find (fun r : Row => String.eqb (device_id r) id) tbl with
               | Some e =>
                   update_rows (row_id e)
                     (match p_metadata data, metadata e with
                      | Some dm, Some em =>
                          mkPatch (p_ip_address data) (p_status data)
                                  (p_last_seen_at data) (Some (dm ∪ em))
                      | _, _ => data
                      end) tbl
               | None => tbl
               end)
    /\ host w' = host w /\ logs w' = logs w /\ broadcasts w' = broadcasts w
    /\ register_calls w' = register_calls w.
Proof.
  intros Hstore. unfold updateDeviceStatus, bind at 1.
  rewrite (getDevice_run w tbl id Hstore).
  destruct (find _ tbl) as [e |].
  - unfold model_update, read_table, write_table, bind. rewrite Hstore.
    eexists. split; [reflexivity |]. cbn. repeat split; reflexivity.
  - exists w. cbn. repeat split; auto.
Qed.

Lemma deleteDevice_store w tbl id :
  deviceStore w = Some tbl ->
  exists w',
    deleteDevice id w = (Ok tt, w')
    /\ deviceStore w'
       = Some (match find (fun r : Row => String.eqb (device_id r) id) tbl with
               | Some e => delete_rows (row_id e) tbl
               | None => tbl
               end)
    /\ host w' = host w /\ logs w' = logs w /\ broadcasts w' = broadcasts w
    /\ register_calls w' = register_calls w.
Proof.
  intros Hstore. unfold deleteDevice, bind at 1.
  rewrite (getDevice_run w tbl id Hstore).
  destruct (find _ tbl) as [e |].
  - unfold model_delete, read_table, write_table, bind. rewrite Hstore.
    eexists. split; [reflexivity |]. cbn. repeat split; reflexivity.
  - exists w. cbn. repeat split; auto.
Qed.

Lemma delete_rows_keys (pk : nat) (t : list Row) :
  NoDup (map row_id t) -> NoDup (map row_id (delete_rows pk t)).
Proof.
  unfold delete_rows. induction t as [| r t IH]; [auto |]. cbn [map List.filter].
  intros Hnd. apply NoDup_cons in Hnd as [Hr Hnd].
  destruct (negb (Nat.eqb (row_id r) pk)); [| auto].
  cbn [map]. apply NoDup_cons. split; [| auto].
  intros Hin. apply Hr. apply list_elem_of_In in Hin. apply list_elem_of_In.
  apply in_map_iff in Hin as (x & Hx & Hin). apply in_map_iff. exists x.
  split; [exact Hx |]. now apply filter_In in Hin.
Qed.

(** X8: the store keeps primary keys unique: after [createDevice],
    [updateDevice], [updateDeviceStatus] or [deleteDevice] on a table with
    unique primary keys, the keys of the table are unique again. *)
Theorem store_keeps_primary_keys_unique w tbl :
  deviceStore w = Some tbl ->
  NoDup (map row_id tbl) ->
  (forall data, exists tbl',
      deviceStore (snd (createDevice data w)) = Some tbl'
      /\ NoDup (map row_id tbl'))
  /\ (forall id data, exists tbl',
        deviceStore (snd (updateDevice id data w)) = Some tbl'
        /\ NoDup (map row_id tbl'))
  /\ (forall id data, exists tbl',
        deviceStore (snd (updateDeviceStatus id data w)) = Some tbl'
        /\ NoDup (map row_id tbl'))
  /\ (forall id, exists tbl',
        deviceStore (snd (deleteDevice id w)) = Some tbl'
        /\ NoDup (map row_id tbl')).
Proof.
  intros Hstore Hnd. split; [| split; [| split]].
  - intros data. unfold createDevice, model_create, read_table, write_table, bind, ret.
    rewrite Hstore. eexists. split; [reflexivity |].
    rewrite map_app. cbn [map row_id]. apply NoDup_app. split; [exact Hnd |].
    split; [| apply NoDup_singleton].
    intros k Hk Hk'. apply list_elem_of_In in Hk.
    apply list_elem_of_singleton in Hk'. subst k.
    now apply (fresh_pk_fresh tbl).
  - intros id data.
    destruct (updateDevice_store w tbl id data Hstore) as (w' & Hrun & Hst & _).
    rewrite Hrun. cbn [snd]. rewrite Hst.
    eexists. split; [reflexivity |].
    destruct (find _ tbl); [| exact Hnd].
    now rewrite (proj1 (update_rows_ids _ _ _)).
  - intros id data.
    destruct (updateDeviceStatus_store w tbl id data Hstore) as (w' & Hrun & Hst & _).
    rewrite Hrun. cbn [snd]. rewrite Hst.
    eexists. split; [reflexivity |].
    destruct (find _ tbl); [| exact Hnd].
    now rewrite (proj1 (update_rows_ids _ _ _)).
  - intros id.
    destruct (deleteDevice_store w tbl id Hstore) as (w' & Hrun & Hst & _).
    rewrite Hrun. cbn [snd]. rewrite Hst.
    eexists. split; [reflexivity |].
    destruct (find _ tbl); [| exact Hnd].
    now apply delete_rows_keys.
Qed.

(** X9: an update never adds or removes a row and never changes a
    primary key or a device id; rows under another primary key than the
    matched row's stay as they are; and an update for a device id no row
    has changes nothing at all. *)
Theorem updateDevice_touches_only_its_row w tbl id (data : Patch) :
  deviceStore w = Some tbl ->
  exists w' tbl',
    updateDevice id data w = (Ok tt, w')
    /\ deviceStore w' = Some tbl'
    /\ map row_id tbl' = map row_id tbl
    /\ map (fun r : Row => device_id r) tbl' = map (fun r : Row => device_id r) tbl
    /\ (forall e r, find (fun r : Row => String.eqb (device_id r) id) tbl = Some e ->
                    In r tbl -> row_id r <> row_id e -> In r tbl')
    /\ (Forall (fun r : Row => device_id r <> id) tbl -> w' = w).
Proof.
  intros Hstore.
  destruct (updateDevice_store w tbl id data Hstore) as (w' & Hrun & Hst & _).
  exists w'. eexists. split; [exact Hrun |]. split; [exact Hst |].
  destruct (find _ tbl) as [e |] eqn:Hfind.
  - destruct (update_rows_ids (row_id e) data tbl) as (Hk & Hi & _).
    repeat split; auto.
    + intros e' r [= <-] Hin Hne. now apply update_rows_other.
    + intros Hnone. now rewrite (find_none_key _ _ Hnone) in Hfind.
  - repeat split; auto; try discriminate.
    intros _. unfold updateDevice, bind in Hrun.
    rewrite (getDevice_run w tbl id Hstore), Hfind in Hrun.
    now injection Hrun.
Qed.

(** X10: a status update merges metadata where a plain update replaces
    it: after [updateDeviceStatus] with metadata, a key of the patch has the
    patch's value and every other key keeps the value stored before, while
    after [updateDevice] the stored metadata is the patch's. *)
Theorem updateDeviceStatus_merges_metadata w pre post (e : Row) (data : Patch)
    (dm em : Metadata) :
  deviceStore w = Some (pre ++ e :: post)%list ->
  NoDup (map row_id (pre ++ e :: post)) ->
  NoDup (map (fun r : Row => device_id r) (pre ++ e :: post)) ->
  p_metadata data = Some dm ->
  metadata e = Some em ->
  (exists updated,
      deviceStore (snd (updateDeviceStatus (device_id e) data w))
      = Some (pre ++ mkRow (row_id e) updated :: post)%list
      /\ forall k, meta_get (metadata updated) k
                   = match dm !! k with Some v => Some v | None => em !! k end)
  /\ (exists updated,
        deviceStore (snd (updateDevice (device_id e) data w))
        = Some (pre ++ mkRow (row_id e) updated :: post)%list
        /\ metadata updated = Some dm).
Proof.
  intros Hstore Hpk Hid Hdm Hem.
  assert (Hfind : find (fun r : Row => String.eqb (device_id r) (device_id e))
                    (pre ++ e :: post) = Some e).
  { apply (find_unique_key (fun r : Row => device_id r) String.eqb); auto.
    apply String.eqb_eq. }
  split.
  - destruct (updateDeviceStatus_store w _ (device_id e) data Hstore)
      as (w' & Hrun & Hst & _).
    rewrite Hrun. cbn [snd]. rewrite Hst.
    rewrite Hfind, Hdm, Hem, update_rows_unique by auto.
    eexists. split; [reflexivity |].
    intros k. cbn [apply_patch metadata p_metadata meta_get mbind option_bind].
    rewrite lookup_union.
    destruct (dm !! k), (em !! k); reflexivity.
  - destruct (updateDevice_store w _ (device_id e) data Hstore)
      as (w' & Hrun & Hst & _).
    rewrite Hrun. cbn [snd]. rewrite Hst.
    rewrite Hfind, update_rows_unique by auto.
    eexists. split; [reflexivity |].
    cbn [apply_patch metadata]. now rewrite Hdm.
Qed.

(** X11: [deleteDevice] removes the row of the device and no other:
    with unique keys and device ids, the table loses exactly that row,
    [getDevice] no longer finds the device, and deleting a device id no row
    has changes nothing. *)
Theorem deleteDevice_removes_the_row w pre post (e : Row) :
  deviceStore w = Some (pre ++ e :: post)%list ->
  NoDup (map row_id (pre ++ e :: post)) ->
  NoDup (map (fun r : Row => device_id r) (pre ++ e :: post)) ->
  (exists w',
      deleteDevice (device_id e) w = (Ok tt, w')
      /\ deviceStore w' = Some (pre ++ post)%list
      /\ getDevice (device_id e) w' = (Ok None, w'))
  /\ (forall id, Forall (fun r : Row => device_id r <> id) (pre ++ e :: post) ->
                 deleteDevice id w = (Ok tt, w)).
Proof.
  intros Hstore Hpk Hid. split.
  - destruct (deleteDevice_store w _ (device_id e) Hstore) as (w' & Hrun & Hst & _).
    rewrite (find_unique_key (fun r : Row => device_id r) String.eqb) in Hst
      by (auto; apply String.eqb_eq).
    rewrite delete_rows_unique in Hst by auto.
    exists w'. split; [exact Hrun |]. split; [exact Hst |].
    rewrite (getDevice_run w' _ _ Hst). f_equal. f_equal.
    apply find_none_key. rewrite map_app in Hid. cbn [map] in Hid.
    apply NoDup_app in Hid as (_ & Hdisj & Hpost).
    apply NoDup_cons in Hpost as [Hepost _].
    apply Forall_app. split; apply List.Forall_forall; intros r Hr Heq.
    + apply (Hdisj (device_id e)); [| left].
      apply list_elem_of_In, in_map_iff. now exists r.
    + apply Hepost, list_elem_of_In, in_map_iff. now exists r.
  - intros id Hnone. unfold deleteDevice, bind.
    now rewrite (getDevice_run w _ id Hstore), (find_none_key _ _ Hnone).
Qed.

End Store.

(** ** The identity resolver, beyond the serial and MAC tiers *)



Section ResolverTiers.

Context {H : Type}.
Implicit Types (w : World H) (tbl : list Row) (r : Row).





(** X14: the resolver only reads: whatever the candidate and whether it
    returns or throws, the table, the host, the broadcasts, the registry
    calls and the clock are as before; at most the log grows. *)
Theorem findExistingRoku_only_reads :
  forall serial mac ip w,
    let w' := snd (findExistingRoku serial mac ip w) in
    deviceStore w' = deviceStore w
    /\ host w' = host w
    /\ broadcasts w' = broadcasts w
    /\ bus_events w' = bus_events w
    /\ register_calls w' = register_calls w
    /\ ticks w' = ticks w
    /\ exists msgs, logs w' = (logs w ++ msgs)%list.
Proof.
  intros serial mac ip w w'.
  destruct (findExistingRoku_effect serial mac ip w) as [msgs Heff].
  subst w'. rewrite Heff. cbn. repeat split. now exists msgs.
Qed.

End ResolverTiers.

(** ** The candidate handler, beyond the known device *)

Section DiscoveryMore.

Context {H : Type} `{HostApi H}.
Variable ecp : string -> Result DeviceInfo.
Variable clock : nat -> string.
Variable has_bus : bool.
Implicit Types (w : World H) (existing : Row) (candidate : Candidate).

Lemma handle_run candidate w ip inf :
  Js.or_else (c_ip candidate) (c_ip_address candidate) = Some ip ->
  ecp ip = Ok inf ->
  exists lg,
    handleDiscoveredCandidate ecp clock has_bus candidate w
    = try_catch
        (match fst (findExistingRoku (serialNumber inf)
                      (Js.or_else (c_mac candidate) (c_mac_address candidate)) ip w)
         with
         | Ok (Some existing) =>
             refresh_existing clock existing
               (Js.or_else (c_mac candidate) (c_mac_address candidate)) ip ;;;
             ret (claim_existing existing)
         | Ok None =>
             register_new clock has_bus inf
               (Js.or_else (c_mac candidate) (c_mac_address candidate)) ip
         | Throw e => throw e
         end)
        (fun e => log (LogVerifyFailed (Some ip) e) debug ;;; ret no_claim)
        (with_logs lg w).
Proof.
  intros Hip Hecp.
  unfold handleDiscoveredCandidate. rewrite Hip.
  unfold bind at 1. unfold log at 1.
  unfold try_catch at 1. unfold bind at 1. unfold getDeviceInfo, lift. rewrite Hecp.
  rewrite orb_true_r. cbn [negb].
  unfold bind at 1. unfold log at 1. unfold bind at 1. unfold log at 1.
  unfold bind at 1.
  match goal with
  | |- context [findExistingRoku ?s ?m ?i ?w1] =>
      change w1 with (with_logs (logs w1) w);
      pose proof (findExistingRoku_effect s m i (with_logs (logs w1) w)) as [msgs Heff];
      pose proof (findExistingRoku_result s m i w (logs w1)) as Hres;
      destruct (findExistingRoku s m i (with_logs (logs w1) w)) as [res w2]
  end.
  cbn [fst snd] in *. rewrite <- Hres. subst w2.
  eexists. unfold try_catch.
  destruct res as [[existing |] | e]; reflexivity.
Qed.

Lemma handle_total candidate w :
  exists result w',
    handleDiscoveredCandidate ecp clock has_bus candidate w = (Ok result, w').
Proof.
  unfold handleDiscoveredCandidate. unfold bind at 1. unfold log at 1.
  unfold try_catch.
  match goal with
  | |- context [match ?m ?w1 with _ => _ end] => destruct (m w1) as [[result | e] w2]
  end.
  - now exists result, w2.
  - eexists _, _. reflexivity.
Qed.

(** X15: the candidate handler never throws; and for a candidate without
    an address, or whose address does not answer the device-info query, it
    answers [claim: false] and touches neither the table nor the registry
    nor the event channels. *)
Theorem handleDiscoveredCandidate_never_throws :
  (forall candidate w,
     exists result w',
       handleDiscoveredCandidate ecp clock has_bus candidate w = (Ok result, w'))
  /\ (forall candidate w,
        Js.or_else (c_ip candidate) (c_ip_address candidate) = None
        \/ (exists ip msg,
              Js.or_else (c_ip candidate) (c_ip_address candidate) = Some ip
              /\ ecp ip = Throw msg) ->
        exists w',
          handleDiscoveredCandidate ecp clock has_bus candidate w = (Ok no_claim, w')
          /\ deviceStore w' = deviceStore w
          /\ host w' = host w
          /\ broadcasts w' = broadcasts w
          /\ bus_events w' = bus_events w
          /\ register_calls w' = register_calls w).
Proof.
  split; [apply handle_total |].
  intros candidate w Hunreachable.
  unfold handleDiscoveredCandidate.
  destruct Hunreachable as [-> | (ip & msg & -> & Hecp)].
  - eexists. split; [reflexivity |]. cbn. repeat split; reflexivity.
  - unfold bind at 1. unfold log at 1. unfold try_catch.
    unfold bind at 1. unfold getDeviceInfo, lift. rewrite Hecp.
    eexists. split; [reflexivity |]. cbn. repeat split; reflexivity.
Qed.

Lemma register_new_run w tbl inf mac ip h' :
  deviceStore w = Some tbl ->
  registerDevice (host w)
    (new_descriptor (new_device inf mac ip (clock (ticks w))) mac ip) = (Ok tt, h') ->
  let device := new_device inf mac ip (clock (ticks w)) in
  exists w',
    register_new clock has_bus inf mac ip w
    = (Ok {| claim := true;
             cr_deviceId := Some (device_id device);
             cr_name := Some (name device);
             cr_serialNumber := serialNumber inf |}, w')
    /\ deviceStore w' = Some (tbl ++ [mkRow (fresh_pk tbl) device])%list
    /\ register_calls w' = (register_calls w ++ [new_descriptor device mac ip])%list
    /\ host w' = h'
    /\ broadcasts w' = (broadcasts w ++ [DeviceAdded device])%list
    /\ bus_events w'
       = (bus_events w ++ if has_bus then [DeviceAdded device] else [])%list.
Proof.
  intros Hstore Hreg device.
  destruct w as [st h lg bc be rc tk].
  cbn [deviceStore host ticks] in Hstore, Hreg. subst st.
  unfold register_new, createDevice, model_create, read_table, write_table,
    api_registerDevice, broadcast, bus_emit, now, log, bind, ret.
  world_simpl. fold device. rewrite Hreg.
  destruct has_bus; eexists; (split; [reflexivity |]); world_simpl;
    rewrite ?app_nil_r; repeat split; reflexivity.
Qed.

(** X16: a candidate that matches no known record becomes a new device:
    one row is appended under a fresh key, with the id [roku:] followed by
    the serial number (or by the address with dashes when the device
    reports no serial number); the registry upsert is called once, one
    device-added event is broadcast, and one more is emitted on the global
    bus when the host has one. *)
Theorem handleDiscoveredCandidate_new_device candidate w tbl ip inf :
  let mac := Js.or_else (c_mac candidate) (c_mac_address candidate) in
  let device := new_device inf mac ip (clock (ticks w)) in
  deviceStore w = Some tbl ->
  Js.or_else (c_ip candidate) (c_ip_address candidate) = Some ip ->
  ecp ip = Ok inf ->
  fst (findExistingRoku (serialNumber inf) mac ip w) = Ok None ->
  fst (registerDevice (host w) (new_descriptor device mac ip)) = Ok tt ->
  exists w',
    handleDiscoveredCandidate ecp clock has_bus candidate w
    = (Ok {| claim := true;
             cr_deviceId := Some (device_id device);
             cr_name := Some (name device);
             cr_serialNumber := serialNumber inf |}, w')
    /\ deviceStore w' = Some (tbl ++ [mkRow (fresh_pk tbl) device])%list
    /\ register_calls w' = (register_calls w ++ [new_descriptor device mac ip])%list
    /\ broadcasts w' = (broadcasts w ++ [DeviceAdded device])%list
    /\ bus_events w'
       = (bus_events w ++ if has_bus then [DeviceAdded device] else [])%list
    /\ ip_address device = ip
    /\ device_id device
       = "roku:" ++ (if Js.truthy (serialNumber inf)
                     then Js.template (serialNumber inf)
                     else dots_to_dashes ip).
Proof.
  intros mac device Hstore Hip Hecp Hfind Hreg.
  destruct (handle_run candidate w ip inf Hip Hecp) as [lg ->].
  fold mac. rewrite Hfind.
  destruct (registerDevice (host w) (new_descriptor device mac ip))
    as [res h'] eqn:Hcall.
  cbn [fst] in Hreg. subst res.
  destruct (register_new_run (with_logs lg w) tbl inf mac ip h' Hstore Hcall)
    as (w' & Hrun & Hst & Hrc & _ & Hbc & Hbus).
  exists w'. unfold try_catch. rewrite Hrun.
  repeat split; auto.
  unfold device, new_device, Js.or_default, Js.or_else. cbn [device_id].
  destruct (Js.truthy (serialNumber inf)) eqn:Ht; [| reflexivity].
  now destruct (serialNumber inf).
Qed.

End DiscoveryMore.

Section DiscoveryInvariant.

Context {H : Type} `{HostApi H}.
Variable ecp : string -> Result DeviceInfo.
Variable clock : nat -> string.
Variable has_bus : bool.
Implicit Types (w : World H) (existing : Row) (candidate : Candidate) (tbl : list Row).

Lemma recovering_keeps_store {A} (m : M H A) (f : string -> LogMsg) (a : A) w :
  deviceStore (snd (try_catch m (fun e => log (f e) debug ;;; ret a) w))
  = deviceStore (snd (m w)).
Proof.
  unfold try_catch. destruct (m w) as [[r | e] w']; reflexivity.
Qed.

Lemma find_some_of_In {A} (p : A -> bool) (l : list A) (x : A) :
  In x l -> p x = true -> exists y, find p l = Some y /\ In y l /\ p y = true.
Proof.
  intros Hin Hp. destruct (find p l) as [y |] eqn:Hfind.
  - exists y. split; [reflexivity |]. now apply find_some in Hfind.
  - rewrite (find_none _ _ Hfind x Hin) in Hp. discriminate.
Qed.

Lemma update_rows_moves (data : Patch) tbl (e : Row) ip :
  In e tbl -> p_ip_address data = Some ip ->
  exists row, In row (update_rows (row_id e) data tbl) /\ ip_address row = ip.
Proof.
  intros Hin Hip. exists (mkRow (row_id e) (apply_patch data e)). split.
  - unfold update_rows. apply in_map_iff. exists e. now rewrite Nat.eqb_refl.
  - cbn. now rewrite Hip.
Qed.

Lemma refresh_existing_keys existing mac ip w tbl :
  deviceStore w = Some tbl ->
  exists tbl',
    deviceStore (snd (refresh_existing clock existing mac ip w)) = Some tbl'
    /\ map row_id tbl' = map row_id tbl
    /\ map (fun r : Row => device_id r) tbl' = map (fun r : Row => device_id r) tbl
    /\ (In existing tbl -> ip_address existing <> ip ->
        exists row, In row tbl' /\ ip_address row = ip).
Proof.
  intros Hstore. unfold refresh_existing.
  destruct (String.eqb_spec (ip_address existing) ip) as [Hsame | Hmoved]; cbn [negb].
  - unfold bind at 1. unfold now at 1.
    match goal with
    | |- context [updateDeviceStatus ?id ?p ?w1] =>
        destruct (updateDeviceStatus_store w1 tbl id p Hstore) as (w' & -> & Hst & _)
    end.
    cbn [snd]. rewrite Hst. eexists. split; [reflexivity |].
    destruct (find _ tbl) as [e |]; [| repeat split; auto; contradiction].
    match goal with
    | |- context [update_rows ?pk ?p tbl] =>
        destruct (update_rows_ids pk p tbl) as (Hk & Hi & _)
    end.
    repeat split; auto; contradiction.
  - unfold bind at 1. unfold log at 1. unfold bind at 1. unfold now at 1.
    unfold bind at 1. unfold now at 1. unfold bind at 1.
    match goal with
    | |- context [updateDevice ?id ?p ?w1] =>
        destruct (updateDevice_store w1 tbl id p Hstore) as (w' & -> & Hst & _)
    end.
    assert (Hkeys : exists tbl',
               deviceStore w' = Some tbl'
               /\ map row_id tbl' = map row_id tbl
               /\ map (fun r : Row => device_id r) tbl'
                  = map (fun r : Row => device_id r) tbl
               /\ (In existing tbl -> ip_address existing <> ip ->
                   exists row, In row tbl' /\ ip_address row = ip)).
    { rewrite Hst. eexists. split; [reflexivity |].
      destruct (find _ tbl) as [e |] eqn:Hfind.
      - destruct (update_rows_ids (row_id e)
                    (moved_patch existing mac ip (clock (ticks w)) (clock (S (ticks w))))
                    tbl) as (Hk & Hi & _).
        split; [exact Hk |]. split; [exact Hi |]. intros _ _.
        apply update_rows_moves; [| reflexivity]. now apply find_some in Hfind.
      - split; [reflexivity |]. split; [reflexivity |]. intros Hin _.
        apply (find_none _ _ Hfind) in Hin. cbn beta in Hin.
        now rewrite String.eqb_refl in Hin. }
    unfold bind, api_registerDevice, broadcast.
    destruct (registerDevice (host w') _) as [[[] | msg] h']; exact Hkeys.
Qed.

Lemma register_new_keys inf mac ip w tbl :
  deviceStore w = Some tbl ->
  exists device,
    deviceStore (snd (register_new clock has_bus inf mac ip w))
    = Some (tbl ++ [mkRow (fresh_pk tbl) device])%list.
Proof.
  intros Hstore. destruct w as [st h lg bc be rc tk]. cbn [deviceStore] in Hstore.
  subst st.
  unfold register_new, createDevice, model_create, read_table, write_table,
    api_registerDevice, broadcast, bus_emit, now, log, bind, ret.
  world_simpl.
  destruct (registerDevice h _) as [[[] | msg] h']; destruct has_bus;
    eexists; reflexivity.
Qed.

(** X17: discovery never forgets a device: whatever the candidate, the
    address probe and the registry answer, the table after the handler has
    unique primary keys again, lists the device ids it listed before in the
    same order, and has at most one row more. *)
Theorem handleDiscoveredCandidate_keeps_devices candidate w tbl :
  deviceStore w = Some tbl ->
  NoDup (map row_id tbl) ->
  exists tbl' added,
    deviceStore (snd (handleDiscoveredCandidate ecp clock has_bus candidate w))
    = Some tbl'
    /\ NoDup (map row_id tbl')
    /\ map (fun r : Row => device_id r) tbl'
       = (map (fun r : Row => device_id r) tbl ++ added)%list
    /\ length added <= 1.
Proof.
  intros Hstore Hnd.
  assert (Hsame : exists tbl' added,
             Some tbl = Some tbl'
             /\ NoDup (map row_id tbl')
             /\ map (fun r : Row => device_id r) tbl'
                = (map (fun r : Row => device_id r) tbl ++ added)%list
             /\ length added <= 1).
  { exists tbl, []. rewrite app_nil_r. cbn [length]. repeat split; auto. }
  destruct (Js.or_else (c_ip candidate) (c_ip_address candidate)) as [ip |] eqn:Hip.
  2: { unfold handleDiscoveredCandidate. rewrite Hip.
       cbn. rewrite Hstore. exact Hsame. }
  destruct (ecp ip) as [inf | msg] eqn:Hecp.
  2: { unfold handleDiscoveredCandidate. rewrite Hip.
       unfold bind at 1. unfold log at 1. rewrite recovering_keeps_store.
       unfold bind at 1. unfold getDeviceInfo, lift. rewrite Hecp.
       cbn. rewrite Hstore. exact Hsame. }
  destruct (handle_run ecp clock has_bus candidate w ip inf Hip Hecp) as [lg ->].
  rewrite recovering_keeps_store.
  destruct (fst (findExistingRoku _ _ ip w)) as [[existing |] | msg].
  - unfold bind at 1.
    destruct (refresh_existing_keys existing
                (Js.or_else (c_mac candidate) (c_mac_address candidate)) ip
                (with_logs lg w) tbl Hstore) as (tbl' & Hst & Hk & Hi & _).
    destruct (refresh_existing _ _ _ _ _) as [[[] | msg] w'];
      cbn [snd ret] in *; exists tbl', []; rewrite app_nil_r, Hk; cbn [length];
      repeat split; auto.
  - destruct (register_new_keys inf
                (Js.or_else (c_mac candidate) (c_mac_address candidate)) ip
                (with_logs lg w) tbl Hstore) as (device & ->).
    exists (tbl ++ [mkRow (fresh_pk tbl) device])%list, [device_id device].
    split; [reflexivity |]. rewrite !map_app. cbn [map row_id row_data length].
    repeat split; auto.
    apply NoDup_app. split; [exact Hnd |]. split; [| apply NoDup_singleton].
    intros k Hk Hk'. apply list_elem_of_In in Hk.
    apply list_elem_of_singleton in Hk'. subst k.
    now apply (fresh_pk_fresh tbl).
  - cbn. rewrite Hstore. exact Hsame.
Qed.

Lemma registry_failure_run candidate w tbl ip inf msg :
  let mac := Js.or_else (c_mac candidate) (c_mac_address candidate) in
  let device := new_device inf mac ip (clock (ticks w)) in
  deviceStore w = Some tbl ->
  Js.or_else (c_ip candidate) (c_ip_address candidate) = Some ip ->
  ecp ip = Ok inf ->
  fst (findExistingRoku (serialNumber inf) mac ip w) = Ok None ->
  fst (registerDevice (host w) (new_descriptor device mac ip)) = Throw msg ->
  exists w',
    handleDiscoveredCandidate ecp clock has_bus candidate w = (Ok no_claim, w')
    /\ deviceStore w' = Some (tbl ++ [mkRow (fresh_pk tbl) device])%list
    /\ broadcasts w' = broadcasts w
    /\ bus_events w' = bus_events w.
Proof.
  intros mac device Hstore Hip Hecp Hfind Hreg.
  destruct (handle_run ecp clock has_bus candidate w ip inf Hip Hecp) as [lg ->].
  fold mac. rewrite Hfind.
  destruct w as [st h lg0 bc be rc tk]. cbn [deviceStore host ticks] in *. subst st.
  unfold try_catch, register_new, createDevice, model_create, read_table, write_table,
    api_registerDevice, broadcast, bus_emit, now, log, bind, ret, with_logs.
  world_simpl. fold mac. fold device.
  destruct (registerDevice h (new_descriptor device mac ip)) as [res h'].
  cbn [fst] in Hreg. subst res.
  eexists. split; [reflexivity |]. world_simpl. repeat split; reflexivity.
Qed.

(** X18: a registry failure while a new device is being registered is
    swallowed half-way: the handler answers [claim: false] and announces
    nothing, yet the row it created just before stays in the table. *)
Theorem handleDiscoveredCandidate_registry_failure candidate w tbl ip inf msg :
  let mac := Js.or_else (c_mac candidate) (c_mac_address candidate) in
  let device := new_device inf mac ip (clock (ticks w)) in
  deviceStore w = Some tbl ->
  Js.or_else (c_ip candidate) (c_ip_address candidate) = Some ip ->
  ecp ip = Ok inf ->
  fst (findExistingRoku (serialNumber inf) mac ip w) = Ok None ->
  fst (registerDevice (host w) (new_descriptor device mac ip)) = Throw msg ->
  exists w',
    handleDiscoveredCandidate ecp clock has_bus candidate w = (Ok no_claim, w')
    /\ deviceStore w' = Some (tbl ++ [mkRow (fresh_pk tbl) device])%list
    /\ broadcasts w' = broadcasts w
    /\ bus_events w' = bus_events w.
Proof. exact (registry_failure_run candidate w tbl ip inf msg). Qed.

Lemma serial_tier_none w tbl s mac ip :
  deviceStore w = Some tbl -> s <> "" ->
  fst (findExistingRoku (Some s) mac ip w) = Ok None ->
  find (has_serial s) tbl = None.
Proof.
  intros Hstore Hs Hfind.
  destruct (find (has_serial s) tbl) as [r |] eqn:Hr; [| reflexivity].
  rewrite (serial_tier_hit w tbl s mac ip r Hstore Hs Hr) in Hfind. discriminate.
Qed.

Lemma refresh_existing_quiet existing mac w tbl :
  deviceStore w = Some tbl ->
  exists w',
    refresh_existing clock existing mac (ip_address existing) w = (Ok tt, w')
    /\ host w' = host w
    /\ broadcasts w' = broadcasts w
    /\ bus_events w' = bus_events w
    /\ register_calls w' = register_calls w.
Proof.
  intros Hstore. unfold refresh_existing. rewrite String.eqb_refl. cbn [negb].
  destruct w as [st h lg bc be rc tk]. cbn [deviceStore] in Hstore. subst st.
  unfold updateDeviceStatus, getDevice, findAll_where, read_table, now, bind, ret.
  world_simpl.
  destruct (head _) as [e |]; [| eexists; split; [reflexivity |]; now world_simpl].
  unfold model_update, read_table, write_table, bind. world_simpl.
  eexists. split; [reflexivity |]. now world_simpl.
Qed.

(** X19: discovery does not retry a failed registration: once the
    registry has refused a new device, the next scan finds the row the
    failed attempt left in the table, claims the device as a known one at
    its known address, and so issues no registry upsert and announces
    nothing - the device-added event is never sent. *)
Theorem failed_registration_is_not_retried candidate w tbl ip inf s msg :
  let mac := Js.or_else (c_mac candidate) (c_mac_address candidate) in
  let device := new_device inf mac ip (clock (ticks w)) in
  let w1 := snd (handleDiscoveredCandidate ecp clock has_bus candidate w) in
  deviceStore w = Some tbl ->
  Js.or_else (c_ip candidate) (c_ip_address candidate) = Some ip ->
  ecp ip = Ok inf ->
  serialNumber inf = Some s ->
  s <> "" ->
  fst (findExistingRoku (Some s) mac ip w) = Ok None ->
  fst (registerDevice (host w) (new_descriptor device mac ip)) = Throw msg ->
  exists w2,
    handleDiscoveredCandidate ecp clock has_bus candidate w1
    = (Ok {| claim := true;
             cr_deviceId := Some (device_id device);
             cr_name := Some (name device);
             cr_serialNumber := Some s |}, w2)
    /\ register_calls w2 = register_calls w1
    /\ host w2 = host w1
    /\ broadcasts w2 = broadcasts w
    /\ bus_events w2 = bus_events w.
Proof.
  intros mac device w1 Hstore Hip Hecp Hserial Hs Hfind Hreg.
  pose proof (serial_tier_none w tbl s mac ip Hstore Hs Hfind) as Hmiss.
  rewrite <- Hserial in Hfind.
  destruct (registry_failure_run candidate w tbl ip inf msg Hstore Hip Hecp Hfind Hreg)
    as (w' & Hrun & Hst & Hbc & Hbe).
  fold mac in Hst. fold device in Hst.
  subst w1. rewrite Hrun. cbn [snd].
  set (row := mkRow (fresh_pk tbl) device) in *.
  assert (Hhit : fst (findExistingRoku (serialNumber inf) mac ip w') = Ok (Some row)).
  { rewrite Hserial.
    rewrite (serial_tier_hit w' _ s mac ip row Hst Hs); [reflexivity |].
    rewrite (find_app_miss _ _ _ Hmiss). cbn [find].
    unfold has_serial, row, device. cbn [row_data serial_number new_device].
    rewrite Hserial. cbn [Js.strict_eq]. now rewrite String.eqb_refl. }
  destruct (handle_known_run ecp clock has_bus candidate w' ip inf row Hip Hecp Hhit)
    as [lg ->].
  destruct (refresh_existing_quiet row mac (with_logs lg w') _ Hst)
    as (w2 & Hrefresh & Hh & Hbc2 & Hbe2 & Hrc).
  change (ip_address row) with ip in Hrefresh. unfold mac in Hrefresh.
  exists w2. unfold try_catch, bind at 1. rewrite Hrefresh.
  split.
  - unfold ret, claim_existing, row, device.
    cbn [row_data device_id name serial_number new_device]. now rewrite Hserial.
  - world_simpl. cbn [with_logs host broadcasts bus_events register_calls] in *.
    repeat split; congruence.
Qed.

End DiscoveryInvariant.

(** ** The synchronizer, over a populated table *)






(** ** Legacy ids in the registry *)





(** ** Recovery's enumeration of slugs *)

Lemma has_slug_In (deviceMap : list (string * SlugInfo)) (s : string) :
  has_slug deviceMap s = true <-> In s (map fst deviceMap).
Proof.
  unfold has_slug. rewrite existsb_exists, in_map_iff. split.
  - intros (e & Hin & Heq). apply String.eqb_eq in Heq. now exists e.
  - intros (e & Heq & Hin). exists e. split; [exact Hin |]. now apply String.eqb_eq.
Qed.

(** The slug an entity row contributes to [deviceMap], if any. *)
Lemma collect_slug_keys (deviceMap : list (string * SlugInfo)) (entity : EntityRow) :
  (exists id k rest,
      Js.or_else (entity_id entity) (e_id entity) = Some id
      /\ split_dot id = "roku" :: k :: rest
      /\ map fst (collect_slug deviceMap entity)
         = (map fst deviceMap ++ if has_slug deviceMap k then [] else [k])%list)
  \/ ((forall id k rest,
         Js.or_else (entity_id entity) (e_id entity) = Some id ->
         split_dot id <> "roku" :: k :: rest)
      /\ collect_slug deviceMap entity = deviceMap).
Proof.
  unfold collect_slug.
  destruct (Js.or_else (entity_id entity) (e_id entity)) as [id |];
    [| right; split; [discriminate | reflexivity]].
  destruct (split_dot id) as [| p0 [| k rest]] eqn:Hsplit;
    try (right; split; [intros ? ? ? [= <-]; rewrite Hsplit; discriminate | reflexivity]).
  destruct (String.eqb_spec p0 "roku") as [-> | Hne].
  - left. exists id, k, rest. split; [reflexivity |]. split; [exact Hsplit |].
    destruct (has_slug deviceMap k); [now rewrite app_nil_r |].
    now rewrite map_app.
  - right. split; [| reflexivity].
    intros ? ? ? [= <-]. rewrite Hsplit. intros [= -> _ _]. now apply Hne.
Qed.

Lemma collect_slug_info (deviceMap : list (string * SlugInfo)) (entity : EntityRow) :
  Forall (fun e => slug (snd e) = fst e) deviceMap ->
  Forall (fun e => slug (snd e) = fst e) (collect_slug deviceMap entity).
Proof.
  intros Hall. unfold collect_slug.
  destruct (Js.or_else (entity_id entity) (e_id entity)) as [id |]; [| exact Hall].
  destruct (split_dot id) as [| p0 [| k rest]]; try exact Hall.
  destruct (String.eqb p0 "roku"); [| exact Hall].
  destruct (has_slug deviceMap k); [exact Hall |].
  apply Forall_app. split; [exact Hall |]. now apply Forall_singleton.
Qed.

(** X23: recovery's [deviceMap] has exactly one entry per slug: its keys
    are pairwise distinct, every entry records its own key as slug, and a
    slug is a key exactly when some entity row has an id of the form
    [roku.<slug>] or [roku.<slug>.<more>]. *)
Theorem collect_slugs_one_entry_per_slug :
  forall entities : list EntityRow,
    NoDup (map fst (collect_slugs entities))
    /\ Forall (fun e => slug (snd e) = fst e) (collect_slugs entities)
    /\ (forall k,
          In k (map fst (collect_slugs entities))
          <-> exists entity id rest,
                In entity entities
                /\ Js.or_else (entity_id entity) (e_id entity) = Some id
                /\ split_dot id = "roku" :: k :: rest).
Proof.
  intros entities. unfold collect_slugs.
  assert (Hgen : forall acc,
             NoDup (map fst acc) ->
             Forall (fun e => slug (snd e) = fst e) acc ->
             NoDup (map fst (fold_left collect_slug entities acc))
             /\ Forall (fun e => slug (snd e) = fst e)
                  (fold_left collect_slug entities acc)
             /\ (forall k,
                   In k (map fst (fold_left collect_slug entities acc))
                   <-> In k (map fst acc)
                       \/ exists entity id rest,
                            In entity entities
                            /\ Js.or_else (entity_id entity) (e_id entity) = Some id
                            /\ split_dot id = "roku" :: k :: rest)).
  { induction entities as [| entity entities IH]; intros acc Hnd Hall.
    - cbn [fold_left]. split; [exact Hnd |]. split; [exact Hall |].
      intros k. split; [now left |]. intros [Hin | (e & _ & _ & [] & _)]. exact Hin.
    - cbn [fold_left].
      assert (Hnd' : NoDup (map fst (collect_slug acc entity))).
      { destruct (collect_slug_keys acc entity)
          as [(id & k & rest & _ & _ & ->) | [_ ->]]; [| exact Hnd].
        destruct (has_slug acc k) eqn:Hhas; [now rewrite app_nil_r |].
        apply NoDup_app. split; [exact Hnd |]. split; [| apply NoDup_singleton].
        intros k' Hk' Hk. apply list_elem_of_singleton in Hk. subst k'.
        apply list_elem_of_In in Hk'. apply has_slug_In in Hk'. congruence. }
      destruct (IH (collect_slug acc entity) Hnd' (collect_slug_info acc entity Hall))
        as (Hnd2 & Hall2 & Hkeys).
      split; [exact Hnd2 |]. split; [exact Hall2 |].
      intros k. rewrite Hkeys. clear IH Hkeys Hnd2 Hall2.
      destruct (collect_slug_keys acc entity)
        as [(id & k0 & rest & Hid & Hsplit & Heq) | [Hnone Heq]]; rewrite Heq.
      + rewrite in_app_iff. split.
        * intros [[Hin | Hin] | (e & id' & rest' & Hin & Hid' & Hsplit')].
          -- now left.
          -- right. destruct (has_slug acc k0); [destruct Hin |].
             destruct Hin as [<- | []]. exists entity, id, rest. split; [now left | auto].
          -- right. exists e, id', rest'. split; [now right | auto].
        * intros [Hin | (e & id' & rest' & [<- | Hin] & Hid' & Hsplit')].
          -- left. now left.
          -- rewrite Hid in Hid'. injection Hid' as <-.
             rewrite Hsplit in Hsplit'. injection Hsplit' as <- _.
             left. destruct (has_slug acc k0) eqn:Hhas.
             ++ left. now apply has_slug_In.
             ++ right. now left.
          -- right. exists e, id', rest'. auto.
      + split.
        * intros [Hin | (e & id' & rest' & Hin & Hid' & Hsplit')]; [now left |].
          right. exists e, id', rest'. split; [now right | auto].
        * intros [Hin | (e & id' & rest' & [<- | Hin] & Hid' & Hsplit')]; [now left | |].
          -- now destruct (Hnone id' k rest' Hid').
          -- right. exists e, id', rest'. auto. }
  destruct (Hgen [] (NoDup_nil_2) (Forall_nil_2 _)) as (Hnd & Hall & Hkeys).
  split; [exact Hnd |]. split; [exact Hall |].
  intros k. rewrite Hkeys. cbn [map]. split; [intros [[] | Hex]; exact Hex | now right].
Qed.

(** ** Looking a device up, and adding one by address *)

Lemma find_none_key_ip (t : list Row) (ip : string) :
  Forall (fun r : Row => ip_address r <> ip) t ->
  find (fun r : Row => String.eqb (ip_address r) ip) t = None.
Proof.
  induction 1 as [| r t Hr _ IH]; [reflexivity |]. cbn [find].
  now destruct (String.eqb_spec (ip_address r) ip).
Qed.

Section Routes.

Context {H : Type} `{HostApi H} `{RegistrySearch H}.
Variable ecp : string -> Result DeviceInfo.
Variable clock : nat -> string.
Variable has_bus : bool.
Implicit Types (w : World H) (tbl : list Row).

(** X24: [findDevice] never throws and writes nothing; a row of the local
    table with the device id wins over the registry; a view built from the
    registry is returned only when the table has no such row; and a failing
    registry query means the device is not found. *)
Theorem findDevice_local_first deviceId w tbl :
  deviceStore w = Some tbl ->
  exists found,
    findDevice deviceId w = (Ok found, w)
    /\ (forall row,
          find (fun r : Row => String.eqb (device_id r) deviceId) tbl = Some row ->
          found = Some (FoundLocal row))
    /\ (forall id ip label,
          found = Some (FoundInRegistry id ip label) ->
          Forall (fun r : Row => device_id r <> deviceId) tbl)
    /\ (find (fun r : Row => String.eqb (device_id r) deviceId) tbl = None ->
        (exists msg, registry_where (host w) "id" deviceId = Throw msg)
        \/ (registry_where (host w) "id" deviceId = Ok []
            /\ exists msg, registry_where (host w) "device_id" deviceId = Throw msg) ->
        found = None).
Proof.
  intros Hstore. unfold findDevice. unfold bind at 1.
  rewrite (getDevice_run w tbl deviceId Hstore).
  destruct (find _ tbl) as [row |] eqn:Hfind.
  - eexists. split; [reflexivity |]. split; [now intros ? [= <-] |].
    split; [discriminate |]. discriminate.
  - assert (Hnone : Forall (fun r : Row => device_id r <> deviceId) tbl).
    { apply List.Forall_forall. intros r Hin Heq.
      apply (find_none _ _ Hfind) in Hin. cbn beta in Hin.
      rewrite Heq, String.eqb_refl in Hin. discriminate. }
    unfold try_catch, bind, query_registry, ret.
    destruct (registry_where (host w) "id" deviceId) as [[| d1 l1] | msg1].
    + destruct (registry_where (host w) "device_id" deviceId) as [[| d2 l2] | msg2].
      * destruct (serial_of_canonical_id deviceId) as [serial |].
        -- destruct (registry_where (host w) "serial_number" serial) as [[| d3 l3] | msg3];
             eexists; (split; [reflexivity |]);
             (split; [discriminate |]); (split; [auto |]);
             intros _ [[msg Hq] | [_ [msg Hq]]]; discriminate.
        -- eexists; (split; [reflexivity |]);
             (split; [discriminate |]); (split; [auto |]);
             intros _ [[msg Hq] | [_ [msg Hq]]]; discriminate.
      * eexists; (split; [reflexivity |]);
          (split; [discriminate |]); (split; [auto |]);
          intros _ [[msg Hq] | [_ [msg Hq]]]; discriminate.
      * eexists; (split; [reflexivity |]);
          (split; [discriminate |]); (split; [auto |]); reflexivity.
    + eexists; (split; [reflexivity |]);
        (split; [discriminate |]); (split; [auto |]);
        intros _ [[msg Hq] | [Hq _]]; discriminate.
    + eexists; (split; [reflexivity |]);
        (split; [discriminate |]); (split; [auto |]); reflexivity.
Qed.


End Routes.

Section RoutesAccept.

Context {H : Type} `{HostApi H}.
Variable ecp : string -> Result DeviceInfo.
Variable clock : nat -> string.
Variable has_bus : bool.
Implicit Types (w : World H) (tbl : list Row).

Lemma findExistingRoku_without_mac serial ip w tbl :
  deviceStore w = Some tbl ->
  exists r, fst (findExistingRoku serial None ip w) = Ok r.
Proof.
  intros Hstore.
  unfold findExistingRoku, getAllDevices, getDeviceByIp, findAll_where, read_table,
    lift, log, bind, ret.
  rewrite Hstore. cbn [Js.truthy].
  destruct (if Js.truthy serial then _ else _) as [d |]; [now eexists |].
  cbn. rewrite Hstore. cbn. destruct (head _); now eexists.
Qed.

Lemma register_new_store inf mac ip w tbl :
  deviceStore w = Some tbl ->
  deviceStore (snd (register_new clock has_bus inf mac ip w))
  = Some (tbl ++ [mkRow (fresh_pk tbl) (new_device inf mac ip (clock (ticks w)))])%list.
Proof.
  intros Hstore. destruct w as [st h lg bc be rc tk]. cbn [deviceStore] in Hstore.
  subst st.
  unfold register_new, createDevice, model_create, read_table, write_table,
    api_registerDevice, broadcast, bus_emit, now, log, bind, ret.
  world_simpl.
  destruct (registerDevice h _) as [[[] | msg] h']; destruct has_bus; reflexivity.
Qed.

(** The candidate the add route hands to the discovery handler. *)
Lemma handle_leaves_a_row_at ip w tbl inf :
  deviceStore w = Some tbl ->
  Forall (fun r : Row => ip_address r <> ip) tbl ->
  ecp ip = Ok inf ->
  exists result w' tbl' row,
    handleDiscoveredCandidate ecp clock has_bus
      {| c_ip := None; c_ip_address := Some ip; c_mac := None; c_mac_address := None |} w
    = (Ok result, w')
    /\ deviceStore w' = Some tbl'
    /\ In row tbl' /\ ip_address row = ip.
Proof.
  intros Hstore Hnone Hecp.
  set (candidate := {| c_ip := None; c_ip_address := Some ip;
                       c_mac := None; c_mac_address := None |}).
  destruct (handle_total ecp clock has_bus candidate w) as (result & w' & Hrun).
  exists result, w'.
  assert (Hst : exists tbl' row,
             deviceStore (snd (handleDiscoveredCandidate ecp clock has_bus candidate w))
             = Some tbl'
             /\ In row tbl' /\ ip_address row = ip).
  { destruct (handle_run ecp clock has_bus candidate w ip inf eq_refl Hecp) as [lg ->].
    rewrite recovering_keeps_store. cbn [candidate c_mac c_mac_address Js.or_else Js.truthy].
    destruct (findExistingRoku_without_mac (serialNumber inf) ip w tbl Hstore)
      as [[existing |] Hfind]; rewrite Hfind.
    - unfold bind at 1.
      destruct (refresh_existing_keys clock existing None ip (with_logs lg w) tbl Hstore)
        as (tbl' & Hst & _ & _ & Hrow).
      destruct Hrow as (row & Hin & Hip).
      { eapply findExistingRoku_In; eauto. }
      { rewrite List.Forall_forall in Hnone. apply Hnone.
        eapply findExistingRoku_In; eauto. }
      exists tbl', row.
      destruct (refresh_existing _ _ _ _ _) as [[[] | msg] w1];
        cbn [snd ret] in *; auto.
    - rewrite (register_new_store inf None ip (with_logs lg w) tbl Hstore).
      eexists _, (mkRow (fresh_pk tbl) (new_device inf None ip (clock (ticks w)))).
      split; [reflexivity |]. split; [| reflexivity].
      apply in_or_app. right. now left. }
  rewrite Hrun in Hst. destruct Hst as (tbl' & row & Hst & Hin & Hip).
  exists tbl', row. auto.
Qed.

Lemma handle_unanswered candidate w ip msg :
  Js.or_else (c_ip candidate) (c_ip_address candidate) = Some ip ->
  ecp ip = Throw msg ->
  exists w',
    handleDiscoveredCandidate ecp clock has_bus candidate w = (Ok no_claim, w')
    /\ deviceStore w' = deviceStore w
    /\ host w' = host w
    /\ broadcasts w' = broadcasts w
    /\ bus_events w' = bus_events w
    /\ register_calls w' = register_calls w.
Proof.
  intros Hip Hecp. unfold handleDiscoveredCandidate. rewrite Hip.
  unfold bind at 1. unfold log at 1. unfold try_catch.
  unfold bind at 1. unfold getDeviceInfo, lift. rewrite Hecp.
  eexists. split; [reflexivity |]. cbn. repeat split; reflexivity.
Qed.

(** X26: a manual add of a device that answers the route's request as a
    Roku, at an address no row of the table has, always reports success.
    The device it reports is a row of the table at that address when the
    handler's own device-info request is answered as well - also when the
    registry refuses the device; when that second request fails, the route
    still reports success, with no device, and the table, the registry and
    the event channels are as they were. *)
Theorem route_add_device_accepts (probe : string -> Result DeviceInfo) w tbl ip inf :
  deviceStore w = Some tbl ->
  ip <> "" ->
  Forall (fun r : Row => ip_address r <> ip) tbl ->
  probe ip = Ok inf ->
  vendor_is_roku inf = true ->
  exists device w' tbl',
    route_add_device ecp clock has_bus probe (Some ip) w
    = (Ok {| success := true; r_error := None; r_status := None;
             r_device := device |}, w')
    /\ deviceStore w' = Some tbl'
    /\ (forall inf', ecp ip = Ok inf' ->
          exists row, device = Some row /\ ip_address row = ip /\ In row tbl')
    /\ (forall msg, ecp ip = Throw msg ->
          device = None
          /\ tbl' = tbl
          /\ host w' = host w
          /\ broadcasts w' = broadcasts w
          /\ bus_events w' = bus_events w
          /\ register_calls w' = register_calls w).
Proof.
  intros Hstore Hne Hnone Hprobe Hvendor.
  unfold route_add_device.
  replace (Js.truthy (Some ip)) with true
    by (cbn; now destruct (String.eqb_spec ip "")).
  cbn [negb Js.template]. unfold bind at 1.
  rewrite (getDeviceByIp_run w tbl ip Hstore), (find_none_key_ip tbl ip Hnone).
  unfold try_catch. unfold bind at 1. unfold getDeviceInfo, lift.
  rewrite Hprobe, Hvendor.
  cbn [negb]. unfold bind at 1.
  destruct (ecp ip) as [inf' | msg] eqn:Hecp.
  - destruct (handle_leaves_a_row_at ip w tbl inf' Hstore Hnone Hecp)
      as (result & w' & tbl' & row & -> & Hst & Hin & Hip).
    unfold bind at 1. rewrite (getDeviceByIp_run w' tbl' ip Hst).
    destruct (find_some_of_In (fun r : Row => String.eqb (ip_address r) ip) tbl' row Hin)
      as (y & -> & Hy & Hyip).
    { rewrite Hip. apply String.eqb_refl. }
    exists (Some y), w', tbl'. split; [reflexivity |]. split; [exact Hst |].
    split; [| discriminate].
    intros _ _. exists y. apply String.eqb_eq in Hyip. auto.
  - destruct (handle_unanswered
                {| c_ip := None; c_ip_address := Some ip;
                   c_mac := None; c_mac_address := None |} w ip msg eq_refl Hecp)
      as (w' & -> & Hst & Hh & Hbc & Hbe & Hrc).
    rewrite Hstore in Hst.
    unfold bind at 1. rewrite (getDeviceByIp_run w' tbl ip Hst).
    rewrite (find_none_key_ip tbl ip Hnone).
    exists None, w', tbl. split; [reflexivity |]. split; [exact Hst |].
    split; [discriminate |]. intros _ _. repeat split; auto.
Qed.


End RoutesAccept.

(** ** The poll adapter *)

Lemma entity_slug_slug (deviceName : string) : is_slug (entity_slug deviceName) = true.
Proof.
  destruct (entity_slug_well deviceName) as [Hw He]. unfold is_slug.
  now rewrite (well_squashed_chars _ _ Hw), (well_squashed_no_leading _ Hw), He,
    (well_squashed_no_double _ _ Hw).
Qed.

Lemma poll_entity_fields (device : PollTarget) (inf : DeviceInfo)
    (activeApp : option ActiveApp) :
  let e := poll_entity device inf activeApp in
  (at_power_state e = "on" \/ at_power_state e = "standby")
  /\ (es_state e = "off" <-> at_power_state e = "standby")
  /\ at_active_app e <> ""
  /\ (es_state e = "playing" ->
      at_is_screensaver e = false /\ at_active_app e <> "Home")
  /\ (es_state e = "idle" -> at_is_screensaver e = true)
  /\ (at_screensaver_name e <> None -> at_is_screensaver e = true).
Proof.
  unfold poll_entity.
  cbn [es_state at_power_state at_active_app at_is_screensaver at_screensaver_name].
  pose proof (interpretPowerState_cases (powerMode inf) activeApp) as Hps.
  assert (Hname : Js.or_default (active_app_name activeApp) "Home" <> ""
                  /\ (Js.truthy (active_app_name activeApp)
                      && negb (Js.strict_eq (active_app_name activeApp) (Some "Home"))
                      = true ->
                      Js.or_default (active_app_name activeApp) "Home" <> "Home")).
  { unfold Js.or_default, Js.or_else.
    destruct (active_app_name activeApp) as [n |]; cbn [Js.truthy Js.strict_eq].
    - destruct (String.eqb_spec n "") as [-> | Hne]; cbn [negb andb].
      + split; discriminate.
      + split; [exact Hne |]. destruct (String.eqb_spec n "Home"); [discriminate | auto].
    - split; discriminate. }
  destruct Hname as [Hname Hplaying].
  unfold main_state.
  destruct Hps as [-> | ->]; cbn [String.eqb Ascii.eqb Bool.eqb orb].
  - split; [now left |].
    destruct (is_screensaver activeApp).
    + repeat split; try discriminate; auto.
    + destruct (Js.truthy (active_app_name activeApp)
                && negb (Js.strict_eq (active_app_name activeApp) (Some "Home")))
        eqn:Hp.
      * repeat split; try discriminate; auto; try (intros Hs; now destruct Hs).
      * repeat split; try discriminate; auto; try (intros Hs; now destruct Hs).
  - split; [now right |].
    destruct (is_screensaver activeApp);
      repeat split; try discriminate; auto; try (intros Hs; now destruct Hs).
Qed.

Section PollAdapter.

Context {H : Type} `{HostApi H}.
Variable ecp : string -> Result DeviceInfo.
Variable ecp_active_app : string -> Result (option ActiveApp).
Implicit Types (w : World H).

(** X28: whenever [pollDevice] answers, it answers with one entity for a
    device that has an id and an address, and has written nothing; the
    entity id is [media_player.] followed by a slug; the power state is on
    or standby and the main state is off exactly in standby; the active app
    is never empty; a playing entity shows no screensaver and an app other
    than Home, an idle one shows a screensaver, and a screensaver name is
    given only under a screensaver. *)
Theorem pollDevice_entity device client w entities :
  fst (pollDevice ecp ecp_active_app device client w) = Ok entities ->
  snd (pollDevice ecp ecp_active_app device client w) = w
  /\ exists target e,
       device = Some target
       /\ entities = [e]
       /\ Js.truthy (pt_id target) = true
       /\ Js.truthy (pt_ip_address target) = true
       /\ (exists s, es_entityId e = "media_player." ++ s /\ is_slug s = true)
       /\ at_device_type e = "roku"
       /\ (at_power_state e = "on" \/ at_power_state e = "standby")
       /\ (es_state e = "off" <-> at_power_state e = "standby")
       /\ at_active_app e <> ""
       /\ (es_state e = "playing" ->
           at_is_screensaver e = false /\ at_active_app e <> "Home")
       /\ (es_state e = "idle" -> at_is_screensaver e = true)
       /\ (at_screensaver_name e <> None -> at_is_screensaver e = true).
Proof.
  unfold pollDevice.
  destruct device as [target |]; [| discriminate].
  destruct (Js.truthy (pt_id target)) eqn:Hid; cbn [negb]; [| discriminate].
  destruct (Js.truthy (pt_ip_address target)) eqn:Hip; cbn [negb]; [| discriminate].
  unfold bind, getDeviceInfo, lift, ret.
  destruct (ecp _) as [inf | msg]; [| discriminate].
  destruct (ecp_active_app _) as [activeApp | msg]; [| discriminate].
  cbn [fst snd]. intros [= <-]. split; [reflexivity |].
  exists target, (poll_entity target inf activeApp).
  do 2 (split; [reflexivity |]). split; [assumption || reflexivity |].
  split; [assumption || reflexivity |].
  split; [eexists; split; [reflexivity | apply entity_slug_slug] |].
  split; [reflexivity |].
  apply poll_entity_fields.
Qed.

End PollAdapter.

(** ** The ECP client *)

(** X29: [powerOn] always sends the PowerOn key first and sends the Home
    key exactly when PowerOn is refused; it fails only when both are
    refused, with the error of the Home key; and [powerOff] sends the
    PowerOff key alone and fails exactly when it is refused. *)
Theorem powerOn_falls_back_to_home :
  forall (accepts : string -> Result unit) (sent : list string),
    (exists more,
        snd (Client.powerOn accepts sent) = (sent ++ "/keypress/PowerOn" :: more)%list
        /\ ((more = [] /\ accepts "/keypress/PowerOn" = Ok tt)
            \/ (more = ["/keypress/Home"]
                /\ exists e, accepts "/keypress/PowerOn" = Throw e)))
    /\ (forall e,
          fst (Client.powerOn accepts sent) = Throw e
          <-> (exists e0, accepts "/keypress/PowerOn" = Throw e0)
              /\ accepts "/keypress/Home" = Throw e)
    /\ snd (Client.powerOff accepts sent) = (sent ++ ["/keypress/PowerOff"])%list
    /\ (forall e,
          fst (Client.powerOff accepts sent) = Throw e
          <-> accepts "/keypress/PowerOff" = Throw e).
Proof.
  intros accepts sent.
  unfold Client.powerOn, Client.powerOff, Client.keypress, Client.post.
  change ("/keypress/" ++ "PowerOn") with "/keypress/PowerOn".
  change ("/keypress/" ++ "Home") with "/keypress/Home".
  change ("/keypress/" ++ "PowerOff") with "/keypress/PowerOff".
  split; [| split; [| split]].
  - destruct (accepts "/keypress/PowerOn") as [[] | e0].
    + exists []. split; [reflexivity |]. left. split; reflexivity.
    + exists ["/keypress/Home"]. split.
      * destruct (accepts "/keypress/Home"); cbn [snd]; now rewrite <- app_assoc.
      * right. split; [reflexivity |]. now exists e0.
  - intros e. destruct (accepts "/keypress/PowerOn") as [[] | e0].
    + cbn [fst]. split; [discriminate |]. now intros [[e0 He0] _].
    + destruct (accepts "/keypress/Home") as [[] | e1]; cbn [fst].
      * split; [discriminate |]. now intros [_ He].
      * split.
        -- intros [= ->]. split; [now exists e0 | reflexivity].
        -- now intros [_ [= ->]].
  - destruct (accepts "/keypress/PowerOff"); reflexivity.
  - intros e. destruct (accepts "/keypress/PowerOff") as [[] | e0]; cbn [fst].
    + split; discriminate.
    + split; intros [= ->]; reflexivity.
Qed.

(** X30: the mobile-control probe never throws and sends no request that
    could act on the device; it reports full access exactly when both the
    device-info and the apps query are answered, disabled exactly when the
    device-info query fails, and limited otherwise; control is offered only
    at the full level; and the hint to enable the permissive mode is given
    exactly when the apps query fails with a 403. *)
Theorem checkMobileControlAccess_probe :
  forall (device_info : Result DeviceInfo) (apps : Result (list ActiveApp))
         (sent : list string),
    exists access,
      Client.checkMobileControlAccess device_info apps sent = (Ok access, sent)
      /\ (Client.level access = "full"
          <-> (exists inf, device_info = Ok inf) /\ (exists l, apps = Ok l))
      /\ (Client.level access = "disabled" <-> exists e, device_info = Throw e)
      /\ (Client.level access = "full" \/ Client.level access = "limited"
          \/ Client.level access = "disabled")
      /\ (Client.canControl access = true <-> Client.level access = "full")
      /\ Client.canQueryApps access = Client.canControl access
      /\ (Client.reason access = Some Client.restricted_reason
          <-> (exists inf, device_info = Ok inf)
              /\ exists e, apps = Throw e /\ Js.includes "403" e = true).
Proof.
  intros device_info apps sent. unfold Client.checkMobileControlAccess.
  destruct device_info as [inf | e];
    [destruct apps as [l | e]; [| destruct (Js.includes "403" e) eqn:H403] |];
    (eexists; split; [reflexivity |]);
    cbn [Client.level Client.canControl Client.canQueryApps Client.reason];
    repeat split; intros;
    repeat match goal with
           | Hx : exists _, _ |- _ => destruct Hx
           | Hx : _ /\ _ |- _ => destruct Hx
           end;
    try discriminate; try congruence; eauto;
    match goal with
    | Hr : Some _ = Some Client.restricted_reason |- _ =>
        vm_compute in Hr; discriminate
    end.
Qed.

(** ** The further properties on the sample household *)

(** With no power mode reported and a screensaver in front, the polled
    entity is idle. *)
Lemma main_state_of_poll_witness :
  main_state (interpretPowerState None (Some (app_of_type "screensaver")))
    (Some (app_of_type "screensaver")) = "idle"
  /\ is_screensaver (Some (app_of_type "screensaver")) = true
  /\ awake_mode None = false.
Proof.
  split; [reflexivity |].
  exact (proj1 (proj2 (proj2 (main_state_of_poll None (Some (app_of_type "screensaver")))))
           eq_refl).
Defined.

(** The mode [PowerOn] in upper case is interpreted like [PowerOn]. *)
Lemma interpretPowerState_ignores_case_witness :
  is_ascii "PowerOn" = true
  /\ interpretPowerState (Some "POWERON") None = interpretPowerState (Some "PowerOn") None.
Proof.
  split; [reflexivity |].
  exact (proj1 (interpretPowerState_ignores_case "PowerOn" None eq_refl)).
Defined.

(** The legacy dashed id of Den carries the serial number X1. *)
Lemma serial_of_device_id_spec_witness :
  is_ascii "roku-X1" = true /\ serial_of_device_id "roku-X1" = Some "X1".
Proof.
  split; [reflexivity |].
  apply (proj2 (serial_of_device_id_spec "roku-X1" "X1" eq_refl)).
  exists "roku", "-"%char. repeat split; auto.
Defined.

(** The legacy dashed id of Den normalizes to the canonical one. *)
Lemma normalizedId_canonical_witness :
  (is_ascii (device_id Samples.legacy_den) = true
   /\ is_ascii (Js.or_default (serial_number Samples.legacy_den) "") = true
   /\ serial_of_device_id (device_id Samples.legacy_den) = Some "X1")
  /\ normalizedId Samples.legacy_den = "roku:X1".
Proof.
  split; [repeat split; reflexivity |].
  exact (proj1 (normalizedId_canonical Samples.legacy_den eq_refl eq_refl) "X1" eq_refl).
Defined.

(** Den under its legacy id is created next to Loft and Den, and read
    back. *)
Lemma createDevice_then_getDevice_witness :
  (deviceStore Samples.world = Some Samples.table
   /\ Forall (fun r : Row => device_id r <> device_id Samples.legacy_den) Samples.table)
  /\ exists row w1,
       createDevice Samples.legacy_den Samples.world = (Ok row, w1)
       /\ row_data row = Samples.legacy_den
       /\ ~ In (row_id row) (map row_id Samples.table)
       /\ deviceStore w1 = Some (Samples.table ++ [row])%list
       /\ getDevice (device_id Samples.legacy_den) w1 = (Ok (Some row), w1).
Proof.
  assert (Hnew : Forall (fun r : Row => device_id r <> device_id Samples.legacy_den)
                   Samples.table)
    by (repeat constructor; discriminate).
  split; [split; [reflexivity | exact Hnew] |].
  exact (createDevice_then_getDevice Samples.world Samples.table Samples.legacy_den
           eq_refl Hnew).
Defined.

Lemma store_keeps_primary_keys_unique_witness :
  (deviceStore Samples.world = Some Samples.table /\ NoDup (map row_id Samples.table))
  /\ exists tbl',
       deviceStore (snd (deleteDevice "roku:Y2" Samples.world)) = Some tbl'
       /\ NoDup (map row_id tbl').
Proof.
  assert (Hpk : NoDup (map row_id Samples.table)) by (apply (bool_decide_unpack _); vm_compute; exact I).
  split; [split; [reflexivity | exact Hpk] |].
  exact (proj2 (proj2 (proj2 (store_keeps_primary_keys_unique Samples.world Samples.table
                                eq_refl Hpk))) "roku:Y2").
Defined.

Lemma updateDevice_touches_only_its_row_witness :
  deviceStore Samples.world = Some Samples.table
  /\ exists w' tbl',
       updateDevice "roku:X1" (seen_patch "2024-05-01T10:00:00.000Z") Samples.world
       = (Ok tt, w')
       /\ deviceStore w' = Some tbl'
       /\ map row_id tbl' = map row_id Samples.table
       /\ In (mkRow 1 Samples.loft) tbl'.
Proof.
  split; [reflexivity |].
  destruct (updateDevice_touches_only_its_row Samples.world Samples.table "roku:X1"
              (seen_patch "2024-05-01T10:00:00.000Z") eq_refl)
    as (w' & tbl' & Hrun & Hst & Hk & _ & Hother & _).
  exists w', tbl'. repeat split; auto.
  apply (Hother (mkRow 2 Samples.den)); [reflexivity | now left | discriminate].
Defined.

(** Den keeps its MAC address when a status update adds a room. *)
Lemma updateDeviceStatus_merges_metadata_witness :
  (deviceStore Samples.world = Some ([mkRow 1 Samples.loft] ++ mkRow 2 Samples.den :: [])%list
   /\ p_metadata Samples.room_patch = Some {[ "room" := JStr "den" ]}
   /\ metadata Samples.den = Some {[ "mac_address" := JStr "AA:BB:CC:00:11:22" ]})
  /\ exists updated,
       deviceStore (snd (updateDeviceStatus "roku:X1" Samples.room_patch Samples.world))
       = Some [mkRow 1 Samples.loft; mkRow 2 updated]
       /\ meta_get (metadata updated) "mac_address" = Some (JStr "AA:BB:CC:00:11:22")
       /\ meta_get (metadata updated) "room" = Some (JStr "den").
Proof.
  split; [repeat split; reflexivity |].
  assert (Hpk : NoDup (map row_id ([mkRow 1 Samples.loft] ++ mkRow 2 Samples.den :: [])))
    by (apply (bool_decide_unpack _); vm_compute; exact I).
  assert (Hid : NoDup (map (fun r : Row => device_id r)
                         ([mkRow 1 Samples.loft] ++ mkRow 2 Samples.den :: [])))
    by (apply (bool_decide_unpack _); vm_compute; exact I).
  destruct (updateDeviceStatus_merges_metadata Samples.world [mkRow 1 Samples.loft] []
              (mkRow 2 Samples.den) Samples.room_patch
              {[ "room" := JStr "den" ]} {[ "mac_address" := JStr "AA:BB:CC:00:11:22" ]}
              eq_refl Hpk Hid eq_refl eq_refl)
    as [(updated & Hst & Hmeta) _].
  exists updated. split; [exact Hst |]. rewrite !Hmeta. split; reflexivity.
Defined.

Lemma deleteDevice_removes_the_row_witness :
  deviceStore Samples.world = Some ([mkRow 1 Samples.loft] ++ mkRow 2 Samples.den :: [])%list
  /\ exists w',
       deleteDevice "roku:X1" Samples.world = (Ok tt, w')
       /\ deviceStore w' = Some [mkRow 1 Samples.loft]
       /\ getDevice "roku:X1" w' = (Ok None, w').
Proof.
  split; [reflexivity |].
  assert (Hpk : NoDup (map row_id ([mkRow 1 Samples.loft] ++ mkRow 2 Samples.den :: [])))
    by (apply (bool_decide_unpack _); vm_compute; exact I).
  assert (Hid : NoDup (map (fun r : Row => device_id r)
                         ([mkRow 1 Samples.loft] ++ mkRow 2 Samples.den :: [])))
    by (apply (bool_decide_unpack _); vm_compute; exact I).
  exact (proj1 (deleteDevice_removes_the_row Samples.world [mkRow 1 Samples.loft] []
                  (mkRow 2 Samples.den) eq_refl Hpk Hid)).
Defined.



(** The address 192.168.1.50 does not answer: nothing is claimed and
    nothing is written. *)
Lemma handleDiscoveredCandidate_never_throws_witness :
  Samples.ecp "192.168.1.50" = Throw "Request timeout"
  /\ exists w',
       handleDiscoveredCandidate Samples.ecp Samples.clock true
         Samples.silent_candidate Samples.world = (Ok no_claim, w')
       /\ deviceStore w' = deviceStore Samples.world
       /\ register_calls w' = [].
Proof.
  split; [reflexivity |].
  destruct (proj2 (@handleDiscoveredCandidate_never_throws KeyedHost.t KeyedHost.api Samples.ecp Samples.clock true)
              Samples.silent_candidate Samples.world
              (or_intror (ex_intro _ "192.168.1.50"
                            (ex_intro _ "Request timeout" (conj eq_refl eq_refl)))))
    as (w' & Hrun & Hst & _ & _ & _ & Hrc).
  exists w'. auto.
Defined.

(** Den shows up while the table is empty: it is created, registered and
    announced. *)
Lemma handleDiscoveredCandidate_new_device_witness :
  (deviceStore (Samples.wiped_world "roku.den.power") = Some []
   /\ Samples.ecp "192.168.1.77" = Ok Samples.den_info)
  /\ exists row w',
       handleDiscoveredCandidate Samples.ecp Samples.clock true
         Samples.moved_candidate (Samples.wiped_world "roku.den.power")
       = (Ok {| claim := true; cr_deviceId := Some "roku:X1"; cr_name := Some "Den";
                cr_serialNumber := Some "X1" |}, w')
       /\ deviceStore w' = Some [row]
       /\ map deviceId (register_calls w') = ["roku:X1"]
       /\ length (broadcasts w') = 1
       /\ length (bus_events w') = 1.
Proof.
  split; [split; reflexivity |].
  assert (Hnone : fst (findExistingRoku (serialNumber Samples.den_info)
                         (Js.or_else (c_mac Samples.moved_candidate)
                            (c_mac_address Samples.moved_candidate))
                         "192.168.1.77" (Samples.wiped_world "roku.den.power"))
                  = Ok None)
    by reflexivity.
  destruct (@handleDiscoveredCandidate_new_device KeyedHost.t KeyedHost.api Samples.ecp Samples.clock true
              Samples.moved_candidate (Samples.wiped_world "roku.den.power") []
              "192.168.1.77" Samples.den_info eq_refl eq_refl eq_refl Hnone eq_refl)
    as (w' & Hrun & Hst & Hrc & Hbc & Hbus & _).
  eexists _, w'. split; [exact Hrun |]. split; [exact Hst |].
  rewrite Hrc, Hbc, Hbus. repeat split; reflexivity.
Defined.

Lemma handleDiscoveredCandidate_keeps_devices_witness :
  (deviceStore Samples.world = Some Samples.table /\ NoDup (map row_id Samples.table))
  /\ exists tbl' added,
       deviceStore (snd (handleDiscoveredCandidate Samples.ecp Samples.clock true
                           Samples.moved_candidate Samples.world)) = Some tbl'
       /\ NoDup (map row_id tbl')
       /\ map (fun r : Row => device_id r) tbl' = (["roku:Y2"; "roku:X1"] ++ added)%list
       /\ length added <= 1.
Proof.
  assert (Hpk : NoDup (map row_id Samples.table)) by (apply (bool_decide_unpack _); vm_compute; exact I).
  split; [split; [reflexivity | exact Hpk] |].
  exact (@handleDiscoveredCandidate_keeps_devices KeyedHost.t KeyedHost.api Samples.ecp Samples.clock true
           Samples.moved_candidate Samples.world Samples.table eq_refl Hpk).
Defined.

(** Den shows up while the registry is unavailable: the row is created,
    but nothing is claimed or announced. *)
Lemma handleDiscoveredCandidate_registry_failure_witness :
  (deviceStore (Samples.empty_outage_world 1) = Some []
   /\ Samples.ecp "192.168.1.77" = Ok Samples.den_info)
  /\ exists row w',
       handleDiscoveredCandidate Samples.ecp Samples.clock true
         Samples.moved_candidate (Samples.empty_outage_world 1) = (Ok no_claim, w')
       /\ deviceStore w' = Some [row]
       /\ device_id row = "roku:X1"
       /\ broadcasts w' = [].
Proof.
  split; [split; reflexivity |].
  destruct (@handleDiscoveredCandidate_registry_failure OutageHost.t OutageHost.api Samples.ecp Samples.clock true
              Samples.moved_candidate (Samples.empty_outage_world 1) []
              "192.168.1.77" Samples.den_info "registry unavailable"
              eq_refl eq_refl eq_refl eq_refl eq_refl)
    as (w' & Hrun & Hst & Hbc & _).
  eexists _, w'. split; [exact Hrun |]. split; [exact Hst |]. split; [reflexivity | exact Hbc].
Defined.

(** The next scan claims Den as a known device, although it was never
    registered. *)
Lemma failed_registration_is_not_retried_witness :
  (deviceStore (Samples.empty_outage_world 1) = Some []
   /\ Samples.ecp "192.168.1.77" = Ok Samples.den_info)
  /\ exists w2,
       handleDiscoveredCandidate Samples.ecp Samples.clock true
         Samples.moved_candidate
         (snd (handleDiscoveredCandidate Samples.ecp Samples.clock true
                 Samples.moved_candidate (Samples.empty_outage_world 1)))
       = (Ok {| claim := true; cr_deviceId := Some "roku:X1"; cr_name := Some "Den";
                cr_serialNumber := Some "X1" |}, w2)
       /\ length (register_calls w2) = 1
       /\ broadcasts w2 = [].
Proof.
  split; [split; reflexivity |].
  assert (Hne : "X1" <> "") by discriminate.
  destruct (@failed_registration_is_not_retried OutageHost.t OutageHost.api Samples.ecp Samples.clock true
              Samples.moved_candidate (Samples.empty_outage_world 1) []
              "192.168.1.77" Samples.den_info "X1" "registry unavailable"
              eq_refl eq_refl eq_refl eq_refl Hne eq_refl eq_refl)
    as (w2 & Hrun & Hrc & _ & Hbc & _).
  exists w2. rewrite Hrc. repeat split; auto.
Defined.




(** Den is in the local table: the registry, although it cannot be
    searched, is not asked. *)
Lemma findDevice_local_first_witness :
  deviceStore Samples.world = Some Samples.table
  /\ findDevice "roku:X1" Samples.world
     = (Ok (Some (FoundLocal (mkRow 2 Samples.den))), Samples.world)
  /\ findDevice "roku:Q7" Samples.world = (Ok None, Samples.world).
Proof.
  split; [reflexivity |].
  destruct (@findDevice_local_first KeyedHost.t Samples.registry_offline "roku:X1" Samples.world Samples.table eq_refl)
    as (found & Hrun & Hlocal & _).
  destruct (@findDevice_local_first KeyedHost.t Samples.registry_offline "roku:Q7" Samples.world Samples.table eq_refl)
    as (found' & Hrun' & _ & _ & Hfail).
  rewrite Hrun, Hrun', (Hlocal (mkRow 2 Samples.den) eq_refl).
  rewrite Hfail; [split; reflexivity | reflexivity |].
  left. now exists "registry unavailable".
Defined.


(** Den, recorded at 192.168.1.50, is added by hand at 192.168.1.77: the
    route reports its row at the new address; and when the device no longer
    answers the handler's request, it reports success without a device. *)
Lemma route_add_device_accepts_witness :
  (deviceStore Samples.den_world = Some Samples.den_table
   /\ Samples.ecp "192.168.1.77" = Ok Samples.den_info
   /\ vendor_is_roku Samples.den_info = true
   /\ Samples.offline "192.168.1.77" = Throw "Request timeout")
  /\ (exists row w',
        route_add_device Samples.ecp Samples.clock true Samples.ecp
          (Some "192.168.1.77") Samples.den_world
        = (Ok {| success := true; r_error := None; r_status := None;
                 r_device := Some row |}, w')
        /\ ip_address row = "192.168.1.77")
  /\ (exists w',
        route_add_device Samples.offline Samples.clock true Samples.ecp
          (Some "192.168.1.77") Samples.den_world
        = (Ok {| success := true; r_error := None; r_status := None;
                 r_device := None |}, w')
        /\ deviceStore w' = Some Samples.den_table).
Proof.
  split; [repeat split; reflexivity |].
  assert (Hne : "192.168.1.77" <> "") by discriminate.
  assert (Hfree : Forall (fun r : Row => ip_address r <> "192.168.1.77") Samples.den_table)
    by (repeat constructor; discriminate).
  split.
  - destruct (@route_add_device_accepts KeyedHost.t KeyedHost.api Samples.ecp
                Samples.clock true Samples.ecp Samples.den_world Samples.den_table
                "192.168.1.77" Samples.den_info eq_refl Hne Hfree eq_refl eq_refl)
      as (device & w' & tbl' & Hrun & _ & Hanswered & _).
    destruct (Hanswered Samples.den_info eq_refl) as (row & -> & Hip & _).
    exists row, w'. split; [exact Hrun | exact Hip].
  - destruct (@route_add_device_accepts KeyedHost.t KeyedHost.api Samples.offline
                Samples.clock true Samples.ecp Samples.den_world Samples.den_table
                "192.168.1.77" Samples.den_info eq_refl Hne Hfree eq_refl eq_refl)
      as (device & w' & tbl' & Hrun & Hst & _ & Hsilent).
    destruct (Hsilent "Request timeout" eq_refl) as (-> & -> & _).
    exists w'. split; [exact Hrun | exact Hst].
Defined.


(** Den shows Netflix: the entity is playing. *)
Lemma pollDevice_entity_witness :
  exists e,
    fst (pollDevice Samples.ecp Samples.active_app (Some Samples.den_target) None
           Samples.world) = Ok [e]
    /\ es_entityId e = "media_player.den"
    /\ es_state e = "playing"
    /\ at_is_screensaver e = false
    /\ at_active_app e <> "Home".
Proof.
  exists (poll_entity Samples.den_target Samples.den_info (Some Samples.netflix)).
  destruct (pollDevice_entity Samples.ecp Samples.active_app (Some Samples.den_target)
              None Samples.world
              [poll_entity Samples.den_target Samples.den_info (Some Samples.netflix)]
              eq_refl)
    as (_ & target & e & _ & [= <-] & _ & _ & _ & _ & _ & _ & _ & Hplaying & _).
  split; [reflexivity |]. split; [reflexivity |]. split; [reflexivity |].
  exact (Hplaying eq_refl).
Defined.
